(** * imprint.driver: a shallow embedding of the calibration/validation driver

    The definitions follow [src/imprint/driver.py].  Conventions:

    - Python/JAX integers ([K], [tie_sum], [idx]) are [Z];
    - floating point values ([lam], [delta], [alpha], the statistics) are
      idealised as rationals [Q]; a not-a-number result of a library call
      is [None];
    - a 2D array is its shape together with its cell function;
    - raising is a result [Raise e]; the methods of the driver return their
      result together with the invocations of the simulation model they
      made, and the top-level operations thread the store of grid objects,
      the invocations and the warnings through a state;
    - the pandas operations of the driver ([groupby], [concat], [.loc],
      column assignment) are written out on frames that are lists of
      labelled rows. *)

From Stdlib Require Import String.
From Stdlib Require Import ZArith QArith Qround List Bool Lia
  Sorting.Sorted Sorting.Permutation.
Import ListNotations.

Open Scope Z_scope.

(** ** Numbers *)

(** [jnp.maximum] on floats. *)
Definition jnp_maximum (x y : Q) : Q := if Qle_bool x y then y else x.

(** Strict comparison [x < y] on floats. *)
Definition Qltb (x y : Q) : bool := negb (Qle_bool y x).

(** ** Clopper-Pearson *)

Section ClopperPearson.

(** [numpyro.distributions.util.betaincinv], an external library function:
    [None] stands for a not-a-number result. *)
Variable betaincinv : Z -> Z -> Q -> option Q.

(** [jnp.where(jnp.isnan(x), 0, x)]. *)
Definition nan_to_zero (x : option Q) : Q :=
  match x with
  | None => 0%Q
  | Some v => v
  end.

Definition clopper_pearson (tie_sum K : Z) (delta : Q) : Q :=
  let tie_cp_bound2 := betaincinv (tie_sum + 1) (K - tie_sum) (1 - delta)%Q in
  nan_to_zero tie_cp_bound2.

End ClopperPearson.

(** ** Calibration index and threshold *)

(** The product [(K + 1) * max(alpha, 0)] is taken in [Q].  The source
    rounds it to a floating point value before [jnp.floor], so that a
    product just below an integer can be floored to that integer there. *)
Definition _calibration_index (K : Z) (alpha : Q) : Z :=
  Z.max (Qfloor (inject_Z (K + 1) * jnp_maximum alpha 0) - 1) 0.

(** JAX indexing [a[i]] of a one-dimensional array: a negative index counts
    from the end, an index out of bounds is clamped to the nearest valid
    position; an empty axis cannot be indexed. *)
Definition jax_getitem {A : Type} (a : list A) (i : Z) : option A :=
  let n := Z.of_nat (length a) in
  let i' := if i <? 0 then i + n else i in
  nth_error a (Z.to_nat (Z.min (Z.max i' 0) (n - 1))).

Definition calc_calibration_threshold
    (sorted_stats : list Q) (sorted_order : list Z) (alpha : Q) : option Q :=
  let idx := _calibration_index (Z.of_nat (length sorted_stats)) alpha in
  match jax_getitem sorted_order idx with
  | None => None
  | Some k => jax_getitem sorted_stats k
  end.

(** [np.arange(K)]. *)
Definition np_arange (K : Z) : list Z :=
  map Z.of_nat (seq 0 (Z.to_nat K)).

(** [jnp.sort] of one row, ascending. *)
Fixpoint sort_insert (x : Q) (l : list Q) : list Q :=
  match l with
  | [] => [x]
  | y :: t => if Qle_bool x y then x :: l else y :: sort_insert x t
  end.

Definition jnp_sort_row (row : list Q) : list Q := fold_right sort_insert [] row.

(** ** Arrays, exceptions and results *)

(** A two-dimensional array of statistics, [shape = (shape0, shape1)]. *)
Record ndarray : Type := mk_ndarray {
  shape0 : nat;
  shape1 : nat;
  item : nat -> nat -> Q
}.

(** Row [i] of an array, and all its rows. *)
Definition array_row (a : ndarray) (i : nat) : list Q :=
  map (item a i) (seq 0 (shape1 a)).

Definition array_rows (a : ndarray) : list (list Q) :=
  map (array_row a) (seq 0 (shape0 a)).

(** The messages of the [ValueError]s that can be raised. *)
Inductive value_error : Type :=
| TilesExpected (got expected : nat)
    (* "sim_batch returned test statistics for {got} tiles but {expected}
       tiles were expected." *)
| SimulationsExpected (got : nat) (expected : Z)
    (* "sim_batch returned test statistics for {got} simulations but
       {expected} simulations were expected." *)
| NoObjectsToConcatenate
| DuplicateLabels
| LengthMismatch (got expected : nat)
| IncompatibleShapes (n m : nat).

Inductive exn : Type :=
| ValueError (why : value_error)
| TypeError (why : string)
| KeyError (key : string)
| IndexError (why : string).

Inductive res (A : Type) : Type :=
| Ok (a : A)
| Raise (e : exn).

Arguments Ok {A} a.
Arguments Raise {A} e.

Definition res_bind {A B : Type} (r : res A) (k : A -> res B) : res B :=
  match r with
  | Ok a => k a
  | Raise e => Raise e
  end.

Fixpoint res_mapM {A B : Type} (f : A -> res B) (l : list A) : res (list B) :=
  match l with
  | [] => Ok []
  | x :: t =>
      res_bind (f x) (fun y => res_bind (res_mapM f t) (fun ys => Ok (y :: ys)))
  end.

(** The two errors of [_check_stats]: the shape-mismatch errors. *)
Definition is_shape_mismatch (e : exn) : bool :=
  match e with
  | ValueError (TilesExpected _ _) => true
  | ValueError (SimulationsExpected _ _) => true
  | _ => false
  end.

(** ** pandas frames *)

(** A frame with rows of type [R]: the index label and the data of each
    row, in row order. *)
Definition frame (R : Type) : Type := list (Z * R).

Definition frame_index {R : Type} (fr : frame R) : list Z := map fst fr.

(** What a function applied to a group may return: a frame, or a bare
    array. *)
Inductive pyobj (R : Type) : Type :=
| PdFrame (fr : frame R)
| JaxArray (a : ndarray).

Arguments PdFrame {R} fr.
Arguments JaxArray {R} a.

Definition as_frame {R : Type} (o : pyobj R) : res (frame R) :=
  match o with
  | PdFrame fr => Ok fr
  | JaxArray _ =>
      Raise (TypeError "cannot concatenate object; only Series and DataFrame objs are valid")
  end.

(** [pd.concat(objs)] along the rows: an empty list and an object that is
    neither a Series nor a DataFrame are rejected. *)
Definition pd_concat {R : Type} (objs : list (pyobj R)) : res (frame R) :=
  match objs with
  | [] => Raise (ValueError NoObjectsToConcatenate)
  | _ => res_bind (res_mapM as_frame objs) (fun frs => Ok (concat frs))
  end.

(** [fr.loc[label]] inside [fr.loc[labels]]: all rows that carry the label,
    a [KeyError] when there is none. *)
Definition loc_label {R : Type} (fr : frame R) (label : Z) : res (frame R) :=
  match filter (fun r => fst r =? label) fr with
  | [] => Raise (KeyError "label not in index")
  | rows => Ok rows
  end.

(** [fr.loc[labels]]. *)
Definition loc {R : Type} (fr : frame R) (labels : list Z) : res (frame R) :=
  res_bind (res_mapM (loc_label fr) labels) (fun frs => Ok (concat frs)).

Fixpoint has_dup (l : list Z) : bool :=
  match l with
  | [] => false
  | x :: t => existsb (Z.eqb x) t || has_dup t
  end.

Definition series_lookup {V : Type} (s : list (Z * V)) (label : Z) : option V :=
  match filter (fun r => fst r =? label) s with
  | [] => None
  | r :: _ => Some (snd r)
  end.

(** [out[col] = series]: the values of a Series are aligned on the index of
    [out].  Equal indexes are taken as they are; otherwise the Series is
    reindexed, which a Series with duplicate labels refuses, and a label
    the Series lacks gets a missing value ([None]). *)
Definition setitem_series {R V : Type} (out : frame R) (s : list (Z * V))
  : res (frame (R * option V)) :=
  if list_eq_dec Z.eq_dec (frame_index out) (map fst s)
  then Ok (map (fun p => (fst (fst p), (snd (fst p), Some (snd (snd p)))))
               (combine out s))
  else if has_dup (map fst s)
  then Raise (ValueError DuplicateLabels)
  else Ok (map (fun r => (fst r, (snd r, series_lookup s (fst r)))) out).

(** [out[col] = values] for an array of values: the lengths must agree. *)
Definition setitem_array {R V : Type} (out : frame R) (vals : list V)
  : res (frame (R * V)) :=
  if (length vals =? length out)%nat
  then Ok (map (fun p => (fst (fst p), (snd (fst p), snd p))) (combine out vals))
  else Raise (ValueError (LengthMismatch (length vals) (length out))).

(** Elementwise operation on two one-dimensional arrays, with NumPy
    broadcasting of an array of length 1. *)
Definition broadcast2 {A B C : Type} (f : A -> B -> C) (xs : list A) (ys : list B)
  : res (list C) :=
  if (length xs =? length ys)%nat
  then Ok (map (fun p => f (fst p) (snd p)) (combine xs ys))
  else match xs, ys with
       | [x], _ => Ok (map (f x) ys)
       | _, [y] => Ok (map (fun x => f x y) xs)
       | _, _ => Raise (ValueError (IncompatibleShapes (length xs) (length ys)))
       end.

(** ** Effects

    The methods of the driver call the simulation model and may raise: a
    computation of the driver returns a result or an exception, together
    with the invocations it made, oldest first.  An exception keeps the
    invocations made before it. *)

Definition D (L A : Type) : Type := (res A * list L)%type.

Definition ret {L A : Type} (a : A) : D L A := (Ok a, []).

Definition lift {L A : Type} (r : res A) : D L A := (r, []).

Definition bind {L A B : Type} (c : D L A) (k : A -> D L B) : D L B :=
  match fst c with
  | Ok a => (fst (k a), snd c ++ snd (k a))
  | Raise e => (Raise e, snd c)
  end.

Notation "x <- c ;; k" := (bind c (fun x => k))
  (at level 61, c at next level, right associativity).

Fixpoint mapM {L A B : Type} (f : A -> D L B) (l : list A) : D L (list B) :=
  match l with
  | [] => ret []
  | x :: t => y <- f x ;; ys <- mapM f t ;; ret (y :: ys)
  end.

(** The top-level operations also read and change objects of the caller:
    a computation there takes the state of the world and returns a result
    or an exception, and the new state. *)

Definition M (W A : Type) : Type := W -> res A * W.

Definition retM {W A : Type} (a : A) : M W A := fun w => (Ok a, w).

Definition bindM {W A B : Type} (c : M W A) (k : A -> M W B) : M W B :=
  fun w =>
    match c w with
    | (Ok a, w') => k a w'
    | (Raise e, w') => (Raise e, w')
    end.

Definition liftM {W A : Type} (r : res A) : M W A := fun w => (r, w).

Notation "x <~ c ;; k" := (bindM c (fun x => k))
  (at level 61, c at next level, right associativity).

(** A Python dict with string keys, as keyword arguments and family
    parameters are. *)
Definition kwargs : Type := list (string * Q).

(** [jax.vmap] of a function of three arguments over the leading axis. *)
Fixpoint vmap3 {A B C D : Type} (f : A -> B -> C -> D)
    (a : list A) (b : list B) (c : list C) : list D :=
  match a, b, c with
  | x :: a', y :: b', z :: c' => f x y z :: vmap3 f a' b' c'
  | _, _, _ => []
  end.

(** [jnp.sum(stats < lam, axis=-1)]. *)
Definition jnp_sum_lt (stats : ndarray) (lam : Q) : list Z :=
  map (fun row => Z.of_nat (length (filter (fun s => Qltb s lam) row)))
      (array_rows stats).

(** [jnp.sort(stats, axis=-1)]. *)
Definition jnp_sort (stats : ndarray) : list (list Q) :=
  map jnp_sort_row (array_rows stats).

(** [jax.vmap(calc_calibration_threshold, in_axes=(0, None, 0))]. *)
Definition calibratev (sorted_stats : list (list Q)) (sorted_order : list Z)
    (alpha0 : list Q) : res (list Q) :=
  res_mapM
    (fun p =>
       match calc_calibration_threshold (fst p) sorted_order (snd p) with
       | Some lam => Ok lam
       | None => Raise (IndexError "index is out of bounds for axis 0 with size 0")
       end)
    (combine sorted_stats alpha0).

(** [series.max()]; the maximum of an empty column is a missing value. *)
Definition series_max (l : list Z) : option Z :=
  match l with
  | [] => None
  | x :: t => Some (fold_left Z.max t x)
  end.

(** Keys of a [groupby]: the distinct values, ascending. *)
Fixpoint insert_key (k : Z) (l : list Z) : list Z :=
  match l with
  | [] => [k]
  | x :: t =>
      if k <? x then k :: l
      else if k =? x then l
      else x :: insert_key k t
  end.

Definition group_keys (ks : list Z) : list Z := fold_right insert_key [] ks.

(** ** Sub-batching *)

(** Modelled from the spec: [imprint.batching] is absent from the sources.
    "given a total count and a chunk size, produce a [...] sequence of
    (start, end) index ranges": chunks of [batch_size] positions, the last
    one shorter when the count is not a multiple. *)
Fixpoint batch_ranges (fuel batch_size start dim : nat) : list (nat * nat) :=
  match fuel with
  | O => []
  | S fuel' =>
      if (dim <=? start)%nat then []
      else
        let stop := Nat.min (start + batch_size) dim in
        (start, stop) :: batch_ranges fuel' batch_size stop dim
  end.

(** [a[start:stop]]. *)
Definition slice {A : Type} (a : list A) (r : nat * nat) : list A :=
  firstn (snd r - fst r) (skipn (fst r) a).

(** Modelled from the spec: [batching.batch(f, batch_size,
    in_axes=(None, 0, 0, 0))], absent from the sources.  "applies a function
    to large sequence-valued arguments by splitting them into fixed-size
    chunks along the leading axis, running the function per chunk, and
    concatenating results back into the original order and shape";
    sub-batches are "processed strictly sequentially in increasing
    tile-index order".  The first argument is passed whole, [cat]
    concatenates the outputs of the chunks. *)
Definition batch {L A B C O : Type} (cat : list O -> O)
    (f : Z -> list A -> list B -> list C -> D L O) (batch_size : nat)
    (K : Z) (a : list A) (b : list B) (c : list C) : D L O :=
  outs <- mapM (fun r => f K (slice a r) (slice b r) (slice c r))
               (batch_ranges (length a) batch_size 0 (length a)) ;;
  ret (cat outs).

Definition cat4 {A B C D : Type} (outs : list (list A * list B * list C * list D))
  : list A * list B * list C * list D :=
  (concat (map (fun o => fst (fst (fst o))) outs),
   concat (map (fun o => snd (fst (fst o))) outs),
   concat (map (fun o => snd (fst o)) outs),
   concat (map (fun o => snd o) outs)).

Definition cat2 {A B : Type} (outs : list (list A * list B)) : list A * list B :=
  (concat (map fst outs), concat (map snd outs)).

(** ** Tiles, grids, models and the driver *)

Section Driver.

(** The representative point of a tile, its vertices and its
    null-hypothesis assignment are opaque to the driver. *)
Context {Theta Vertices NullTruth : Type}.

Variable betaincinv : Z -> Z -> Q -> option Q.

(** One row of a tile collection; [index] is its label in the frame. *)
Record tile : Type := mk_tile {
  index : Z;
  theta : Theta;
  vertices : Vertices;
  null_truth : NullTruth;
  active : bool;
  tile_K : Z
}.

(** The frame of a grid.  [has_K] says whether it has a column ["K"];
    without the column the field [tile_K] of its rows is not looked at. *)
Record DataFrame : Type := mk_df {
  has_K : bool;
  rows : list tile
}.

Definition df_index (d : DataFrame) : list Z := map index (rows d).

(** [df["K"]], as a Series. *)
Definition col_K (d : DataFrame) : res (list (Z * Z)) :=
  if has_K d then Ok (map (fun t => (index t, tile_K t)) (rows d))
  else Raise (KeyError "K").

(** [df.groupby("K", group_keys=False)]: for each distinct [K], ascending,
    the rows with that [K] in their order. *)
Definition groupby_K (d : DataFrame) : res (list (Z * DataFrame)) :=
  if has_K d
  then Ok (map (fun k => (k, mk_df true (filter (fun t => tile_K t =? k) (rows d))))
               (group_keys (map tile_K (rows d))))
  else Raise (KeyError "K").

(** Modelled from the spec: [imprint.grid] is absent from the sources.
    A grid object holds its frame in [g.df]; "get_theta() -> array[d]",
    "get_theta_and_vertices() -> (theta, vertices)",
    "get_null_truth() -> array". *)
Record Grid : Type := mk_Grid { df : DataFrame }.

Definition get_theta (g : Grid) : list Theta := map theta (rows (df g)).

Definition get_theta_and_vertices (g : Grid) : list Theta * list Vertices :=
  (map theta (rows (df g)), map vertices (rows (df g))).

Definition get_null_truth (g : Grid) : list NullTruth :=
  map null_truth (rows (df g)).

Definition n_tiles (g : Grid) : nat := length (rows (df g)).

(** The simulation model: an object with [sim_batch], a [family] and
    possibly [family_params]. *)
Record Model : Type := mk_Model {
  family : string;
  family_params : option kwargs;
  sim_batch : Z -> Z -> list Theta -> list NullTruth -> ndarray
}.

(** Modelled from the spec: [imprint.bound] is absent from the sources.
    A bound family is "a pure function pair (forward, backward)":
    "forward(estimate_or_cp_bound, theta, vertices) -> tile_bound" and
    "backward(target_level, theta, vertices) -> adjusted_level", each
    "parameterized once by family-specific parameters"; the driver applies
    them to all tiles of a sub-batch at once
    ("tie_bound[i] = BoundFamily.forward(tie_cp_bound[i], theta[i],
    vertices[i])"). *)
Record BoundType : Type := mk_BoundType {
  forward : kwargs -> Q -> Theta -> Vertices -> Q;
  backward : kwargs -> Q -> Theta -> Vertices -> Q
}.

Definition boundv : Type := list Q -> list Theta -> list Vertices -> list Q.

Definition get_forward_bound (b : BoundType) (family_params : kwargs) : boundv :=
  vmap3 (forward b family_params).

Definition get_backward_bound (b : BoundType) (family_params : kwargs) : boundv :=
  vmap3 (backward b family_params).

(** The bound classes of [imprint.bound], which is absent from the
    sources: they are taken as given. *)
Record bound_module : Type := mk_bound_module {
  NormalBound : BoundType;
  Normal2Bound : BoundType;
  ScaledChiSqBound : BoundType;
  BinomialBound : BoundType;
  ExponentialBound : BoundType
}.

Variable bound : bound_module.

Definition bound_dict : list (string * BoundType) :=
  [("normal"%string, NormalBound bound);
   ("normal2"%string, Normal2Bound bound);
   ("scaled_chisq"%string, ScaledChiSqBound bound);
   ("binomial"%string, BinomialBound bound);
   ("exponential"%string, ExponentialBound bound)].

Definition get_bound (family : string) (family_params : kwargs)
  : res (boundv * boundv) :=
  match find (fun e => String.eqb (fst e) family) bound_dict with
  | Some e =>
      Ok (get_forward_bound (snd e) family_params,
          get_backward_bound (snd e) family_params)
  | None => Raise (KeyError family)
  end.

(** *** The state of the world *)

(** One invocation of [sim_batch]. *)
Record call : Type := mk_call {
  seed_offset : Z;
  call_K : Z;
  call_theta : list Theta;
  call_null_truth : list NullTruth
}.

(** The grid objects of the store (a reference is a position in it), the
    invocations of the simulation model and the warnings issued, oldest
    first. *)
Record world : Type := mk_world {
  heap : list Grid;
  sim_calls : list call;
  warnings : list string
}.

(** [m.sim_batch(so, K, th, nt)], recorded. *)
Definition call_sim_batch (m : Model) (so K : Z) (th : list Theta)
    (nt : list NullTruth) : D call ndarray :=
  (Ok (sim_batch m so K th nt), [mk_call so K th nt]).

(** A computation of the driver, run in the world. *)
Definition run_driver {A : Type} (c : D call A) : M world A :=
  fun w => (fst c, mk_world (heap w) (sim_calls w ++ snd c) (warnings w)).

Definition warnings_warn (msg : string) : M world unit :=
  fun w => (Ok tt, mk_world (heap w) (sim_calls w) (warnings w ++ [msg])).

(** *** [_check_stats] *)

Definition _check_stats (stats : ndarray) (K : Z) (theta : list Theta) : res unit :=
  if negb (shape0 stats =? length theta)%nat
  then Raise (ValueError (TilesExpected (shape0 stats) (length theta)))
  else if negb (Z.of_nat (shape1 stats) =? K)
  then Raise (ValueError (SimulationsExpected (shape1 stats) K))
  else Ok tt.

(** *** [_groupby_apply_K] *)

Definition _groupby_apply_K {R : Type} (d : DataFrame)
    (f : Z -> DataFrame -> D call (pyobj R)) : D call (frame R) :=
  groups <- lift (groupby_K d) ;;
  out <- mapM (fun g => f (fst g) (snd g)) groups ;;
  all <- lift (pd_concat out) ;;
  lift (loc all (df_index d)).

(** *** The class [Driver] *)

Record Driver : Type := mk_Driver {
  model : Model;
  tile_batch_size : nat;
  forward_boundv : boundv;
  backward_boundv : boundv
}.

(** [Driver.__init__]. *)
Definition Driver_init (model : Model) (tile_batch_size : nat) : res Driver :=
  res_bind
    (get_bound (family model)
       (match family_params model with Some p => p | None => [] end))
    (fun fb => Ok (mk_Driver model tile_batch_size (fst fb) (snd fb))).

(** [Driver.stats]: the function [f] applied to each group. *)
Definition stats_f (self : Driver) (K : Z) (K_df : DataFrame)
  : D call (pyobj (list Q)) :=
  K <- lift (match rows K_df with
             | [] => Raise (IndexError "single positional indexer is out-of-bounds")
             | t :: _ => Ok (tile_K t)
             end) ;;
  let K_g := mk_Grid K_df in
  let theta := get_theta K_g in
  stats <- call_sim_batch (model self) 0 K theta (get_null_truth K_g) ;;
  _ <- lift (_check_stats stats K theta) ;;
  ret (JaxArray stats).

Definition Driver_stats (self : Driver) (d : DataFrame) : D call (frame (list Q)) :=
  _groupby_apply_K d (stats_f self).

(** The columns that [Driver.validate] computes for a tile. *)
Record validate_row : Type := mk_validate_row {
  tie_sum : Z;
  tie_est : Q;
  tie_cp_bound : Q;
  tie_bound : Q
}.

(** [pd.DataFrame(dict(tie_sum=..., tie_est=..., tie_cp_bound=...,
    tie_bound=...), index=...)]: the columns must have the length of the
    index. *)
Definition pd_DataFrame4 (tie_sum : list Z) (tie_est tie_cp_bound tie_bound : list Q)
    (index : list Z) : res (frame validate_row) :=
  let n := length index in
  if ((length tie_sum =? n) && (length tie_est =? n)
      && (length tie_cp_bound =? n) && (length tie_bound =? n))%nat
  then Ok (map (fun p =>
                  (fst p,
                   mk_validate_row (fst (snd p)) (fst (snd (snd p)))
                     (fst (snd (snd (snd p)))) (snd (snd (snd (snd p))))))
               (combine index
                  (combine tie_sum
                     (combine tie_est (combine tie_cp_bound tie_bound)))))
  else Raise (ValueError (LengthMismatch (length tie_sum) n)).

(** [Driver.validate]: the function [_batched] applied to each sub-batch. *)
Definition validate__batched (self : Driver) (lam delta : Q) (K : Z)
    (theta : list Theta) (vertices : list Vertices) (null_truth : list NullTruth)
  : D call (list Z * list Q * list Q * list Q) :=
  stats <- call_sim_batch (model self) 0 K theta null_truth ;;
  _ <- lift (_check_stats stats K theta) ;;
  let tie_sum := jnp_sum_lt stats lam in
  let tie_est := map (fun s => inject_Z s / inject_Z K)%Q tie_sum in
  let tie_cp_bound := map (fun s => clopper_pearson betaincinv s K delta) tie_sum in
  let tie_bound := forward_boundv self tie_cp_bound theta vertices in
  ret (tie_sum, tie_est, tie_cp_bound, tie_bound).

(** [Driver.validate]: the function [f] applied to each group. *)
Definition validate_f (self : Driver) (lam delta : Q) (K : Z) (K_df : DataFrame)
  : D call (pyobj validate_row) :=
  let K_g := mk_Grid K_df in
  let tv := get_theta_and_vertices K_g in
  o <- batch cat4 (validate__batched self lam delta) (tile_batch_size self)
         K (fst tv) (snd tv) (get_null_truth K_g) ;;
  fr <- lift (pd_DataFrame4 (fst (fst (fst o))) (snd (fst (fst o)))
                (snd (fst o)) (snd o) (df_index K_df)) ;;
  ret (PdFrame fr).

Definition Driver_validate (self : Driver) (d : DataFrame) (lam delta : Q)
  : D call (frame (validate_row * option Z)) :=
  out <- _groupby_apply_K d (validate_f self lam delta) ;;
  Ks <- lift (col_K d) ;;
  lift (setitem_series out Ks).

(** The columns that the groups of [Driver.calibrate] compute for a tile. *)
Record calibrate_row : Type := mk_calibrate_row {
  lams : Q;
  alpha0 : Q
}.

(** [Driver.calibrate]: the function [_batched] applied to each sub-batch. *)
Definition calibrate__batched (self : Driver) (alpha : Q) (K : Z)
    (theta : list Theta) (vertices : list Vertices) (null_truth : list NullTruth)
  : D call (list Q * list Q) :=
  stats <- call_sim_batch (model self) 0 K theta null_truth ;;
  _ <- lift (_check_stats stats K theta) ;;
  let sorted_stats := jnp_sort stats in
  let alpha0 := backward_boundv self (repeat alpha (length theta)) theta vertices in
  lams <- lift (calibratev sorted_stats (np_arange K) alpha0) ;;
  ret (lams, alpha0).

(** [Driver.calibrate]: the function [f] applied to each group. *)
Definition calibrate_f (self : Driver) (alpha : Q) (K : Z) (K_df : DataFrame)
  : D call (pyobj calibrate_row) :=
  let K_g := mk_Grid K_df in
  let tv := get_theta_and_vertices K_g in
  o <- batch cat2 (calibrate__batched self alpha) (tile_batch_size self)
         K (fst tv) (snd tv) (get_null_truth K_g) ;;
  let out := map (fun i => (i, tt)) (df_index K_df) in
  out <- lift (setitem_array out (fst o)) ;;
  out <- lift (setitem_array out (snd o)) ;;
  ret (PdFrame (map (fun r => (fst r, mk_calibrate_row (snd (fst (snd r))) (snd (snd r))))
                    out)).

Definition Driver_calibrate (self : Driver) (d : DataFrame) (alpha : Q)
  : D call (frame (calibrate_row * Z * option Z)) :=
  out <- _groupby_apply_K d (calibrate_f self alpha) ;;
  Ks <- lift (col_K d) ;;
  idx <- lift (broadcast2 _calibration_index (map snd Ks)
                 (map (fun r => alpha0 (snd r)) out)) ;;
  out <- lift (setitem_array out idx) ;;
  lift (setitem_series out Ks).

(** *** The object store *)

(** A new grid object; its reference is returned. *)
Definition new_grid (x : Grid) : M world nat :=
  fun w => (Ok (length (heap w)),
            mk_world (heap w ++ [x]) (sim_calls w) (warnings w)).

(** The object behind a reference (a reference handed out by [new_grid]
    is always in the store). *)
Definition get_grid (g : nat) : M world Grid :=
  fun w => (Ok (nth g (heap w) (mk_Grid (mk_df false []))), w).

Fixpoint list_update {A : Type} (l : list A) (i : nat) (x : A) : list A :=
  match l, i with
  | [], _ => []
  | _ :: t, O => x :: t
  | y :: t, S i' => y :: list_update t i' x
  end.

(** In-place change of the frame [g.df] of the object behind [g]. *)
Definition modify_df (g : nat) (h : DataFrame -> DataFrame) : M world unit :=
  fun w =>
    let x := nth g (heap w) (mk_Grid (mk_df false [])) in
    (Ok tt,
     mk_world (list_update (heap w) g (mk_Grid (h (df x)))) (sim_calls w) (warnings w)).

(** Modelled from the spec: [Grid.prune_inactive], absent from the
    sources.  "prune_inactive() -> TileCollection": a new grid without the
    tiles flagged inactive. *)
Definition prune_inactive (g : nat) : M world nat :=
  x <~ get_grid g ;;
  new_grid (mk_Grid (mk_df (has_K (df x)) (filter active (rows (df x))))).

(** [copy.deepcopy(g)]. *)
Definition copy_deepcopy (g : nat) : M world nat :=
  x <~ get_grid g ;;
  new_grid x.

Definition set_tile_K (k : Z) (t : tile) : tile :=
  mk_tile (index t) (theta t) (vertices t) (null_truth t) (active t) k.

(** [df["K"] = K] for a scalar [K]. *)
Definition assign_K (k : Z) (d : DataFrame) : DataFrame :=
  mk_df true (map (set_tile_K k) (rows d)).

(** [df.loc[df["K"] == 0, "K"] = K]. *)
Definition replace_zero_K (k : Z) (d : DataFrame) : DataFrame :=
  mk_df (has_K d)
    (map (fun t => if tile_K t =? 0 then set_tile_K k t else t) (rows d)).

(** *** [_setup] and the top-level operations *)

Definition default_K : Z := 2 ^ 14.

(** The model class: called with the seed, the largest [K] and the
    keyword arguments. *)
Definition ModelType : Type := Z -> option Z -> kwargs -> Model.

Definition _setup (model_type : ModelType) (g : nat) (model_seed : Z)
    (K : option Z) (model_kwargs : option kwargs) : M world (Model * nat) :=
  g_pruned <~ prune_inactive g ;;
  x_pruned <~ get_grid g_pruned ;;
  x <~ get_grid g ;;
  g <~ (if (n_tiles x_pruned <? n_tiles x)%nat
        then
          _ <~ warnings_warn "Pruning inactive tiles before simulation. Mark these tiles as active if you want to simulate for them." ;;
          retM g
        else copy_deepcopy g) ;;
  _ <~ match K with
       | Some K => modify_df g (assign_K K)
       | None =>
           x <~ get_grid g ;;
           _ <~ (if negb (has_K (df x))
                 then modify_df g (assign_K default_K)
                 else retM tt) ;;
           modify_df g (replace_zero_K default_K)
       end ;;
  let model_kwargs := match model_kwargs with None => [] | Some kw => kw end in
  x <~ get_grid g ;;
  let model := model_type model_seed (series_max (map tile_K (rows (df x)))) model_kwargs in
  retM (model, g).

Definition validate (model_type : ModelType) (g : nat) (lam delta : Q)
    (model_seed : Z) (K : option Z) (tile_batch_size : nat)
    (model_kwargs : option kwargs)
  : M world (frame (validate_row * option Z)) :=
  mg <~ _setup model_type g model_seed K model_kwargs ;;
  driver <~ liftM (Driver_init (fst mg) tile_batch_size) ;;
  x <~ get_grid (snd mg) ;;
  run_driver (Driver_validate driver (df x) lam delta).

Definition calibrate (model_type : ModelType) (g : nat) (alpha : Q)
    (model_seed : Z) (K : option Z) (tile_batch_size : nat)
    (model_kwargs : option kwargs)
  : M world (frame (calibrate_row * Z * option Z)) :=
  mg <~ _setup model_type g model_seed K model_kwargs ;;
  driver <~ liftM (Driver_init (fst mg) tile_batch_size) ;;
  x <~ get_grid (snd mg) ;;
  run_driver (Driver_calibrate driver (df x) alpha).

End Driver.

Arguments tile : clear implicits.
Arguments DataFrame : clear implicits.
Arguments Grid : clear implicits.
Arguments Model : clear implicits.
Arguments ModelType : clear implicits.
Arguments BoundType : clear implicits.
Arguments bound_module : clear implicits.
Arguments boundv : clear implicits.
Arguments call : clear implicits.
Arguments world : clear implicits.
Arguments Driver : clear implicits.

(** * Specification

    The notions that the properties are stated with. *)

(** The threshold that [calibratev] computes for one tile, when the rows
    have [K >= 1] entries. *)
Definition selected_threshold (K : Z) (p : list Q * Q) : Q :=
  match jax_getitem (fst p) (_calibration_index K (snd p)) with
  | Some lam => lam
  | None => 0%Q
  end.

Section Specification.

Context {Theta Vertices NullTruth : Type}.
Variable betaincinv : Z -> Z -> Q -> option Q.

Local Abbreviation Model := (Model Theta NullTruth).
Local Abbreviation Driver := (Driver Theta Vertices NullTruth).
Local Abbreviation DataFrame := (DataFrame Theta Vertices NullTruth).
Local Abbreviation ModelType := (ModelType Theta NullTruth).
Local Abbreviation call := (call Theta NullTruth).
Local Abbreviation world := (world Theta Vertices NullTruth).

(** An invocation [sim_batch(0, ...)]. *)
Definition seed_offset_is_0 (c : call) : Prop := seed_offset c = 0.

(** The matrix that model [m] returned at an invocation has the shape
    that was requested: as many rows as points, and [K] columns. *)
Definition shape_matches (m : Model) (c : call) : bool :=
  let stats := sim_batch m (seed_offset c) (call_K c) (call_theta c) (call_null_truth c) in
  (shape0 stats =? length (call_theta c))%nat && (Z.of_nat (shape1 stats) =? call_K c).

(** If one of the invocations of a computation returned a matrix of the
    wrong shape, the computation raised a shape-mismatch error. *)
Definition raises_on_mismatch (m : Model) {A : Type} (c : D call A) : Prop :=
  forall x : call,
    In x (snd c) -> shape_matches m x = false ->
    exists e, fst c = Raise e /\ is_shape_mismatch e = true.

(** The contract of the simulation model: for [K] simulations of a batch
    of points it returns a matrix with one row per point and [K]
    columns. *)
Definition respects_shape (m : Model) : Prop :=
  forall (K : Z) (th : list Theta) (nt : list NullTruth),
    0 <= K -> length nt = length th ->
    shape0 (sim_batch m 0 K th nt) = length th /\
    Z.of_nat (shape1 (sim_batch m 0 K th nt)) = K.

(** The simulation model works tile by tile: the matrix for a batch of
    points has one row per point, computed from that point alone, and a
    number of columns that only depends on [K]. *)
Definition per_tile (m : Model) : Prop :=
  exists (ncol : Z -> nat) (rowf : Z -> Theta -> NullTruth -> list Q),
    forall (K : Z) (th : list Theta) (nt : list NullTruth),
      length nt = length th ->
      shape0 (sim_batch m 0 K th nt) = length th /\
      shape1 (sim_batch m 0 K th nt) = ncol K /\
      array_rows (sim_batch m 0 K th nt) =
        map (fun p => rowf K (fst p) (snd p)) (combine th nt).

(** For a model that works tile by tile, with [ncol K] columns and the row
    [rowf K theta null_truth] for a tile, and per-tile bound transforms [F]
    and [G]: the shape check of a sub-batch, which only depends on [K], and
    the columns that [validate] and [calibrate] compute for a list of
    tiles. *)
Definition check_columns (ncol : Z -> nat) (K : Z) : res unit :=
  if negb (Z.of_nat (ncol K) =? K)
  then Raise (ValueError (SimulationsExpected (ncol K) K))
  else Ok tt.

Definition validate_columns (rowf : Z -> Theta -> NullTruth -> list Q)
    (F : Q -> Theta -> Vertices -> Q) (lam delta : Q) (K : Z)
    (th : list Theta) (v : list Vertices) (nt : list NullTruth)
  : list Z * list Q * list Q * list Q :=
  let tie_sum :=
    map (fun p => Z.of_nat (length (filter (fun s => Qltb s lam)
                                           (rowf K (fst p) (snd p)))))
        (combine th nt) in
  let tie_cp_bound := map (fun s => clopper_pearson betaincinv s K delta) tie_sum in
  (tie_sum, map (fun s => inject_Z s / inject_Z K)%Q tie_sum, tie_cp_bound,
   vmap3 F tie_cp_bound th v).

Definition calibrate_columns (rowf : Z -> Theta -> NullTruth -> list Q)
    (G : Q -> Theta -> Vertices -> Q) (alpha : Q) (K : Z)
    (th : list Theta) (v : list Vertices) (nt : list NullTruth)
  : list Q * list Q :=
  let alpha0 := vmap3 G (map (fun _ => alpha) th) th v in
  let sorted_stats :=
    map (fun p => jnp_sort_row (rowf K (fst p) (snd p))) (combine th nt) in
  (map (selected_threshold K) (combine sorted_stats alpha0), alpha0).

(** With [K = 0] there is no statistic to select. *)
Definition check_calibrate (ncol : Z -> nat) (K : Z) : res unit :=
  res_bind (check_columns ncol K)
    (fun _ =>
       if K =? 0
       then Raise (IndexError "index is out of bounds for axis 0 with size 0")
       else Ok tt).

(** The frame that [_setup] leaves in the grid it works on. *)
Definition with_K (K : option Z) (d : DataFrame) : DataFrame :=
  match K with
  | Some k => assign_K k d
  | None =>
      replace_zero_K default_K
        (if negb (has_K d) then assign_K default_K d else d)
  end.

(** The model that [_setup] instantiates for a grid with frame [d]. *)
Definition setup_model (model_type : ModelType) (model_seed : Z) (K : option Z)
    (model_kwargs : option kwargs) (d : DataFrame) : Model :=
  model_type model_seed (series_max (map tile_K (rows (with_K K d))))
    (match model_kwargs with None => [] | Some kw => kw end).

(** A top-level operation: [_setup], the driver, and one of its methods
    on the frame of the grid that [_setup] returned. *)
Definition top_level {A : Type} (bound : bound_module Theta Vertices)
    (model_type : ModelType) (g : nat) (model_seed : Z) (K : option Z)
    (bs : nat) (model_kwargs : option kwargs)
    (op : Driver -> DataFrame -> D call A) : M world A :=
  mg <~ _setup model_type g model_seed K model_kwargs ;;
  driver <~ liftM (Driver_init bound (fst mg) bs) ;;
  x <~ get_grid (snd mg) ;;
  run_driver (op driver (df x)).

(** For a model that works tile by tile, with the row of statistics
    [rowf K theta null_truth] for a tile, and the per-tile bound transforms
    [F] and [G]: the rows that [Driver.validate] and [Driver.calibrate]
    compute for one tile. *)
Definition validate_tile (rowf : Z -> Theta -> NullTruth -> list Q)
    (F : Q -> Theta -> Vertices -> Q) (lam delta : Q)
    (t : tile Theta Vertices NullTruth) : validate_row :=
  let K := tile_K t in
  let tie_sum :=
    Z.of_nat (length (filter (fun s => Qltb s lam) (rowf K (theta t) (null_truth t)))) in
  let tie_cp_bound := clopper_pearson betaincinv tie_sum K delta in
  mk_validate_row tie_sum (inject_Z tie_sum / inject_Z K) tie_cp_bound
    (F tie_cp_bound (theta t) (vertices t)).

Definition calibrate_tile (rowf : Z -> Theta -> NullTruth -> list Q)
    (G : Q -> Theta -> Vertices -> Q) (alpha : Q)
    (t : tile Theta Vertices NullTruth) : calibrate_row :=
  let K := tile_K t in
  let alpha0 := G alpha (theta t) (vertices t) in
  mk_calibrate_row
    (selected_threshold K (jnp_sort_row (rowf K (theta t) (null_truth t)), alpha0))
    alpha0.

(** The invocations of [sim_batch] for a frame, when no sub-batch raises:
    for each K of the frame, ascending, one invocation per sub-batch of
    its K-group, with the points and the null-hypothesis assignments of
    the sub-batch. *)
Definition sub_batches (bs : nat) (d : DataFrame) : list call :=
  flat_map
    (fun k =>
       let group := filter (fun t => tile_K t =? k) (rows d) in
       map (fun r => mk_call 0 k (slice (map theta group) r)
                       (slice (map null_truth group) r))
           (batch_ranges (length (map theta group)) bs 0 (length (map theta group))))
    (group_keys (map tile_K (rows d))).

(** A computation fails fast: an invocation that returned a matrix of the
    wrong shape makes it raise a shape-mismatch error, and is its last
    invocation. *)
Definition fails_fast (m : Model) {A : Type} (c : D call A) : Prop :=
  forall (pre : list call) (x : call) (post : list call),
    snd c = pre ++ x :: post -> shape_matches m x = false ->
    post = [] /\ exists e, fst c = Raise e /\ is_shape_mismatch e = true.

End Specification.

(** * Concrete inputs *)

(** A stand-in for the library function with its domain check: not a
    number outside of positive shape parameters. *)
Definition betaincinv_domain (a b : Z) (y : Q) : option Q :=
  if (a <=? 0) || (b <=? 0) then None else Some y.

(** A 2 x 3 array of statistics. *)
Definition stats_2x3 : ndarray :=
  mk_ndarray 2 3 (fun i j => inject_Z (Z.of_nat ((7 * (i + 1) * (j + 2)) mod 5))).

(** A simulation model on points of the line: statistic [j] of a point
    [theta] is [theta + j]. *)
Definition ex_sim_batch (so K : Z) (th : list Q) (nt : list bool) : ndarray :=
  mk_ndarray (length th) (Z.to_nat K)
    (fun i j => (nth i th 0 + inject_Z (Z.of_nat j))%Q).

Definition ex_model : Model Q bool := mk_Model "normal" None ex_sim_batch.

Definition ex_model_type : ModelType Q bool := fun _ _ _ => ex_model.

(** A model that drops the last point: an (N-1, K) matrix for N points. *)
Definition short_sim_batch (so K : Z) (th : list Q) (nt : list bool) : ndarray :=
  mk_ndarray (length th - 1) (Z.to_nat K)
    (fun i j => (nth i th 0 + inject_Z (Z.of_nat j))%Q).

Definition short_model : Model Q bool := mk_Model "normal" None short_sim_batch.

(** A bound family that widens by the tile's radius. *)
Definition ex_bound : BoundType Q Q :=
  mk_BoundType (fun _ p _ v => (p + v)%Q) (fun _ a _ v => (a - v)%Q).

Definition ex_bound_module : bound_module Q Q :=
  mk_bound_module ex_bound ex_bound ex_bound ex_bound ex_bound.

Definition ex_tile (i : Z) (th : Q) (act : bool) (K : Z) : tile Q Q bool :=
  mk_tile i th (1 # 10) true act K.

(** Four tiles in two K-groups, the last one inactive. *)
Definition ex_df : DataFrame Q Q bool :=
  mk_df true
    [ex_tile 10 (1 # 2) true 3; ex_tile 11 (3 # 2) true 2;
     ex_tile 12 (5 # 2) true 3; ex_tile 13 0 false 2].

(** The world of a caller that holds one grid, with the frame [ex_df], at
    reference 0. *)
Definition ex_world : world Q Q bool := mk_world [mk_Grid ex_df] [] [].

Definition ex_driver (m : Model Q bool) (bs : nat) : Driver Q Q bool :=
  mk_Driver m bs (vmap3 (forward ex_bound [])) (vmap3 (backward ex_bound [])).

(** A K-group of three tiles. *)
Definition ex_group : list (tile Q Q bool) :=
  [ex_tile 10 (1 # 2) true 3; ex_tile 12 (5 # 2) true 3; ex_tile 14 (7 # 2) true 3].

(** A frame in which two tiles share a label: the re-indexing returns each
    of them twice, and the result is not in the order of the input. *)
Definition dup_df : DataFrame Q Q bool :=
  mk_df true [ex_tile 0 (1 # 2) true 2; ex_tile 0 (3 # 2) true 2].

(** A model whose statistics depend on the size of the batch it is asked
    for: each statistic is the number of points of the batch. *)
Definition batch_size_sim_batch (so K : Z) (th : list Q) (nt : list bool) : ndarray :=
  mk_ndarray (length th) (Z.to_nat K) (fun _ _ => inject_Z (Z.of_nat (length th))).

Definition batch_size_model : Model Q bool :=
  mk_Model "normal" None batch_size_sim_batch.

(** A model of a family that has no bound class. *)
Definition unknown_model : Model Q bool := mk_Model "poisson" None ex_sim_batch.

Definition unknown_model_type : ModelType Q bool := fun _ _ _ => unknown_model.

(** The tiles of [ex_df] in a frame without the column K. *)
Definition no_K_df : DataFrame Q Q bool := mk_df false (rows ex_df).

(** A frame with the column K and no rows, and a caller that holds a grid
    with that frame. *)
Definition empty_df : DataFrame Q Q bool := mk_df true [].

Definition empty_world : world Q Q bool := mk_world [mk_Grid empty_df] [] [].

(** The row of statistics of a tile under [ex_model]. *)
Definition ex_rowf (K : Z) (theta : Q) (nt : bool) : list Q :=
  map (fun j => (theta + inject_Z (Z.of_nat j))%Q) (seq 0 (Z.to_nat K)).

(** Five statistics of one tile, unsorted. *)
Definition ex_row : list Q := [3 # 1; 1 # 1; 5 # 1; 2 # 1; 4 # 1].

(** * Properties *)

(** ** Clopper-Pearson at the boundary *)

Section ClopperPearsonBoundary.

Variable betaincinv : Z -> Z -> Q -> option Q.

(** The library's behaviour that [clopper_pearson] documents: "If
    typeI_sum == K, we get nan", the second shape parameter being 0. *)
Hypothesis betaincinv_nan : forall a y, betaincinv a 0 y = None.

(** C2: for every K >= 1 and every delta in (0,1), [clopper_pearson] at
    [tie_sum = K] returns 0; and wherever the formula is not a number, 0 is
    substituted. *)
Theorem clopper_pearson_boundary :
  forall (K : Z) (delta : Q),
    1 <= K -> (0 < delta)%Q -> (delta < 1)%Q ->
    clopper_pearson betaincinv K K delta = 0%Q /\
    (forall tie_sum : Z,
       betaincinv (tie_sum + 1) (K - tie_sum) (1 - delta)%Q = None ->
       clopper_pearson betaincinv tie_sum K delta = 0%Q).
Proof.
  intros K delta _ _ _. split.
  - unfold clopper_pearson.
    rewrite Z.sub_diag, betaincinv_nan. reflexivity.
  - intros tie_sum Hnan. unfold clopper_pearson.
    rewrite Hnan. reflexivity.
Qed.

End ClopperPearsonBoundary.

Lemma betaincinv_domain_nan : forall a y, betaincinv_domain a 0 y = None.
Proof.
  intros a y. unfold betaincinv_domain. rewrite Bool.orb_true_r. reflexivity.
Qed.

Lemma clopper_pearson_boundary_witness :
  1 <= 100 /\ (0 < 1 # 100)%Q /\ (1 # 100 < 1)%Q /\
  clopper_pearson betaincinv_domain 100 100 (1 # 100) = 0%Q.
Proof.
  assert (HK : 1 <= 100) by lia.
  assert (H0 : (0 < 1 # 100)%Q) by reflexivity.
  assert (H1 : (1 # 100 < 1)%Q) by reflexivity.
  split; [exact HK | split; [exact H0 | split; [exact H1 |]]].
  exact (proj1 (clopper_pearson_boundary betaincinv_domain betaincinv_domain_nan
                  100 (1 # 100) HK H0 H1)).
Defined.

(** ** The calibration index *)

Lemma jnp_maximum_0_nonneg : forall a : Q, (0 <= jnp_maximum a 0)%Q.
Proof.
  intros a. unfold jnp_maximum.
  destruct (Qle_bool a 0) eqn:E.
  - apply Qle_refl.
  - destruct (Qlt_le_dec 0 a) as [H | H].
    + apply Qlt_le_weak. exact H.
    + apply Qle_bool_iff in H. congruence.
Qed.

Lemma jnp_maximum_0_mono :
  forall a b : Q, (a <= b)%Q -> (jnp_maximum a 0 <= jnp_maximum b 0)%Q.
Proof.
  intros a b Hab. unfold jnp_maximum.
  destruct (Qle_bool a 0) eqn:Ea; destruct (Qle_bool b 0) eqn:Eb.
  - apply Qle_refl.
  - destruct (Qlt_le_dec 0 b) as [H | H].
    + apply Qlt_le_weak. exact H.
    + apply Qle_bool_iff in H. congruence.
  - apply Qle_bool_iff in Eb. eapply Qle_trans; eassumption.
  - exact Hab.
Qed.

Lemma jnp_maximum_0_lt_1 :
  forall a : Q, (a < 1)%Q <-> (jnp_maximum a 0 < 1)%Q.
Proof.
  intros a. unfold jnp_maximum.
  destruct (Qle_bool a 0) eqn:E.
  - apply Qle_bool_iff in E. split; intros _.
    + reflexivity.
    + eapply Qle_lt_trans; [exact E | reflexivity].
  - tauto.
Qed.

Lemma calibration_index_floor_bounds :
  forall (K : Z) (m : Q),
    1 <= K -> (0 <= m)%Q ->
    ((m < 1)%Q <-> Qfloor (inject_Z (K + 1) * m) <= K).
Proof.
  intros K m HK Hm.
  assert (Hpos : (0 < inject_Z (K + 1))%Q).
  { change (inject_Z 0 < inject_Z (K + 1))%Q. rewrite <- Zlt_Qlt. lia. }
  split.
  - intros Hlt.
    assert (H : (inject_Z (K + 1) * m < inject_Z (K + 1))%Q).
    { rewrite <- (Qmult_1_r (inject_Z (K + 1))) at 2.
      apply Qmult_lt_l; assumption. }
    pose proof (Qfloor_le (inject_Z (K + 1) * m)) as Hfl.
    assert (Hz : (inject_Z (Qfloor (inject_Z (K + 1) * m)) < inject_Z (K + 1))%Q).
    { eapply Qle_lt_trans; eassumption. }
    rewrite <- Zlt_Qlt in Hz. lia.
  - intros Hfl.
    destruct (Qlt_le_dec m 1) as [H | H]; [exact H | exfalso].
    assert (Hge : (inject_Z (K + 1) <= inject_Z (K + 1) * m)%Q).
    { rewrite <- (Qmult_1_r (inject_Z (K + 1))) at 1.
      apply Qmult_le_l; assumption. }
    apply Qfloor_resp_le in Hge. rewrite Qfloor_Z in Hge. lia.
Qed.

Lemma calibration_index_mono :
  forall (K : Z) (a b : Q),
    1 <= K -> (a <= b)%Q -> _calibration_index K a <= _calibration_index K b.
Proof.
  intros K a b HK Hab. unfold _calibration_index.
  assert (Hpos : (0 <= inject_Z (K + 1))%Q).
  { change (inject_Z 0 <= inject_Z (K + 1))%Q. rewrite <- Zle_Qle. lia. }
  apply Z.max_le_compat_r. apply Z.sub_le_mono_r.
  apply Qfloor_resp_le.
  rewrite !(Qmult_comm (inject_Z (K + 1))).
  apply Qmult_le_compat_r; [apply jnp_maximum_0_mono; exact Hab | exact Hpos].
Qed.

Lemma calibration_index_zero : forall K : Z, _calibration_index K 0 = 0.
Proof.
  intros K. unfold _calibration_index.
  replace (jnp_maximum 0 0) with (inject_Z 0) by reflexivity.
  rewrite <- inject_Z_mult, Qfloor_Z. lia.
Qed.

Lemma calibration_index_nonneg : forall (K : Z) (a : Q), 0 <= _calibration_index K a.
Proof. intros K a. unfold _calibration_index. lia. Qed.

Lemma calibration_index_le_iff :
  forall (K : Z) (a : Q),
    1 <= K -> ((a < 1)%Q <-> _calibration_index K a <= K - 1).
Proof.
  intros K a HK. unfold _calibration_index.
  rewrite jnp_maximum_0_lt_1.
  rewrite (calibration_index_floor_bounds K _ HK (jnp_maximum_0_nonneg a)).
  lia.
Qed.

(** C3 (amended): for K >= 1 the calibration index is non-decreasing in
    alpha and is 0 at alpha = 0; it stays at or below K-1 exactly for the
    levels alpha < 1. *)
Theorem calibration_index_bounds_monotone :
  forall K : Z,
    1 <= K ->
    (forall a b : Q, (a <= b)%Q -> _calibration_index K a <= _calibration_index K b) /\
    _calibration_index K 0 = 0 /\
    (forall a : Q, (a < 1)%Q <-> _calibration_index K a <= K - 1).
Proof.
  intros K HK. split; [| split].
  - intros a b Hab. apply calibration_index_mono; assumption.
  - apply calibration_index_zero.
  - intros a. apply calibration_index_le_iff. exact HK.
Qed.

Lemma calibration_index_bounds_monotone_witness :
  _calibration_index 10 (3 # 10) <= _calibration_index 10 (1 # 2) /\
  _calibration_index 10 (3 # 10) <= 10 - 1.
Proof.
  destruct (calibration_index_bounds_monotone 10 ltac:(lia)) as (Hmono & _ & Hlt).
  split.
  - apply Hmono. discriminate.
  - apply Hlt. reflexivity.
Defined.

(** C3 as stated fails: at alpha = 1 the index is K, above K-1. *)
Lemma calibration_index_exceeds_at_one :
  _calibration_index 10 1 = 10 /\
  ~ (forall (K : Z) (alpha : Q), 1 <= K -> _calibration_index K alpha <= K - 1).
Proof.
  split.
  - reflexivity.
  - intros H. specialize (H 10 1%Q ltac:(lia)).
    vm_compute in H. apply H. reflexivity.
Qed.

(** ** Selection of the order statistic *)

Lemma jax_getitem_in_range :
  forall (A : Type) (a : list A) (i : Z),
    0 <= i < Z.of_nat (length a) ->
    jax_getitem a i = nth_error a (Z.to_nat i).
Proof.
  intros A a i Hi. unfold jax_getitem.
  destruct (Z.ltb_spec i 0) as [H | H]; [lia |].
  f_equal. f_equal. lia.
Qed.

(** An index at or above the length reads the last position. *)
Lemma jax_getitem_clamp :
  forall (A : Type) (a : list A) (i : Z),
    0 <= i ->
    jax_getitem a (Z.min i (Z.of_nat (length a) - 1)) = jax_getitem a i.
Proof.
  intros A a i Hi. unfold jax_getitem.
  destruct (Z.ltb_spec i 0) as [H | H]; [lia |].
  destruct (Z.ltb_spec (Z.min i (Z.of_nat (length a) - 1)) 0) as [H' | H'].
  - f_equal. f_equal. lia.
  - f_equal. f_equal. lia.
Qed.

Lemma length_np_arange : forall K : Z, length (np_arange K) = Z.to_nat K.
Proof.
  intros K. unfold np_arange. rewrite length_map, length_seq. reflexivity.
Qed.

Lemma jax_getitem_np_arange :
  forall K i : Z,
    1 <= K -> 0 <= i ->
    jax_getitem (np_arange K) i = Some (Z.min i (K - 1)).
Proof.
  intros K i HK Hi. unfold jax_getitem.
  rewrite length_np_arange.
  destruct (Z.ltb_spec i 0) as [H | H]; [lia |].
  unfold np_arange. rewrite nth_error_map, nth_error_seq.
  destruct (Nat.ltb_spec (Z.to_nat (Z.min (Z.max i 0) (Z.of_nat (Z.to_nat K) - 1)))
              (Z.to_nat K)) as [Hlt | Hge]; [| lia].
  simpl. f_equal. lia.
Qed.

(** With [sorted_order = np.arange(K)] the threshold is the entry of the
    sorted row at the calibration index. *)
Lemma calc_calibration_threshold_arange :
  forall (sorted_stats : list Q) (alpha : Q),
    sorted_stats <> [] ->
    calc_calibration_threshold sorted_stats
      (np_arange (Z.of_nat (length sorted_stats))) alpha =
    jax_getitem sorted_stats
      (_calibration_index (Z.of_nat (length sorted_stats)) alpha).
Proof.
  intros sorted_stats alpha Hne. unfold calc_calibration_threshold.
  assert (HK : 1 <= Z.of_nat (length sorted_stats)).
  { destruct sorted_stats; [congruence | simpl length; lia]. }
  rewrite (jax_getitem_np_arange _ _ HK (calibration_index_nonneg _ _)).
  apply jax_getitem_clamp. apply calibration_index_nonneg.
Qed.

Lemma sort_insert_perm :
  forall (x : Q) (l : list Q), Permutation (x :: l) (sort_insert x l).
Proof.
  intros x l. induction l as [| y t IH]; simpl.
  - apply Permutation_refl.
  - destruct (Qle_bool x y).
    + apply Permutation_refl.
    + etransitivity; [apply perm_swap |]. constructor. exact IH.
Qed.

Lemma sort_insert_sorted :
  forall (x : Q) (l : list Q), Sorted Qle l -> Sorted Qle (sort_insert x l).
Proof.
  intros x l H. induction H as [| y t Ht IH Hhd]; simpl.
  - repeat constructor.
  - destruct (Qle_bool x y) eqn:E.
    + apply Qle_bool_iff in E. repeat constructor; assumption.
    + assert (Hyx : (y <= x)%Q).
      { destruct (Qlt_le_dec x y) as [Hlt | Hle]; [| exact Hle].
        apply Qlt_le_weak in Hlt. apply Qle_bool_iff in Hlt. congruence. }
      constructor; [exact IH |].
      destruct t as [| z t]; simpl.
      * constructor. exact Hyx.
      * destruct (Qle_bool x z); constructor; [exact Hyx |].
        inversion Hhd. assumption.
Qed.

Lemma jnp_sort_row_sorted :
  forall row : list Q, Sorted Qle (jnp_sort_row row).
Proof.
  intros row. induction row as [| x row IH]; simpl.
  - constructor.
  - apply sort_insert_sorted. exact IH.
Qed.

Lemma jnp_sort_row_perm :
  forall row : list Q, Permutation row (jnp_sort_row row).
Proof.
  intros row. induction row as [| x row IH]; simpl.
  - constructor.
  - etransitivity; [| apply sort_insert_perm]. constructor. exact IH.
Qed.

Lemma length_jnp_sort_row :
  forall row : list Q, length (jnp_sort_row row) = length row.
Proof.
  intros row. symmetry. apply Permutation_length. apply jnp_sort_row_perm.
Qed.

Lemma length_array_row : forall a i, length (array_row a i) = shape1 a.
Proof. intros a i. unfold array_row. rewrite length_map, length_seq. reflexivity. Qed.

Lemma length_array_rows : forall a, length (array_rows a) = shape0 a.
Proof. intros a. unfold array_rows. rewrite length_map, length_seq. reflexivity. Qed.

Lemma nth_error_array_rows :
  forall a i, (i < shape0 a)%nat -> nth_error (array_rows a) i = Some (array_row a i).
Proof.
  intros a i Hi. unfold array_rows. rewrite nth_error_map, nth_error_seq.
  destruct (Nat.ltb_spec i (shape0 a)); [reflexivity | lia].
Qed.

Lemma nth_error_combine :
  forall (A B : Type) (l1 : list A) (l2 : list B) (i : nat),
    nth_error (combine l1 l2) i =
    match nth_error l1 i, nth_error l2 i with
    | Some x, Some y => Some (x, y)
    | _, _ => None
    end.
Proof.
  intros A B l1. induction l1 as [| x l1 IH]; intros l2 i.
  - destruct i; reflexivity.
  - destruct l2 as [| y l2].
    + destruct i; simpl; [reflexivity | destruct (nth_error l1 i); reflexivity].
    + destruct i; simpl; [reflexivity | apply IH].
Qed.

Lemma res_mapM_ok :
  forall (A B : Type) (f : A -> res B) (g : A -> B) (l : list A),
    (forall x, In x l -> f x = Ok (g x)) ->
    res_mapM f l = Ok (map g l).
Proof.
  intros A B f g l. induction l as [| x t IH]; intros H.
  - reflexivity.
  - simpl. rewrite (H x (or_introl eq_refl)). simpl.
    rewrite IH by (intros y Hy; apply H; right; exact Hy).
    reflexivity.
Qed.

Lemma jax_getitem_some :
  forall (A : Type) (a : list A) (i : Z),
    a <> [] -> exists v, jax_getitem a i = Some v.
Proof.
  intros A a i Hne. unfold jax_getitem.
  assert (Hlen : (0 < length a)%nat).
  { destruct a; [congruence | simpl; lia]. }
  match goal with
  | |- exists v, nth_error a ?n = Some v =>
      destruct (nth_error a n) as [v |] eqn:E;
      [exists v; reflexivity | apply nth_error_None in E; lia]
  end.
Qed.

Lemma jax_getitem_nil :
  forall (A : Type) (i : Z), jax_getitem (@nil A) i = None.
Proof.
  intros A i. unfold jax_getitem.
  destruct (Z.to_nat _); reflexivity.
Qed.

Lemma nth_error_jnp_sort :
  forall (stats : ndarray) (i : nat),
    (i < shape0 stats)%nat ->
    nth_error (jnp_sort stats) i = Some (jnp_sort_row (array_row stats i)).
Proof.
  intros stats i Hi. unfold jnp_sort.
  rewrite nth_error_map, nth_error_array_rows by exact Hi. reflexivity.
Qed.

Lemma in_jnp_sort_length :
  forall (stats : ndarray) (row : list Q),
    In row (jnp_sort stats) -> length row = shape1 stats.
Proof.
  intros stats row Hin. unfold jnp_sort, array_rows in Hin.
  rewrite map_map in Hin. apply in_map_iff in Hin.
  destruct Hin as (i & <- & _).
  rewrite length_jnp_sort_row. apply length_array_row.
Qed.

Lemma calibratev_ok :
  forall (stats : ndarray) (alpha0 : list Q) (K : Z),
    1 <= K -> Z.of_nat (shape1 stats) = K ->
    calibratev (jnp_sort stats) (np_arange K) alpha0 =
    Ok (map (selected_threshold K) (combine (jnp_sort stats) alpha0)).
Proof.
  intros stats alpha0 K HK Hshape. unfold calibratev.
  apply res_mapM_ok. intros [row a] Hin.
  apply in_combine_l in Hin. apply in_jnp_sort_length in Hin.
  assert (Hne : row <> []).
  { intros ->. simpl in Hin. lia. }
  unfold selected_threshold. simpl fst. simpl snd.
  replace K with (Z.of_nat (length row)) by (rewrite Hin; exact Hshape).
  rewrite (calc_calibration_threshold_arange row a Hne).
  destruct (jax_getitem_some _ row (_calibration_index (Z.of_nat (length row)) a) Hne)
    as (v & ->).
  reflexivity.
Qed.

(** C4: calibration selects, for each tile, the entry of its ascending
    sorted statistics at the calibration index
    [max(floor((K+1) * max(alpha0, 0)) - 1, 0)]; for K = 10 and
    alpha0 = 0.3 the index is 2 and the threshold selected from
    [0.1, ..., 1.0] is 0.3. *)
Theorem order_statistic_selection :
  (forall (stats : ndarray) (alpha0 : list Q) (K : Z),
     1 <= K -> Z.of_nat (shape1 stats) = K -> length alpha0 = shape0 stats ->
     exists lams : list Q,
       calibratev (jnp_sort stats) (np_arange K) alpha0 = Ok lams /\
       length lams = shape0 stats /\
       forall (i : nat) (a : Q),
         nth_error alpha0 i = Some a ->
         let sorted := jnp_sort_row (array_row stats i) in
         let idx := Z.max (Qfloor (inject_Z (K + 1) * jnp_maximum a 0) - 1) 0 in
         Sorted Qle sorted /\
         Permutation (array_row stats i) sorted /\
         nth_error lams i = jax_getitem sorted idx /\
         ((a < 1)%Q -> nth_error lams i = nth_error sorted (Z.to_nat idx))) /\
  _calibration_index 10 (3 # 10) = 2 /\
  calc_calibration_threshold
    [1 # 10; 2 # 10; 3 # 10; 4 # 10; 5 # 10; 6 # 10; 7 # 10; 8 # 10; 9 # 10; 10 # 10]
    (np_arange 10) (3 # 10) = Some (3 # 10).
Proof.
  split; [| split; reflexivity].
  intros stats alpha0 K HK Hshape Hlen.
  exists (map (selected_threshold K) (combine (jnp_sort stats) alpha0)).
  split; [apply calibratev_ok; assumption |].
  split.
  { rewrite length_map, length_combine. unfold jnp_sort.
    rewrite length_map, length_array_rows. lia. }
  intros i a Ha sorted idx.
  assert (Hi : (i < shape0 stats)%nat).
  { rewrite <- Hlen. apply nth_error_Some. congruence. }
  assert (Hsel : nth_error (map (selected_threshold K) (combine (jnp_sort stats) alpha0)) i
                 = jax_getitem sorted idx).
  { rewrite nth_error_map, nth_error_combine, (nth_error_jnp_sort stats i Hi), Ha.
    simpl. unfold selected_threshold. simpl fst. simpl snd.
    fold sorted. change (_calibration_index K a) with idx.
    assert (Hne : sorted <> []).
    { intros E. apply (f_equal (@length Q)) in E. unfold sorted in E.
      rewrite length_jnp_sort_row, length_array_row in E. simpl in E. lia. }
    destruct (jax_getitem_some _ sorted idx Hne) as (v & ->). reflexivity. }
  split; [apply jnp_sort_row_sorted |].
  split; [apply jnp_sort_row_perm |].
  split; [exact Hsel |].
  intros Hlt. rewrite Hsel. apply jax_getitem_in_range.
  assert (Hl : Z.of_nat (length sorted) = K).
  { unfold sorted. rewrite length_jnp_sort_row, length_array_row. exact Hshape. }
  rewrite Hl.
  pose proof (calibration_index_nonneg K a) as Hnn.
  apply (calibration_index_le_iff K a HK) in Hlt.
  unfold _calibration_index in Hnn, Hlt. unfold idx. lia.
Qed.

Lemma order_statistic_selection_witness :
  exists lams : list Q,
    calibratev (jnp_sort stats_2x3) (np_arange 3) [1 # 2; 3 # 4] = Ok lams /\
    length lams = 2%nat.
Proof.
  destruct (proj1 order_statistic_selection stats_2x3 [1 # 2; 3 # 4] 3
              ltac:(lia) eq_refl eq_refl) as (lams & Hl & Hn & _).
  exists lams. split; [exact Hl | exact Hn].
Defined.

(** ** Computations of the driver: results and invocations *)

Section DriverMonad.

Context {L : Type}.

Lemma fst_bind :
  forall (A B : Type) (c : D L A) (k : A -> D L B),
    fst (bind c k) = res_bind (fst c) (fun a => fst (k a)).
Proof. intros A B [[a | e] n] k; reflexivity. Qed.

Lemma snd_bind :
  forall (A B : Type) (c : D L A) (k : A -> D L B),
    snd (bind c k) =
    snd c ++ match fst c with Ok a => snd (k a) | Raise _ => [] end.
Proof.
  intros A B [[a | e] n] k; simpl.
  - reflexivity.
  - rewrite app_nil_r. reflexivity.
Qed.

Lemma fst_mapM :
  forall (A B : Type) (f : A -> D L B) (l : list A),
    fst (mapM f l) = res_mapM (fun x => fst (f x)) l.
Proof.
  intros A B f l. induction l as [| x t IH].
  - reflexivity.
  - simpl mapM. rewrite fst_bind. simpl res_mapM.
    destruct (fst (f x)) as [y | e]; simpl; [| reflexivity].
    rewrite fst_bind, IH.
    destruct (res_mapM (fun x0 => fst (f x0)) t); reflexivity.
Qed.

(** A property of all invocations of a computation is kept by sequencing. *)
Lemma Forall_snd_bind :
  forall (P : L -> Prop) (A B : Type) (c : D L A) (k : A -> D L B),
    Forall P (snd c) -> (forall a, Forall P (snd (k a))) ->
    Forall P (snd (bind c k)).
Proof.
  intros P A B c k Hc Hk. rewrite snd_bind. apply Forall_app. split.
  - exact Hc.
  - destruct (fst c); [apply Hk | constructor].
Qed.

Lemma Forall_snd_mapM :
  forall (P : L -> Prop) (A B : Type) (f : A -> D L B) (l : list A),
    (forall x, Forall P (snd (f x))) -> Forall P (snd (mapM f l)).
Proof.
  intros P A B f l Hf. induction l as [| x t IH].
  - constructor.
  - simpl mapM. apply Forall_snd_bind; [apply Hf |].
    intros y. apply Forall_snd_bind; [exact IH |].
    intros ys. constructor.
Qed.

Lemma Forall_snd_batch :
  forall (P : L -> Prop) (A B C O : Type) (cat : list O -> O)
         (f : Z -> list A -> list B -> list C -> D L O) (bs : nat) (K : Z)
         (a : list A) (b : list B) (c : list C),
    (forall a' b' c', Forall P (snd (f K a' b' c'))) ->
    Forall P (snd (batch cat f bs K a b c)).
Proof.
  intros P A B C O cat f bs K a b c Hf. unfold batch.
  apply Forall_snd_bind.
  - apply Forall_snd_mapM. intros r. apply Hf.
  - intros outs. constructor.
Qed.

End DriverMonad.

(** ** The seed offset of every invocation *)

Section SeedOffset.

Context {Theta Vertices NullTruth : Type}.
Variable betaincinv : Z -> Z -> Q -> option Q.

Local Abbreviation Driver := (Driver Theta Vertices NullTruth).
Local Abbreviation DataFrame := (DataFrame Theta Vertices NullTruth).
Local Abbreviation call := (call Theta NullTruth).

Lemma groupby_apply_K_calls :
  forall (P : call -> Prop) (R : Type) (d : DataFrame)
         (f : Z -> DataFrame -> D call (pyobj R)),
    (forall K K_df, Forall P (snd (f K K_df))) ->
    Forall P (snd (_groupby_apply_K d f)).
Proof.
  intros P R d f Hf. unfold _groupby_apply_K.
  apply Forall_snd_bind; [constructor |]. intros groups.
  apply Forall_snd_bind; [apply Forall_snd_mapM; intros g; apply Hf |].
  intros out. apply Forall_snd_bind; constructor.
Qed.

Lemma stats_f_seed_offset :
  forall (self : Driver) (K : Z) (K_df : DataFrame),
    Forall seed_offset_is_0 (snd (stats_f self K K_df)).
Proof.
  intros self K K_df. unfold stats_f.
  apply Forall_snd_bind; [constructor |]. intros K'.
  apply Forall_snd_bind.
  - repeat constructor.
  - intros stats. apply Forall_snd_bind; constructor.
Qed.

Lemma validate__batched_seed_offset :
  forall (self : Driver) (lam delta : Q) (K : Z) th v nt,
    Forall seed_offset_is_0
      (snd (validate__batched betaincinv self lam delta K th v nt)).
Proof.
  intros. unfold validate__batched.
  apply Forall_snd_bind.
  - repeat constructor.
  - intros stats. apply Forall_snd_bind; constructor.
Qed.

Lemma calibrate__batched_seed_offset :
  forall (self : Driver) (alpha : Q) (K : Z) th v nt,
    Forall seed_offset_is_0 (snd (calibrate__batched self alpha K th v nt)).
Proof.
  intros. unfold calibrate__batched.
  apply Forall_snd_bind.
  - repeat constructor.
  - intros stats. apply Forall_snd_bind; [constructor |].
    intros u. apply Forall_snd_bind; constructor.
Qed.

(** C10: every invocation of [sim_batch] made by [Driver.stats],
    [Driver.validate] and [Driver.calibrate], in every group and every
    sub-batch, passes the seed offset 0. *)
Theorem seed_offset_constant :
  forall (self : Driver) (d : DataFrame) (lam delta alpha : Q),
    Forall seed_offset_is_0 (snd (Driver_stats self d)) /\
    Forall seed_offset_is_0 (snd (Driver_validate betaincinv self d lam delta)) /\
    Forall seed_offset_is_0 (snd (Driver_calibrate self d alpha)).
Proof.
  intros self d lam delta alpha. split; [| split].
  - unfold Driver_stats. apply groupby_apply_K_calls.
    intros K K_df. apply stats_f_seed_offset.
  - unfold Driver_validate. apply Forall_snd_bind.
    + apply groupby_apply_K_calls. intros K K_df. unfold validate_f.
      apply Forall_snd_bind.
      * apply Forall_snd_batch. intros. apply validate__batched_seed_offset.
      * intros o. apply Forall_snd_bind; constructor.
    + intros out. apply Forall_snd_bind; constructor.
  - unfold Driver_calibrate. apply Forall_snd_bind.
    + apply groupby_apply_K_calls. intros K K_df. unfold calibrate_f.
      apply Forall_snd_bind.
      * apply Forall_snd_batch. intros. apply calibrate__batched_seed_offset.
      * intros o. apply Forall_snd_bind; [constructor |].
        intros o1. apply Forall_snd_bind; constructor.
    + intros out. apply Forall_snd_bind; [constructor |].
      intros Ks. apply Forall_snd_bind; [constructor |].
      intros idx. apply Forall_snd_bind; constructor.
Qed.

End SeedOffset.

(** ** The shape-mismatch contract *)

Section ShapeMismatch.

Context {Theta Vertices NullTruth : Type}.
Variable betaincinv : Z -> Z -> Q -> option Q.

Local Abbreviation Driver := (Driver Theta Vertices NullTruth).
Local Abbreviation DataFrame := (DataFrame Theta Vertices NullTruth).
Local Abbreviation Model := (Model Theta NullTruth).
Local Abbreviation call := (call Theta NullTruth).

Lemma raises_on_mismatch_quiet :
  forall (m : Model) (A : Type) (c : D call A),
    snd c = [] -> raises_on_mismatch m c.
Proof. intros m A c Hc x Hin. rewrite Hc in Hin. destruct Hin. Qed.

Lemma raises_on_mismatch_bind :
  forall (m : Model) (A B : Type) (c : D call A) (k : A -> D call B),
    raises_on_mismatch m c -> (forall a, raises_on_mismatch m (k a)) ->
    raises_on_mismatch m (bind c k).
Proof.
  intros m A B c k Hc Hk x Hin Hbad.
  rewrite snd_bind in Hin. rewrite fst_bind.
  apply in_app_or in Hin. destruct Hin as [Hin | Hin].
  - destruct (Hc x Hin Hbad) as (e & -> & He). exists e. split; [reflexivity | exact He].
  - destruct (fst c) as [a | e]; [| destruct Hin].
    simpl. exact (Hk a x Hin Hbad).
Qed.

Lemma raises_on_mismatch_mapM :
  forall (m : Model) (A B : Type) (f : A -> D call B) (l : list A),
    (forall x, raises_on_mismatch m (f x)) -> raises_on_mismatch m (mapM f l).
Proof.
  intros m A B f l Hf. induction l as [| x t IH].
  - apply raises_on_mismatch_quiet. reflexivity.
  - simpl mapM. apply raises_on_mismatch_bind; [apply Hf |].
    intros y. apply raises_on_mismatch_bind; [exact IH |].
    intros ys. apply raises_on_mismatch_quiet. reflexivity.
Qed.

(** The step that every sub-batch starts with: simulate, then check. *)
Lemma raises_on_mismatch_checked :
  forall (m : Model) (A : Type) (so K : Z) (th : list Theta) (nt : list NullTruth)
         (k : ndarray -> D call A),
    (forall stats, raises_on_mismatch m (k stats)) ->
    raises_on_mismatch m
      (stats <- call_sim_batch m so K th nt ;;
       _ <- lift (_check_stats stats K th) ;;
       k stats).
Proof.
  intros m A so K th nt k Hk x Hin Hbad.
  rewrite snd_bind in Hin. rewrite fst_bind. simpl in Hin |- *.
  rewrite fst_bind. simpl fst at 1.
  unfold _check_stats in *.
  destruct Hin as [<- | Hin].
  - unfold shape_matches in Hbad. simpl in Hbad.
    destruct (shape0 (sim_batch m so K th nt) =? length th)%nat; simpl in *.
    + rewrite Hbad. simpl. eexists. split; reflexivity.
    + eexists. split; reflexivity.
  - rewrite snd_bind in Hin. simpl in Hin.
    destruct (negb (shape0 (sim_batch m so K th nt) =? length th)%nat);
      simpl in *; [destruct Hin |].
    destruct (negb (Z.of_nat (shape1 (sim_batch m so K th nt)) =? K));
      simpl in *; [destruct Hin |].
    exact (Hk _ x Hin Hbad).
Qed.

Lemma raises_on_mismatch_groupby :
  forall (m : Model) (R : Type) (d : DataFrame)
         (f : Z -> DataFrame -> D call (pyobj R)),
    (forall K K_df, raises_on_mismatch m (f K K_df)) ->
    raises_on_mismatch m (_groupby_apply_K d f).
Proof.
  intros m R d f Hf. unfold _groupby_apply_K.
  apply raises_on_mismatch_bind; [apply raises_on_mismatch_quiet; reflexivity |].
  intros groups. apply raises_on_mismatch_bind.
  - apply raises_on_mismatch_mapM. intros g. apply Hf.
  - intros out. apply raises_on_mismatch_bind;
      [| intros all]; apply raises_on_mismatch_quiet; reflexivity.
Qed.

Lemma raises_on_mismatch_batch :
  forall (m : Model) (A B O : Type) (cat : list O -> O)
         (f : Z -> list Theta -> list A -> list B -> D call O) (bs : nat) (K : Z)
         (a : list Theta) (b : list A) (c : list B),
    (forall a' b' c', raises_on_mismatch m (f K a' b' c')) ->
    raises_on_mismatch m (batch cat f bs K a b c).
Proof.
  intros m A B O cat f bs K a b c Hf. unfold batch.
  apply raises_on_mismatch_bind.
  - apply raises_on_mismatch_mapM. intros r. apply Hf.
  - intros outs. apply raises_on_mismatch_quiet. reflexivity.
Qed.

(** C6: when the simulation model returns, at any invocation, a matrix
    whose first dimension differs from the number of requested tiles or
    whose second dimension differs from K, [Driver.validate] and
    [Driver.calibrate] raise the shape-mismatch error: no frame is
    returned. *)
Theorem shape_mismatch_contract :
  forall (self : Driver) (d : DataFrame) (lam delta alpha : Q) (x : call),
    shape_matches (model self) x = false ->
    (In x (snd (Driver_validate betaincinv self d lam delta)) ->
     exists e, fst (Driver_validate betaincinv self d lam delta) = Raise e /\
               is_shape_mismatch e = true) /\
    (In x (snd (Driver_calibrate self d alpha)) ->
     exists e, fst (Driver_calibrate self d alpha) = Raise e /\
               is_shape_mismatch e = true).
Proof.
  intros self d lam delta alpha x Hbad. split; intros Hin.
  - revert x Hin Hbad.
    change (raises_on_mismatch (model self) (Driver_validate betaincinv self d lam delta)).
    unfold Driver_validate. apply raises_on_mismatch_bind.
    + apply raises_on_mismatch_groupby. intros K K_df. unfold validate_f.
      apply raises_on_mismatch_bind.
      * apply raises_on_mismatch_batch. intros th v nt. unfold validate__batched.
        apply raises_on_mismatch_checked.
        intros stats. apply raises_on_mismatch_quiet. reflexivity.
      * intros o. apply raises_on_mismatch_bind;
          [| intros fr]; apply raises_on_mismatch_quiet; reflexivity.
    + intros out. apply raises_on_mismatch_bind;
        [| intros Ks]; apply raises_on_mismatch_quiet; reflexivity.
  - revert x Hin Hbad.
    change (raises_on_mismatch (model self) (Driver_calibrate self d alpha)).
    unfold Driver_calibrate. apply raises_on_mismatch_bind.
    + apply raises_on_mismatch_groupby. intros K K_df. unfold calibrate_f.
      apply raises_on_mismatch_bind.
      * apply raises_on_mismatch_batch. intros th v nt. unfold calibrate__batched.
        apply raises_on_mismatch_checked.
        intros stats. apply raises_on_mismatch_bind;
          [| intros u]; apply raises_on_mismatch_quiet; reflexivity.
      * intros o. apply raises_on_mismatch_bind;
          [apply raises_on_mismatch_quiet; reflexivity |].
        intros o1. apply raises_on_mismatch_bind;
          [| intros o2]; apply raises_on_mismatch_quiet; reflexivity.
    + intros out. apply raises_on_mismatch_bind;
        [apply raises_on_mismatch_quiet; reflexivity |].
      intros Ks. apply raises_on_mismatch_bind;
        [apply raises_on_mismatch_quiet; reflexivity |].
      intros idx. apply raises_on_mismatch_bind;
        [| intros o]; apply raises_on_mismatch_quiet; reflexivity.
Qed.

End ShapeMismatch.

(** ** The tie count *)

Lemma Qltb_lt : forall x y : Q, Qltb x y = true <-> (x < y)%Q.
Proof.
  intros x y. unfold Qltb. rewrite Bool.negb_true_iff.
  split.
  - intros H. apply Qnot_le_lt. intros Hle.
    apply Qle_bool_iff in Hle. congruence.
  - intros H. destruct (Qle_bool y x) eqn:E; [| reflexivity].
    apply Qle_bool_iff in E. exfalso. apply (Qlt_not_le _ _ H E).
Qed.

Lemma check_stats_ok :
  forall (Theta : Type) (stats : ndarray) (K : Z) (th : list Theta),
    shape0 stats = length th -> Z.of_nat (shape1 stats) = K ->
    _check_stats stats K th = Ok tt.
Proof.
  intros Theta stats K th H0 H1. unfold _check_stats.
  rewrite H0, Nat.eqb_refl. simpl.
  rewrite H1, Z.eqb_refl. reflexivity.
Qed.

Section TieCount.

Context {Theta Vertices NullTruth : Type}.
Variable betaincinv : Z -> Z -> Q -> option Q.

Local Abbreviation Driver := (Driver Theta Vertices NullTruth).

(** C9: for a sub-batch whose statistics have the requested shape,
    [validate] returns for every tile [i] the number [tie_sum[i]] of its K
    statistics strictly below [lam], an integer in [0, K], and
    [tie_est[i] = tie_sum[i] / K]. *)
Theorem tie_count_definition :
  forall (self : Driver) (lam delta : Q) (K : Z)
         (th : list Theta) (v : list Vertices) (nt : list NullTruth),
    let stats := sim_batch (model self) 0 K th nt in
    shape0 stats = length th -> Z.of_nat (shape1 stats) = K ->
    exists (tie_sum : list Z) (tie_est tie_cp_bound tie_bound : list Q),
      fst (validate__batched betaincinv self lam delta K th v nt) =
        Ok (tie_sum, tie_est, tie_cp_bound, tie_bound) /\
      length tie_sum = length th /\
      length tie_est = length th /\
      forall i : nat,
        (i < length th)%nat ->
        exists s : Z,
          nth_error tie_sum i = Some s /\
          s = Z.of_nat (length (filter (fun x => Qltb x lam) (array_row stats i))) /\
          (forall x, In x (filter (fun x => Qltb x lam) (array_row stats i)) <->
                     In x (array_row stats i) /\ (x < lam)%Q) /\
          length (array_row stats i) = Z.to_nat K /\
          0 <= s <= K /\
          nth_error tie_est i = Some (inject_Z s / inject_Z K)%Q.
Proof.
  intros self lam delta K th v nt stats Hs0 Hs1.
  unfold validate__batched.
  rewrite fst_bind. simpl fst at 1. simpl res_bind.
  rewrite fst_bind. simpl fst at 1.
  fold stats. rewrite (check_stats_ok _ stats K th Hs0 Hs1). simpl res_bind.
  simpl fst.
  do 4 eexists. split; [reflexivity |].
  assert (Hlen : length (jnp_sum_lt stats lam) = length th).
  { unfold jnp_sum_lt. rewrite length_map, length_array_rows. exact Hs0. }
  split; [exact Hlen |].
  split; [rewrite length_map; exact Hlen |].
  intros i Hi.
  exists (Z.of_nat (length (filter (fun x => Qltb x lam) (array_row stats i)))).
  assert (Hnth : nth_error (jnp_sum_lt stats lam) i =
                 Some (Z.of_nat (length (filter (fun x => Qltb x lam) (array_row stats i))))).
  { unfold jnp_sum_lt. rewrite nth_error_map, nth_error_array_rows by lia.
    reflexivity. }
  split; [exact Hnth |].
  split; [reflexivity |].
  split.
  { intros x. rewrite filter_In, Qltb_lt. reflexivity. }
  split.
  { rewrite length_array_row. lia. }
  split.
  { pose proof (filter_length_le (fun x => Qltb x lam) (array_row stats i)) as Hle.
    rewrite length_array_row in Hle. lia. }
  rewrite nth_error_map, Hnth. reflexivity.
Qed.

End TieCount.

(** ** Slices and index ranges *)

Section Slices.

Lemma combine_skipn :
  forall (A B : Type) (l : list A) (l' : list B) (n : nat),
    skipn n (combine l l') = combine (skipn n l) (skipn n l').
Proof.
  intros A B l. induction l as [| x l IH]; intros l' n.
  - destruct n; reflexivity.
  - destruct l' as [| y l'].
    + destruct n; simpl; [reflexivity |].
      destruct (skipn n l); reflexivity.
    + destruct n; simpl; [reflexivity | apply IH].
Qed.

Lemma slice_map :
  forall (A B : Type) (f : A -> B) (l : list A) (r : nat * nat),
    slice (map f l) r = map f (slice l r).
Proof.
  intros A B f l r. unfold slice. rewrite skipn_map, firstn_map. reflexivity.
Qed.

Lemma slice_combine :
  forall (A B : Type) (l : list A) (l' : list B) (r : nat * nat),
    slice (combine l l') r = combine (slice l r) (slice l' r).
Proof.
  intros A B l l' r. unfold slice. rewrite combine_skipn, combine_firstn.
  reflexivity.
Qed.

Lemma vmap3_combine :
  forall (A B C E : Type) (f : A -> B -> C -> E)
         (a : list A) (b : list B) (c : list C),
    vmap3 f a b c =
    map (fun p => f (fst p) (fst (snd p)) (snd (snd p))) (combine a (combine b c)).
Proof.
  intros A B C E f a. induction a as [| x a IH]; intros b c.
  - reflexivity.
  - destruct b as [| y b]; [reflexivity |].
    destruct c as [| z c]; [reflexivity |].
    simpl. rewrite IH. reflexivity.
Qed.

Lemma slice_vmap3 :
  forall (A B C E : Type) (f : A -> B -> C -> E)
         (a : list A) (b : list B) (c : list C) (r : nat * nat),
    slice (vmap3 f a b c) r = vmap3 f (slice a r) (slice b r) (slice c r).
Proof.
  intros. rewrite !vmap3_combine, slice_map, !slice_combine. reflexivity.
Qed.

Lemma length_vmap3 :
  forall (A B C E : Type) (f : A -> B -> C -> E)
         (a : list A) (b : list B) (c : list C),
    length b = length a -> length c = length a ->
    length (vmap3 f a b c) = length a.
Proof.
  intros A B C E f a b c Hb Hc.
  rewrite vmap3_combine, length_map, !length_combine. lia.
Qed.

Lemma length_slice :
  forall (A : Type) (l : list A) (r : nat * nat),
    (snd r <= length l)%nat -> length (slice l r) = (snd r - fst r)%nat.
Proof.
  intros A l r Hr. unfold slice. rewrite length_firstn, length_skipn. lia.
Qed.

(** The ranges start where the previous one stops, are not empty and stay
    within the dimension. *)
Lemma batch_ranges_bounds :
  forall (bs dim fuel start : nat) (r : nat * nat),
    (0 < bs)%nat ->
    In r (batch_ranges fuel bs start dim) ->
    (start <= fst r /\ fst r < snd r /\ snd r <= dim /\ snd r - fst r <= bs)%nat.
Proof.
  intros bs dim fuel. induction fuel as [| fuel IH]; intros start r Hbs Hin.
  - destruct Hin.
  - simpl in Hin. destruct (Nat.leb_spec dim start) as [Hle | Hlt]; [destruct Hin |].
    destruct Hin as [<- | Hin].
    + simpl. lia.
    + apply IH in Hin; [| exact Hbs]. lia.
Qed.

(** Concatenating the slices of a list over the ranges gives the list
    back. *)
Lemma concat_slices_from :
  forall (A : Type) (l : list A) (bs fuel start : nat),
    (0 < bs)%nat -> (length l - start <= fuel)%nat ->
    concat (map (slice l) (batch_ranges fuel bs start (length l))) = skipn start l.
Proof.
  intros A l bs fuel. induction fuel as [| fuel IH]; intros start Hbs Hfuel.
  - simpl. symmetry. apply skipn_all2. lia.
  - simpl. destruct (Nat.leb_spec (length l) start) as [Hle | Hlt].
    + simpl. symmetry. apply skipn_all2. exact Hle.
    + simpl. rewrite IH by lia.
      unfold slice. simpl fst. simpl snd.
      set (stop := Nat.min (start + bs) (length l)).
      replace (skipn stop l) with (skipn (stop - start) (skipn start l)).
      * apply firstn_skipn.
      * rewrite skipn_skipn. f_equal. lia.
Qed.

Lemma concat_slices :
  forall (A : Type) (l : list A) (bs dim : nat),
    (0 < bs)%nat -> length l = dim ->
    concat (map (slice l) (batch_ranges dim bs 0 dim)) = l.
Proof.
  intros A l bs dim Hbs <-.
  rewrite concat_slices_from by lia. reflexivity.
Qed.

Lemma concat_slices_ext :
  forall (A : Type) (col : list A) (g : nat * nat -> list A) (bs dim : nat),
    (0 < bs)%nat -> length col = dim ->
    (forall r, g r = slice col r) ->
    concat (map g (batch_ranges dim bs 0 dim)) = col.
Proof.
  intros A col g bs dim Hbs Hlen Hg.
  rewrite (map_ext g (slice col) Hg). apply concat_slices; assumption.
Qed.

Lemma batch_ranges_nonempty :
  forall bs dim : nat,
    (0 < dim)%nat -> batch_ranges dim bs 0 dim <> [].
Proof.
  intros bs dim Hdim. destruct dim as [| dim]; [lia |].
  simpl. discriminate.
Qed.

End Slices.

(** ** Grouping by K and restoring the row order *)

Section GroupKeys.

Lemma insert_key_In :
  forall (k x : Z) (l : list Z), In x (insert_key k l) <-> x = k \/ In x l.
Proof.
  intros k x l. induction l as [| y t IH]; simpl.
  - intuition.
  - destruct (Z.ltb_spec k y) as [Hlt | Hge]; simpl.
    + intuition.
    + destruct (Z.eqb_spec k y) as [-> | Hne]; simpl.
      * intuition.
      * rewrite IH. intuition.
Qed.

Lemma insert_key_sorted :
  forall (k : Z) (l : list Z),
    StronglySorted Z.lt l -> StronglySorted Z.lt (insert_key k l).
Proof.
  intros k l H. induction H as [| y t Hs IH Hall]; simpl.
  - repeat constructor.
  - destruct (Z.ltb_spec k y) as [Hlt | Hge].
    + constructor; [constructor; assumption |].
      constructor; [exact Hlt |].
      eapply Forall_impl; [| exact Hall]. intros z Hz. simpl in Hz. lia.
    + destruct (Z.eqb_spec k y) as [-> | Hne].
      * constructor; assumption.
      * constructor; [exact IH |].
        apply Forall_forall. intros z Hz. apply insert_key_In in Hz.
        destruct Hz as [-> | Hz]; [lia |].
        rewrite Forall_forall in Hall. apply Hall. exact Hz.
Qed.

Lemma group_keys_sorted : forall ks : list Z, StronglySorted Z.lt (group_keys ks).
Proof.
  intros ks. induction ks as [| k t IH]; simpl.
  - constructor.
  - apply insert_key_sorted. exact IH.
Qed.

Lemma group_keys_In : forall (ks : list Z) (x : Z), In x (group_keys ks) <-> In x ks.
Proof.
  intros ks x. induction ks as [| k t IH]; simpl.
  - reflexivity.
  - rewrite insert_key_In, IH. intuition.
Qed.

Lemma StronglySorted_lt_NoDup : forall l : list Z, StronglySorted Z.lt l -> NoDup l.
Proof.
  intros l H. induction H as [| y t Hs IH Hall]; constructor.
  - intros Hin. rewrite Forall_forall in Hall. specialize (Hall y Hin). lia.
  - exact IH.
Qed.

Lemma group_keys_NoDup : forall ks : list Z, NoDup (group_keys ks).
Proof. intros ks. apply StronglySorted_lt_NoDup, group_keys_sorted. Qed.

(** The groups of a list by a key partition the list. *)
Lemma groups_cons :
  forall (A : Type) (key : A -> Z) (x : A) (l : list A) (keys : list Z),
    NoDup keys ->
    Permutation
      (flat_map (fun k => filter (fun t => key t =? k) (x :: l)) keys)
      ((if in_dec Z.eq_dec (key x) keys then [x] else []) ++
       flat_map (fun k => filter (fun t => key t =? k) l) keys).
Proof.
  intros A key x l keys. induction keys as [| k keys IH]; intros Hnd.
  - simpl. constructor.
  - inversion Hnd as [| ? ? Hnotin Hnd']; subst.
    specialize (IH Hnd'). simpl flat_map.
    destruct (Z.eqb_spec (key x) k) as [E | E].
    + destruct (in_dec Z.eq_dec (key x) (k :: keys)) as [_ | n];
        [| exfalso; apply n; left; symmetry; exact E].
      destruct (in_dec Z.eq_dec (key x) keys) as [i | _];
        [exfalso; rewrite E in i; apply Hnotin; exact i |].
      simpl in IH |- *. constructor.
      apply Permutation_app_head. exact IH.
    + destruct (in_dec Z.eq_dec (key x) (k :: keys)) as [i | n];
        destruct (in_dec Z.eq_dec (key x) keys) as [i' | n'].
      * simpl in IH |- *.
        etransitivity; [apply Permutation_app_head; exact IH |].
        simpl. symmetry. apply Permutation_middle.
      * exfalso. destruct i as [i | i]; [apply E; symmetry; exact i | apply n'; exact i].
      * exfalso. apply n. right. exact i'.
      * simpl in IH |- *. apply Permutation_app_head. exact IH.
Qed.

Lemma groups_partition :
  forall (A : Type) (key : A -> Z) (l : list A) (keys : list Z),
    NoDup keys -> (forall x, In x l -> In (key x) keys) ->
    Permutation (flat_map (fun k => filter (fun t => key t =? k) l) keys) l.
Proof.
  intros A key l keys Hnd. induction l as [| x l IH]; intros Hin.
  - clear. induction keys as [| k keys IHk]; simpl; [constructor | exact IHk].
  - etransitivity; [apply groups_cons; exact Hnd |].
    destruct (in_dec Z.eq_dec (key x) keys) as [_ | n];
      [| exfalso; apply n; apply Hin; left; reflexivity].
    simpl. constructor. apply IH. intros y Hy. apply Hin. right. exact Hy.
Qed.

End GroupKeys.

(** ** Batching transparency *)

Lemma res_mapM_ext_in :
  forall (A B : Type) (f g : A -> res B) (l : list A),
    (forall x, In x l -> f x = g x) -> res_mapM f l = res_mapM g l.
Proof.
  intros A B f g l. induction l as [| x t IH]; intros H.
  - reflexivity.
  - simpl. rewrite (H x (or_introl eq_refl)).
    rewrite IH by (intros y Hy; apply H; right; exact Hy).
    reflexivity.
Qed.

Lemma res_mapM_raise :
  forall (A B : Type) (f : A -> res B) (e : exn) (l : list A),
    l <> [] -> (forall x, In x l -> f x = Raise e) -> res_mapM f l = Raise e.
Proof.
  intros A B f e l Hne H. destruct l as [| x t]; [congruence |].
  simpl. rewrite (H x (or_introl eq_refl)). reflexivity.
Qed.

(** A function of a sub-batch that, when it does not raise an error that
    only depends on [K], returns columns computed tile by tile, gives the
    same result on the whole group and on its sub-batches. *)
Lemma batch_transparent :
  forall (L A B C O : Type) (cat : list O -> O)
         (f : Z -> list A -> list B -> list C -> D L O)
         (chk : res unit) (cols : list A -> list B -> list C -> O)
         (bs : nat) (K : Z) (a : list A) (b : list B) (c : list C),
    (0 < bs)%nat -> a <> [] -> length b = length a -> length c = length a ->
    (forall a' b' c',
        a' <> [] -> length b' = length a' -> length c' = length a' ->
        fst (f K a' b' c') = res_bind chk (fun _ => Ok (cols a' b' c'))) ->
    cat (map (fun r => cols (slice a r) (slice b r) (slice c r))
             (batch_ranges (length a) bs 0 (length a))) = cols a b c ->
    fst (batch cat f bs K a b c) = fst (f K a b c).
Proof.
  intros L A B C O cat f chk cols bs K a b c Hbs Hne Hb Hc Hf Hcat.
  unfold batch. rewrite fst_bind, fst_mapM.
  rewrite (Hf a b c Hne Hb Hc).
  assert (Hlen : (0 < length a)%nat).
  { destruct a; [congruence | simpl; lia]. }
  rewrite (res_mapM_ext_in _ _ _
             (fun r => res_bind chk
                         (fun _ => Ok (cols (slice a r) (slice b r) (slice c r))))).
  - destruct chk as [[] | e]; simpl.
    + rewrite (res_mapM_ok _ _ _
                 (fun r => cols (slice a r) (slice b r) (slice c r)))
        by reflexivity.
      simpl. rewrite Hcat. reflexivity.
    + rewrite (res_mapM_raise _ _ _ e); [reflexivity | | reflexivity].
      apply batch_ranges_nonempty. exact Hlen.
  - intros r Hr. apply (batch_ranges_bounds _ _ _ _ _ Hbs) in Hr.
    apply Hf.
    + intros E. apply (f_equal (@length A)) in E.
      rewrite length_slice in E by lia. simpl in E. lia.
    + rewrite !length_slice by lia. reflexivity.
    + rewrite !length_slice by lia. reflexivity.
Qed.

Section BatchingTransparency.

Context {Theta Vertices NullTruth : Type}.
Variable betaincinv : Z -> Z -> Q -> option Q.
Variable bound : bound_module Theta Vertices.

Local Abbreviation Driver := (Driver Theta Vertices NullTruth).
Local Abbreviation Model := (Model Theta NullTruth).
Local Abbreviation tile := (tile Theta Vertices NullTruth).

Lemma Driver_init_fields :
  forall (m : Model) (bs : nat) (self : Driver),
    Driver_init bound m bs = Ok self ->
    model self = m /\ tile_batch_size self = bs /\
    exists (b : BoundType Theta Vertices) (params : kwargs),
      forward_boundv self = vmap3 (forward b params) /\
      backward_boundv self = vmap3 (backward b params).
Proof.
  intros m bs self H. unfold Driver_init, get_bound in H.
  destruct (find _ (bound_dict bound)) as [e |]; simpl in H; [| discriminate].
  injection H as <-. simpl.
  split; [reflexivity |]. split; [reflexivity |].
  eexists. eexists. split; reflexivity.
Qed.

Section PerTile.

Variable m : Model.
Variable ncol : Z -> nat.
Variable rowf : Z -> Theta -> NullTruth -> list Q.
Hypothesis m_per_tile :
forall (K : Z) (th : list Theta) (nt : list NullTruth),
  length nt = length th ->
  shape0 (sim_batch m 0 K th nt) = length th /\
  shape1 (sim_batch m 0 K th nt) = ncol K /\
  array_rows (sim_batch m 0 K th nt) =
    map (fun p => rowf K (fst p) (snd p)) (combine th nt).

Variable self : Driver.
Variables F G : Q -> Theta -> Vertices -> Q.
Hypothesis self_model : model self = m.
Hypothesis self_forward : forward_boundv self = vmap3 F.
Hypothesis self_backward : backward_boundv self = vmap3 G.

Lemma check_stats_per_tile :
forall (K : Z) (th : list Theta) (nt : list NullTruth),
  length nt = length th ->
  _check_stats (sim_batch m 0 K th nt) K th = check_columns ncol K.
Proof.
intros K th nt Hnt. destruct (m_per_tile K th nt Hnt) as (H0 & H1 & _).
unfold _check_stats, check_columns.
rewrite H0, Nat.eqb_refl, H1. reflexivity.
Qed.

Lemma validate__batched_columns :
forall (lam delta : Q) (K : Z) th v nt,
  length nt = length th ->
  fst (validate__batched betaincinv self lam delta K th v nt) =
  res_bind (check_columns ncol K) (fun _ => Ok (validate_columns betaincinv rowf F lam delta K th v nt)).
Proof.
intros lam delta K th v nt Hnt. unfold validate__batched.
rewrite fst_bind. simpl fst at 1. simpl res_bind.
rewrite fst_bind. simpl fst at 1.
rewrite self_model, (check_stats_per_tile K th nt Hnt).
destruct (check_columns ncol K) as [[] | e]; simpl; [| reflexivity].
unfold validate_columns, jnp_sum_lt.
destruct (m_per_tile K th nt Hnt) as (_ & _ & ->).
rewrite self_forward, map_map. reflexivity.
Qed.

Lemma validate_columns_slices :
forall (lam delta : Q) (K : Z) (bs : nat) th v nt,
  (0 < bs)%nat -> length v = length th -> length nt = length th ->
  cat4 (map (fun r => validate_columns betaincinv rowf F lam delta K (slice th r) (slice v r) (slice nt r))
            (batch_ranges (length th) bs 0 (length th))) =
  validate_columns betaincinv rowf F lam delta K th v nt.
Proof.
intros lam delta K bs th v nt Hbs Hv Hnt.
unfold cat4. rewrite !map_map. unfold validate_columns. simpl.
assert (Hc : length (combine th nt) = length th).
{ rewrite length_combine. lia. }
f_equal; [f_equal; [f_equal |] |].
- apply concat_slices_ext; [exact Hbs | |].
  + rewrite length_map. exact Hc.
  + intros r. rewrite slice_map, slice_combine. reflexivity.
- apply concat_slices_ext; [exact Hbs | |].
  + rewrite !length_map. exact Hc.
  + intros r. rewrite !slice_map, slice_combine. reflexivity.
- apply concat_slices_ext; [exact Hbs | |].
  + rewrite !length_map. exact Hc.
  + intros r. rewrite !slice_map, slice_combine. reflexivity.
- apply concat_slices_ext; [exact Hbs | |].
  + rewrite length_vmap3; rewrite !length_map; lia.
  + intros r. rewrite slice_vmap3, !slice_map, slice_combine.
    reflexivity.
Qed.

Lemma calibratev_no_statistics :
forall (stats : ndarray) (alpha0 : list Q),
  shape1 stats = 0%nat -> (0 < shape0 stats)%nat -> alpha0 <> [] ->
  calibratev (jnp_sort stats) (np_arange 0) alpha0 =
  Raise (IndexError "index is out of bounds for axis 0 with size 0").
Proof.
intros stats alpha0 H1 H0 Ha. unfold calibratev.
apply res_mapM_raise.
- unfold jnp_sort, array_rows.
  destruct (shape0 stats) as [| n]; [lia |].
  destruct alpha0; [congruence | discriminate].
- intros [row a] Hin. apply in_combine_l in Hin.
  apply in_jnp_sort_length in Hin. rewrite H1 in Hin.
  destruct row; [| discriminate].
  simpl. unfold calc_calibration_threshold.
  change (np_arange 0) with (@nil Z).
  rewrite jax_getitem_nil. reflexivity.
Qed.

Lemma calibrate__batched_columns :
forall (alpha : Q) (K : Z) th v nt,
  th <> [] -> length v = length th -> length nt = length th ->
  fst (calibrate__batched self alpha K th v nt) =
  res_bind (check_calibrate ncol K) (fun _ => Ok (calibrate_columns rowf G alpha K th v nt)).
Proof.
intros alpha K th v nt Hne Hv Hnt. unfold calibrate__batched.
rewrite fst_bind. simpl fst at 1. simpl res_bind.
rewrite fst_bind. simpl fst at 1.
rewrite self_model, (check_stats_per_tile K th nt Hnt).
unfold check_calibrate.
destruct (m_per_tile K th nt Hnt) as (H0 & H1 & Hrows).
unfold check_columns.
destruct (Z.eqb_spec (Z.of_nat (ncol K)) K) as [HK | HK]; simpl; [| reflexivity].
rewrite fst_bind. simpl fst at 1.
rewrite self_backward, <- (map_const alpha th).
assert (Hlen : (0 < length th)%nat).
{ destruct th; [congruence | simpl; lia]. }
destruct (Z.eqb_spec K 0) as [-> | HK0].
- rewrite calibratev_no_statistics; [reflexivity | | |].
  + rewrite H1. lia.
  + rewrite H0. exact Hlen.
  + intros E. apply (f_equal (@length Q)) in E.
    rewrite length_vmap3 in E by (rewrite ?length_map; lia).
    rewrite length_map in E. simpl in E. lia.
- rewrite calibratev_ok; [| lia | rewrite H1; exact HK].
  simpl. unfold calibrate_columns, jnp_sort.
  rewrite Hrows, map_map. reflexivity.
Qed.

Lemma calibrate_columns_slices :
forall (alpha : Q) (K : Z) (bs : nat) th v nt,
  (0 < bs)%nat -> length v = length th -> length nt = length th ->
  cat2 (map (fun r => calibrate_columns rowf G alpha K (slice th r) (slice v r) (slice nt r))
            (batch_ranges (length th) bs 0 (length th))) =
  calibrate_columns rowf G alpha K th v nt.
Proof.
intros alpha K bs th v nt Hbs Hv Hnt.
unfold cat2. rewrite !map_map. unfold calibrate_columns. simpl.
assert (Hc : length (combine th nt) = length th).
{ rewrite length_combine. lia. }
assert (Ha : length (vmap3 G (map (fun _ => alpha) th) th v) = length th).
{ rewrite length_vmap3; rewrite !length_map; lia. }
f_equal.
- apply concat_slices_ext; [exact Hbs | |].
  + rewrite length_map, length_combine, length_map, Hc, Ha. lia.
  + intros r.
    rewrite slice_map, slice_combine, slice_vmap3, !slice_map, slice_combine.
    reflexivity.
- apply concat_slices_ext; [exact Hbs | exact Ha |].
  intros r. rewrite slice_vmap3, slice_map. reflexivity.
Qed.

Lemma batch_validate_transparent :
forall (lam delta : Q) (K : Z) (bs : nat) th v nt,
  (0 < bs)%nat -> th <> [] -> length v = length th -> length nt = length th ->
  fst (batch cat4 (validate__batched betaincinv self lam delta) bs K th v nt) =
  fst (validate__batched betaincinv self lam delta K th v nt).
Proof.
intros lam delta K bs th v nt Hbs Hne Hv Hnt.
apply (batch_transparent _ _ _ _ _ cat4 _ (check_columns ncol K)
         (validate_columns betaincinv rowf F lam delta K)); try assumption.
- intros a' b' c' _ _ Hc'. apply validate__batched_columns. exact Hc'.
- apply validate_columns_slices; assumption.
Qed.

Lemma batch_calibrate_transparent :
forall (alpha : Q) (K : Z) (bs : nat) th v nt,
  (0 < bs)%nat -> th <> [] -> length v = length th -> length nt = length th ->
  fst (batch cat2 (calibrate__batched self alpha) bs K th v nt) =
  fst (calibrate__batched self alpha K th v nt).
Proof.
intros alpha K bs th v nt Hbs Hne Hv Hnt.
apply (batch_transparent _ _ _ _ _ cat2 _ (check_calibrate ncol K)
         (calibrate_columns rowf G alpha K)); try assumption.
- intros a' b' c' Ha' Hb' Hc'. apply calibrate__batched_columns; assumption.
- apply calibrate_columns_slices; assumption.
Qed.

End PerTile.

Lemma Driver_init_same_bounds :
  forall (m : Model) (bs bs' : nat) (self self' : Driver),
    Driver_init bound m bs = Ok self ->
    Driver_init bound m bs' = Ok self' ->
    forward_boundv self' = forward_boundv self /\
    backward_boundv self' = backward_boundv self.
Proof.
  intros m bs bs' self self' H H'. unfold Driver_init, get_bound in H, H'.
  destruct (find _ (bound_dict bound)) as [e |]; simpl in H, H'; [| discriminate].
  injection H as <-. injection H' as <-. split; reflexivity.
Qed.

Lemma fst_groupby_apply_K :
  forall (R : Type) (d : DataFrame Theta Vertices NullTruth)
         (f : Z -> DataFrame Theta Vertices NullTruth -> D (call Theta NullTruth) (pyobj R)),
    fst (_groupby_apply_K d f) =
    res_bind (groupby_K d)
      (fun groups =>
         res_bind (res_mapM (fun g => fst (f (fst g) (snd g))) groups)
           (fun out => res_bind (pd_concat out) (fun all => loc all (df_index d)))).
Proof.
  intros R d f. unfold _groupby_apply_K. rewrite fst_bind.
  change (fst (lift (groupby_K d))) with (groupby_K d).
  destruct (groupby_K d) as [groups | e]; [| reflexivity].
  cbn [res_bind]. rewrite fst_bind, fst_mapM.
  destruct (res_mapM _ groups) as [out | e]; [| reflexivity].
  cbn [res_bind]. rewrite fst_bind.
  change (fst (lift (pd_concat out))) with (pd_concat out).
  destruct (pd_concat out); reflexivity.
Qed.

(** The groups that [_groupby_apply_K] applies its function to are not
    empty; two functions with the same results on such groups give the same
    result. *)
Lemma groupby_apply_K_ext :
  forall (R : Type) (d : DataFrame Theta Vertices NullTruth)
         (f f' : Z -> DataFrame Theta Vertices NullTruth -> D (call Theta NullTruth) (pyobj R)),
    (forall K K_df, rows K_df <> [] -> fst (f K K_df) = fst (f' K K_df)) ->
    fst (_groupby_apply_K d f) = fst (_groupby_apply_K d f').
Proof.
  intros R d f f' Hf. rewrite !fst_groupby_apply_K.
  destruct (groupby_K d) as [groups | e] eqn:Eg; [| reflexivity].
  cbn [res_bind].
  rewrite (res_mapM_ext_in _ _ (fun x => fst (f (fst x) (snd x)))
             (fun x => fst (f' (fst x) (snd x)))); [reflexivity |].
  intros g Hg. apply Hf.
  unfold groupby_K in Eg. destruct (has_K d); [| discriminate].
  injection Eg as <-. apply in_map_iff in Hg. destruct Hg as (k & <- & Hk).
  simpl. apply (proj1 (group_keys_In _ _)) in Hk.
  apply in_map_iff in Hk. destruct Hk as (t & Ht & Hin).
  intros Hnil.
  assert (Hf' : In t (filter (fun t0 : tile => tile_K t0 =? k) (rows d))).
  { apply filter_In. split; [exact Hin |]. apply Z.eqb_eq. exact Ht. }
  rewrite Hnil in Hf'. destruct Hf'.
Qed.

(** For a model that works tile by tile, the result of [Driver.validate]
    and [Driver.calibrate] does not depend on the batch size. *)
Lemma Driver_results_batch_size :
  forall (m : Model) (bs bs' : nat) (self self' : Driver)
         (lam delta alpha : Q) (d : DataFrame Theta Vertices NullTruth),
    per_tile m ->
    Driver_init bound m bs = Ok self -> (1 <= bs)%nat ->
    Driver_init bound m bs' = Ok self' -> (1 <= bs')%nat ->
    fst (Driver_validate betaincinv self d lam delta) =
    fst (Driver_validate betaincinv self' d lam delta) /\
    fst (Driver_calibrate self d alpha) = fst (Driver_calibrate self' d alpha).
Proof.
  intros m bs bs' self self' lam delta alpha d (ncol & rowf & Hm) Hinit Hbs Hinit' Hbs'.
  destruct (Driver_init_fields m bs self Hinit)
    as (Hmodel & Hsize & b & params & Hf & Hb).
  destruct (Driver_init_fields m bs' self' Hinit')
    as (Hmodel' & Hsize' & _).
  destruct (Driver_init_same_bounds m bs bs' self self' Hinit Hinit') as (Hf' & Hb').
  rewrite Hf in Hf'. rewrite Hb in Hb'.
  assert (Hgroup : forall K_df : DataFrame Theta Vertices NullTruth,
             rows K_df <> [] ->
             let th := fst (get_theta_and_vertices (mk_Grid K_df)) in
             let v := snd (get_theta_and_vertices (mk_Grid K_df)) in
             let nt := get_null_truth (mk_Grid K_df) in
             th <> [] /\ length v = length th /\ length nt = length th).
  { intros K_df Hne. simpl. unfold get_null_truth. simpl.
    rewrite !length_map. split; [| split; reflexivity].
    destruct (rows K_df); [congruence | discriminate]. }
  split.
  - unfold Driver_validate. rewrite !fst_bind.
    rewrite (groupby_apply_K_ext _ d (validate_f betaincinv self lam delta)
               (validate_f betaincinv self' lam delta)); [reflexivity |].
    intros K K_df Hne. destruct (Hgroup K_df Hne) as (Hth & Hv & Hnt).
    unfold validate_f. rewrite !fst_bind.
    rewrite (batch_validate_transparent m ncol rowf Hm self (forward b params)
               Hmodel Hf) by (try assumption; lia).
    rewrite (batch_validate_transparent m ncol rowf Hm self' (forward b params)
               Hmodel' Hf') by (try assumption; lia).
    rewrite (validate__batched_columns m ncol rowf Hm self (forward b params)
               Hmodel Hf) by assumption.
    rewrite (validate__batched_columns m ncol rowf Hm self' (forward b params)
               Hmodel' Hf') by assumption.
    reflexivity.
  - unfold Driver_calibrate. rewrite !fst_bind.
    rewrite (groupby_apply_K_ext _ d (calibrate_f self alpha)
               (calibrate_f self' alpha)); [reflexivity |].
    intros K K_df Hne. destruct (Hgroup K_df Hne) as (Hth & Hv & Hnt).
    unfold calibrate_f. rewrite !fst_bind.
    rewrite (batch_calibrate_transparent m ncol rowf Hm self (backward b params)
               Hmodel Hb) by (try assumption; lia).
    rewrite (batch_calibrate_transparent m ncol rowf Hm self' (backward b params)
               Hmodel' Hb') by (try assumption; lia).
    rewrite (calibrate__batched_columns m ncol rowf Hm self (backward b params)
               Hmodel Hb) by assumption.
    rewrite (calibrate__batched_columns m ncol rowf Hm self' (backward b params)
               Hmodel' Hb') by assumption.
    reflexivity.
Qed.

(** C1 (amended): for a simulation model that works tile by tile, every K,
    every non-empty K-group and every [tile_batch_size >= 1], running
    [validate] and [calibrate] over the sub-batches of the group gives the
    same result as one pass over the whole group, in every column
    ([tie_sum], [tie_est], [tie_cp_bound], [tie_bound]; [lams],
    [alpha0]); so the results of the two methods are the same for every
    batch size. *)
Theorem batching_transparency :
  forall (m : Model) (bs : nat) (self : Driver),
    per_tile m ->
    Driver_init bound m bs = Ok self ->
    (1 <= bs)%nat ->
    forall (lam delta alpha : Q),
      (forall (K : Z) (group : list tile),
          group <> [] ->
          let th := map theta group in
          let v := map vertices group in
          let nt := map null_truth group in
          fst (batch cat4 (validate__batched betaincinv self lam delta)
                 (tile_batch_size self) K th v nt) =
          fst (validate__batched betaincinv self lam delta K th v nt) /\
          fst (batch cat2 (calibrate__batched self alpha)
                 (tile_batch_size self) K th v nt) =
          fst (calibrate__batched self alpha K th v nt)) /\
      (forall (bs' : nat) (self' : Driver) (d : DataFrame Theta Vertices NullTruth),
          Driver_init bound m bs' = Ok self' -> (1 <= bs')%nat ->
          fst (Driver_validate betaincinv self d lam delta) =
          fst (Driver_validate betaincinv self' d lam delta) /\
          fst (Driver_calibrate self d alpha) = fst (Driver_calibrate self' d alpha)).
Proof.
  intros m bs self Hper Hinit Hbs lam delta alpha. split.
  - destruct Hper as (ncol & rowf & Hm).
    intros K group Hne th v nt.
    destruct (Driver_init_fields m bs self Hinit)
      as (Hmodel & -> & b & params & Hf & Hb).
    assert (Hth : th <> []).
    { unfold th. destruct group; [congruence | discriminate]. }
    assert (Hv : length v = length th).
    { unfold v, th. rewrite !length_map. reflexivity. }
    assert (Hnt : length nt = length th).
    { unfold nt, th. rewrite !length_map. reflexivity. }
    split.
    + apply (batch_validate_transparent m ncol rowf Hm self (forward b params)
               Hmodel Hf); assumption.
    + apply (batch_calibrate_transparent m ncol rowf Hm self (backward b params)
               Hmodel Hb); assumption.
  - intros bs' self' d Hinit' Hbs'.
    apply (Driver_results_batch_size m bs bs' self self'); assumption.
Qed.

End BatchingTransparency.

Section RowOrder.

Lemma res_mapM_Forall2 :
  forall (A B : Type) (f : A -> res B) (l : list A) (ys : list B),
    res_mapM f l = Ok ys <-> Forall2 (fun x y => f x = Ok y) l ys.
Proof.
  intros A B f l. induction l as [| x t IH]; intros ys; simpl.
  - split.
    + intros H. injection H as <-. constructor.
    + intros H. inversion H. reflexivity.
  - destruct (f x) as [y | e] eqn:Ex; simpl.
    + destruct (res_mapM f t) as [ys' | e] eqn:Et; simpl.
      * split.
        -- intros H. injection H as <-. constructor; [exact Ex |].
           apply IH. reflexivity.
        -- intros H. inversion H as [| ? y0 ? ys0 Hy Hys]; subst.
           apply IH in Hys. congruence.
      * split; [discriminate |].
        intros H. inversion H as [| ? y0 ? ys0 Hy Hys]; subst.
        apply IH in Hys. discriminate.
    + split; [discriminate |].
      intros H. inversion H; subst. congruence.
Qed.

(** In a frame without duplicate labels a label selects its one row. *)
Lemma filter_label_unique :
  forall (R : Type) (fr : frame R) (label : Z) (x : R),
    NoDup (frame_index fr) -> In (label, x) fr ->
    filter (fun r => fst r =? label) fr = [(label, x)].
Proof.
  intros R fr label x. induction fr as [| [l y] fr IH]; intros Hnd Hin.
  - destruct Hin.
  - simpl in Hnd. inversion Hnd as [| ? ? Hnotin Hnd']; subst.
    simpl. destruct (Z.eqb_spec l label) as [-> | Hne].
    + destruct Hin as [E | Hin].
      * injection E as ->. f_equal.
        assert (Hnone : forall fr', ~ In label (frame_index fr') ->
                                    filter (fun r : Z * R => fst r =? label) fr' = []).
        { clear. intros fr'. induction fr' as [| [l z] fr' IH']; intros Hn; simpl.
          - reflexivity.
          - destruct (Z.eqb_spec l label) as [-> | _].
            + exfalso. apply Hn. left. reflexivity.
            + apply IH'. intros H. apply Hn. right. exact H. }
        apply Hnone. exact Hnotin.
      * exfalso. apply Hnotin. unfold frame_index.
        change label with (fst (label, x)). apply in_map. exact Hin.
    + destruct Hin as [E | Hin]; [congruence |].
      apply IH; assumption.
Qed.

Lemma loc_unique_labels :
  forall (R : Type) (fr : frame R) (labels : list Z),
    NoDup (frame_index fr) -> incl labels (frame_index fr) ->
    exists out : frame R,
      loc fr labels = Ok out /\ frame_index out = labels /\ incl out fr.
Proof.
  intros R fr labels Hnd. induction labels as [| l labels IH]; intros Hincl.
  - exists []. repeat split. intros x [].
  - destruct IH as (out & Hloc & Hidx & Hin).
    { intros x Hx. apply Hincl. right. exact Hx. }
    assert (Hl : In l (frame_index fr)) by (apply Hincl; left; reflexivity).
    unfold frame_index in Hl. apply in_map_iff in Hl.
    destruct Hl as ([l' x] & Hfst & Hx). simpl in Hfst. subst l'.
    exists ((l, x) :: out).
    unfold loc in Hloc |- *. simpl res_mapM.
    unfold loc_label at 1.
    rewrite (filter_label_unique R fr l x Hnd Hx). simpl.
    destruct (res_mapM (loc_label fr) labels) as [frs | e]; simpl in *;
      [| discriminate].
    injection Hloc as <-.
    split; [reflexivity |].
    split; [simpl; f_equal; exact Hidx |].
    intros y [<- | Hy]; [exact Hx | apply Hin; exact Hy].
Qed.

Lemma pd_concat_frames :
  forall (R : Type) (frs : list (frame R)),
    frs <> [] -> pd_concat (map PdFrame frs) = Ok (concat frs).
Proof.
  intros R frs Hne. unfold pd_concat.
  destruct frs as [| fr frs]; [congruence |].
  change (map PdFrame (fr :: frs)) with (PdFrame fr :: map PdFrame frs) at 1.
  cbv iota.
  rewrite (res_mapM_ok _ _ as_frame
             (fun o => match o with PdFrame f => f | JaxArray _ => [] end)).
  - simpl. rewrite map_map. simpl. rewrite map_id. reflexivity.
  - intros o Ho. apply in_map_iff in Ho. destruct Ho as (f & <- & _). reflexivity.
Qed.

Lemma pd_concat_ok_inv :
  forall (R : Type) (objs : list (pyobj R)) (all : frame R),
    pd_concat objs = Ok all ->
    exists frs, objs = map PdFrame frs /\ frs <> [] /\ all = concat frs.
Proof.
  intros R objs all H. unfold pd_concat in H.
  destruct objs as [| o objs]; [discriminate |].
  destruct (res_mapM as_frame (o :: objs)) as [frs |] eqn:E; simpl in H;
    [| discriminate].
  injection H as <-. exists frs.
  apply res_mapM_Forall2 in E.
  split; [| split; [| reflexivity]].
  - clear -E. induction E as [| o' f l l' Ho _ IH]; simpl.
    + reflexivity.
    + destruct o'; simpl in Ho; [| discriminate].
      injection Ho as ->. f_equal. exact IH.
  - inversion E. discriminate.
Qed.

End RowOrder.

Section FrameIndex.

Lemma map_fst_combine :
  forall (A B : Type) (l : list A) (l' : list B),
    (length l <= length l')%nat -> map fst (combine l l') = l.
Proof.
  intros A B l. induction l as [| x l IH]; intros l' H.
  - reflexivity.
  - destruct l' as [| y l']; simpl in H; [lia |].
    simpl. f_equal. apply IH. lia.
Qed.

Lemma frame_index_concat :
  forall (R : Type) (frs : list (frame R)),
    frame_index (concat frs) = concat (map frame_index frs).
Proof. intros R frs. unfold frame_index. apply concat_map. Qed.

Lemma setitem_array_index :
  forall (R V : Type) (out : frame R) (vals : list V) (out' : frame (R * V)),
    setitem_array out vals = Ok out' -> frame_index out' = frame_index out.
Proof.
  intros R V out vals out' H. unfold setitem_array in H.
  destruct (Nat.eqb_spec (length vals) (length out)) as [E | E]; [| discriminate].
  injection H as <-. unfold frame_index. rewrite map_map. simpl.
  rewrite <- (map_map fst fst). rewrite map_fst_combine by lia. reflexivity.
Qed.

Lemma setitem_series_index :
  forall (R V : Type) (out : frame R) (s : list (Z * V)) (out' : frame (R * option V)),
    setitem_series out s = Ok out' -> frame_index out' = frame_index out.
Proof.
  intros R V out s out' H. unfold setitem_series in H.
  destruct (list_eq_dec Z.eq_dec (frame_index out) (map fst s)) as [E | E].
  - injection H as <-. unfold frame_index. rewrite map_map. simpl.
    rewrite <- (map_map fst fst). rewrite map_fst_combine; [reflexivity |].
    apply (f_equal (@length Z)) in E. unfold frame_index in E.
    rewrite !length_map in E. lia.
  - destruct (has_dup (map fst s)); [discriminate |].
    injection H as <-. unfold frame_index. rewrite map_map. reflexivity.
Qed.

Context {Theta Vertices NullTruth : Type}.
Variable betaincinv : Z -> Z -> Q -> option Q.

Local Abbreviation Driver := (Driver Theta Vertices NullTruth).
Local Abbreviation DataFrame := (DataFrame Theta Vertices NullTruth).
Local Abbreviation call := (call Theta NullTruth).

Lemma pd_DataFrame4_index :
  forall (c1 : list Z) (c2 c3 c4 : list Q) (idx : list Z) (fr : frame validate_row),
    pd_DataFrame4 c1 c2 c3 c4 idx = Ok fr -> frame_index fr = idx.
Proof.
  intros c1 c2 c3 c4 idx fr H. unfold pd_DataFrame4 in H.
  destruct (Nat.eqb_spec (length c1) (length idx)) as [E1 | E]; [| discriminate].
  destruct (Nat.eqb_spec (length c2) (length idx)) as [E2 | E]; [| discriminate].
  destruct (Nat.eqb_spec (length c3) (length idx)) as [E3 | E]; [| discriminate].
  destruct (Nat.eqb_spec (length c4) (length idx)) as [E4 | E]; [| discriminate].
  simpl in H. injection H as <-.
  unfold frame_index. rewrite map_map. simpl.
  apply map_fst_combine. rewrite !length_combine. lia.
Qed.

(** The groups of a frame hold each of its rows once. *)
Lemma groupby_K_partition :
  forall (d : DataFrame) (groups : list (Z * DataFrame)),
    groupby_K d = Ok groups ->
    Permutation (concat (map (fun g => df_index (snd g)) groups)) (df_index d).
Proof.
  intros d groups H. unfold groupby_K in H.
  destruct (has_K d); [| discriminate]. injection H as <-.
  rewrite map_map. simpl. unfold df_index.
  rewrite <- (map_map (fun k => filter (fun t => tile_K t =? k) (rows d)) (map index)).
  rewrite <- concat_map. apply Permutation_map.
  rewrite <- flat_map_concat_map.
  apply (groups_partition _ tile_K).
  - apply group_keys_NoDup.
  - intros x Hx. apply group_keys_In. apply in_map. exact Hx.
Qed.

(** When each group yields a frame with the index of the group, the
    result of [_groupby_apply_K] has the index of the input, in the order
    of the input. *)
Lemma groupby_apply_K_index :
  forall (R : Type) (d : DataFrame) (f : Z -> DataFrame -> D call (pyobj R))
         (out : frame R),
    NoDup (df_index d) ->
    (forall K K_df o,
        fst (f K K_df) = Ok o ->
        exists fr, o = PdFrame fr /\ frame_index fr = df_index K_df) ->
    fst (_groupby_apply_K d f) = Ok out ->
    frame_index out = df_index d.
Proof.
  intros R d f out Hnd Hf H. unfold _groupby_apply_K in H.
  rewrite fst_bind in H. simpl fst at 1 in H.
  destruct (groupby_K d) as [groups | e] eqn:Eg; simpl in H; [| discriminate].
  rewrite fst_bind, fst_mapM in H.
  destruct (res_mapM _ groups) as [outs | e] eqn:Em; simpl in H; [| discriminate].
  rewrite fst_bind in H. simpl fst at 1 in H.
  destruct (pd_concat outs) as [all | e] eqn:Ec; simpl in H; [| discriminate].
  apply pd_concat_ok_inv in Ec. destruct Ec as (frs & -> & _ & ->).
  apply res_mapM_Forall2 in Em.
  assert (Hidx : concat (map frame_index frs) =
                 concat (map (fun g => df_index (snd g)) groups)).
  { clear -Em Hf. revert frs Em. induction groups as [| g groups IH]; intros frs Em.
    - inversion Em as [E |]. destruct frs; [reflexivity | discriminate].
    - destruct frs as [| fr frs]; [inversion Em |].
      simpl in Em. inversion Em as [| ? ? ? ? Hg Hrest]; subst.
      destruct (Hf _ _ _ Hg) as (fr' & E & Hfr). injection E as <-.
      simpl. rewrite Hfr, (IH frs Hrest). reflexivity. }
  pose proof (groupby_K_partition d groups Eg) as Hperm.
  rewrite <- Hidx, <- frame_index_concat in Hperm.
  destruct (loc_unique_labels R (concat frs) (df_index d)) as (out' & Hloc & Hi & _).
  - eapply Permutation_NoDup; [symmetry; exact Hperm | exact Hnd].
  - intros x Hx. eapply Permutation_in; [symmetry; exact Hperm | exact Hx].
  - rewrite Hloc in H. injection H as <-. exact Hi.
Qed.

End FrameIndex.

(** ** Row order of the results *)

Section RowOrderDriver.

Context {Theta Vertices NullTruth : Type}.
Variable betaincinv : Z -> Z -> Q -> option Q.

Local Abbreviation Driver := (Driver Theta Vertices NullTruth).
Local Abbreviation DataFrame := (DataFrame Theta Vertices NullTruth).
Local Abbreviation Model := (Model Theta NullTruth).
Local Abbreviation call := (call Theta NullTruth).

Lemma validate_f_frame :
  forall (self : Driver) (lam delta : Q) (K : Z) (K_df : DataFrame)
         (o : pyobj validate_row),
    fst (validate_f betaincinv self lam delta K K_df) = Ok o ->
    exists fr, o = PdFrame fr /\ frame_index fr = df_index K_df.
Proof.
  intros self lam delta K K_df o H. unfold validate_f in H.
  rewrite fst_bind in H.
  destruct (fst (batch _ _ _ _ _ _ _)) as [cols | e]; simpl in H; [| discriminate].
  rewrite fst_bind in H. simpl fst at 1 in H.
  destruct (pd_DataFrame4 _ _ _ _ _) as [fr | e] eqn:E; simpl in H; [| discriminate].
  injection H as <-. exists fr. split; [reflexivity |].
  apply pd_DataFrame4_index in E. exact E.
Qed.

Lemma calibrate_f_frame :
  forall (self : Driver) (alpha : Q) (K : Z) (K_df : DataFrame)
         (o : pyobj calibrate_row),
    fst (calibrate_f self alpha K K_df) = Ok o ->
    exists fr, o = PdFrame fr /\ frame_index fr = df_index K_df.
Proof.
  intros self alpha K K_df o H. unfold calibrate_f in H.
  rewrite fst_bind in H.
  destruct (fst (batch _ _ _ _ _ _ _)) as [cols | e]; simpl in H; [| discriminate].
  rewrite fst_bind in H. simpl fst at 1 in H.
  destruct (setitem_array _ (fst cols)) as [o1 | e] eqn:E1; simpl in H; [| discriminate].
  rewrite fst_bind in H. simpl fst at 1 in H.
  destruct (setitem_array o1 (snd cols)) as [o2 | e] eqn:E2; simpl in H; [| discriminate].
  injection H as <-. eexists. split; [reflexivity |].
  apply setitem_array_index in E1, E2.
  unfold frame_index in *. rewrite map_map.
  change (map fst o2 = df_index K_df).
  rewrite E2, E1, map_map. apply map_id.
Qed.

(** Whenever [Driver.validate] returns a frame for an input without
    duplicate labels, its index is the index of the input. *)
Lemma Driver_validate_index :
  forall (self : Driver) (d : DataFrame) (lam delta : Q)
         (out : frame (validate_row * option Z)),
    NoDup (df_index d) ->
    fst (Driver_validate betaincinv self d lam delta) = Ok out ->
    frame_index out = df_index d.
Proof.
  intros self d lam delta out Hnd H. unfold Driver_validate in H.
  rewrite fst_bind in H.
  destruct (fst (_groupby_apply_K d _)) as [o1 | e] eqn:E1; simpl in H; [| discriminate].
  apply groupby_apply_K_index in E1; [| exact Hnd | apply validate_f_frame].
  rewrite fst_bind in H. simpl fst at 1 in H.
  destruct (col_K d) as [Ks | e]; simpl in H; [| discriminate].
  apply setitem_series_index in H. congruence.
Qed.

Lemma Driver_calibrate_index :
  forall (self : Driver) (d : DataFrame) (alpha : Q)
         (out : frame (calibrate_row * Z * option Z)),
    NoDup (df_index d) ->
    fst (Driver_calibrate self d alpha) = Ok out ->
    frame_index out = df_index d.
Proof.
  intros self d alpha out Hnd H. unfold Driver_calibrate in H.
  rewrite fst_bind in H.
  destruct (fst (_groupby_apply_K d _)) as [o1 | e] eqn:E1; simpl in H; [| discriminate].
  apply groupby_apply_K_index in E1; [| exact Hnd | apply calibrate_f_frame].
  rewrite fst_bind in H. simpl fst at 1 in H.
  destruct (col_K d) as [Ks | e]; simpl in H; [| discriminate].
  rewrite fst_bind in H. simpl fst at 1 in H.
  destruct (broadcast2 _ _ _) as [idx | e]; simpl in H; [| discriminate].
  rewrite fst_bind in H. simpl fst at 1 in H.
  destruct (setitem_array o1 idx) as [o2 | e] eqn:E2; simpl in H; [| discriminate].
  apply setitem_array_index in E2. apply setitem_series_index in H. congruence.
Qed.

(** [Driver.stats] hands the bare arrays of the groups to [pd.concat]: it
    raises for every input. *)
Lemma Driver_stats_raises :
  forall (self : Driver) (d : DataFrame),
    exists e, fst (Driver_stats self d) = Raise e.
Proof.
  intros self d. unfold Driver_stats, _groupby_apply_K.
  rewrite fst_bind. simpl fst at 1.
  destruct (groupby_K d) as [groups | e]; simpl; [| eexists; reflexivity].
  rewrite fst_bind, fst_mapM.
  destruct (res_mapM _ groups) as [outs | e] eqn:Em; simpl; [| eexists; reflexivity].
  rewrite fst_bind. simpl fst at 1.
  apply res_mapM_Forall2 in Em.
  destruct Em as [| g o groups' outs' Hg _].
  - simpl. eexists. reflexivity.
  - assert (Ho : exists a, o = JaxArray a).
    { unfold stats_f in Hg. rewrite fst_bind in Hg. simpl fst at 1 in Hg.
      destruct (rows (snd g)) as [| t ts]; [discriminate |].
      cbv beta iota in Hg. unfold res_bind at 1 in Hg.
      rewrite fst_bind in Hg. simpl fst at 1 in Hg. unfold res_bind at 1 in Hg.
      rewrite fst_bind in Hg. simpl fst at 1 in Hg.
      destruct (_check_stats _ _ _); simpl in Hg; [| discriminate].
      injection Hg as <-. eexists. reflexivity. }
    destruct Ho as (a & ->). simpl. eexists. reflexivity.
Qed.

End RowOrderDriver.

Section RowOrderTotal.

Context {Theta Vertices NullTruth : Type}.
Variable betaincinv : Z -> Z -> Q -> option Q.
Variable bound : bound_module Theta Vertices.

Local Abbreviation Driver := (Driver Theta Vertices NullTruth).
Local Abbreviation DataFrame := (DataFrame Theta Vertices NullTruth).
Local Abbreviation Model := (Model Theta NullTruth).
Local Abbreviation call := (call Theta NullTruth).

Lemma res_mapM_exists :
  forall (A B : Type) (f : A -> res B) (P : A -> B -> Prop) (l : list A),
    (forall x, In x l -> exists y, f x = Ok y /\ P x y) ->
    exists ys, res_mapM f l = Ok ys /\ Forall2 P l ys.
Proof.
  intros A B f P l. induction l as [| x t IH]; intros H.
  - exists []. split; [reflexivity | constructor].
  - destruct (H x (or_introl eq_refl)) as (y & Hy & Py).
    destruct IH as (ys & Hys & Pys).
    { intros z Hz. apply H. right. exact Hz. }
    exists (y :: ys). simpl. rewrite Hy, Hys. simpl.
    split; [reflexivity | constructor; assumption].
Qed.

Lemma length_concat_ranges_from :
  forall (A : Type) (g : nat * nat -> list A) (bs dim fuel start : nat),
    (0 < bs)%nat -> (dim - start <= fuel)%nat ->
    (forall r, In r (batch_ranges fuel bs start dim) ->
               length (g r) = (snd r - fst r)%nat) ->
    length (concat (map g (batch_ranges fuel bs start dim))) = (dim - start)%nat.
Proof.
  intros A g bs dim fuel. induction fuel as [| fuel IH]; intros start Hbs Hfuel Hg.
  - simpl. lia.
  - simpl in Hg |- *. destruct (Nat.leb_spec dim start) as [Hle | Hlt].
    + simpl. lia.
    + simpl. rewrite length_app, (Hg _ (or_introl eq_refl)), IH.
      * simpl. lia.
      * exact Hbs.
      * lia.
      * intros r Hr. apply Hg. right. exact Hr.
Qed.

Lemma length_concat_ranges :
  forall (A : Type) (g : nat * nat -> list A) (bs dim : nat),
    (0 < bs)%nat ->
    (forall r, In r (batch_ranges dim bs 0 dim) -> length (g r) = (snd r - fst r)%nat) ->
    length (concat (map g (batch_ranges dim bs 0 dim))) = dim.
Proof.
  intros A g bs dim Hbs Hg.
  rewrite length_concat_ranges_from; [lia | exact Hbs | lia | exact Hg].
Qed.

Lemma batch_ok :
  forall (A B C O : Type) (cat : list O -> O)
         (f : Z -> list A -> list B -> list C -> D call O) (g : nat * nat -> O)
         (bs : nat) (K : Z) (a : list A) (b : list B) (c : list C),
    (forall r, In r (batch_ranges (length a) bs 0 (length a)) ->
               fst (f K (slice a r) (slice b r) (slice c r)) = Ok (g r)) ->
    fst (batch cat f bs K a b c) =
    Ok (cat (map g (batch_ranges (length a) bs 0 (length a)))).
Proof.
  intros A B C O cat f g bs K a b c Hf. unfold batch.
  rewrite fst_bind, fst_mapM.
  rewrite (res_mapM_ext_in _ _ _ (fun r => Ok (g r)) _ Hf).
  rewrite (res_mapM_ok _ _ _ g) by reflexivity.
  reflexivity.
Qed.

Lemma pd_DataFrame4_ok :
  forall (c1 : list Z) (c2 c3 c4 : list Q) (idx : list Z),
    length c1 = length idx -> length c2 = length idx ->
    length c3 = length idx -> length c4 = length idx ->
    exists fr, pd_DataFrame4 c1 c2 c3 c4 idx = Ok fr.
Proof.
  intros c1 c2 c3 c4 idx H1 H2 H3 H4. unfold pd_DataFrame4.
  rewrite H1, H2, H3, H4, !Nat.eqb_refl. simpl. eexists. reflexivity.
Qed.

Lemma setitem_array_ok :
  forall (R V : Type) (out : frame R) (vals : list V),
    length vals = length out ->
    exists out', setitem_array out vals = Ok out' /\ length out' = length out.
Proof.
  intros R V out vals H. unfold setitem_array.
  rewrite H, Nat.eqb_refl. eexists. split; [reflexivity |].
  rewrite length_map, length_combine. lia.
Qed.

Lemma frames_of_groups :
  forall (R : Type) (groups : list (Z * DataFrame)) (outs : list (pyobj R)),
    Forall2 (fun g o => exists fr, o = PdFrame fr /\ frame_index fr = df_index (snd g))
            groups outs ->
    exists frs, outs = map PdFrame frs /\ length frs = length groups.
Proof.
  intros R groups outs H. induction H as [| g o groups outs (fr & -> & _) _ IH].
  - exists []. split; reflexivity.
  - destruct IH as (frs & -> & Hl). exists (fr :: frs).
    split; [reflexivity | simpl; f_equal; exact Hl].
Qed.

Lemma col_K_index :
  forall (d : DataFrame) (Ks : list (Z * Z)),
    col_K d = Ok Ks -> map fst Ks = df_index d.
Proof.
  intros d Ks H. unfold col_K in H. destruct (has_K d); [| discriminate].
  injection H as <-. rewrite map_map. reflexivity.
Qed.

Lemma setitem_series_ok :
  forall (R V : Type) (out : frame R) (s : list (Z * V)),
    frame_index out = map fst s ->
    exists out', setitem_series out s = Ok out'.
Proof.
  intros R V out s H. unfold setitem_series.
  destruct (list_eq_dec Z.eq_dec (frame_index out) (map fst s)) as [_ | n];
    [eexists; reflexivity | contradiction].
Qed.

Section Contract.

Variable m : Model.
Variable self : Driver.
Variables F G : Q -> Theta -> Vertices -> Q.
Hypothesis m_shape : respects_shape m.
Hypothesis self_model : model self = m.
Hypothesis self_forward : forward_boundv self = vmap3 F.
Hypothesis self_backward : backward_boundv self = vmap3 G.

Lemma validate__batched_ok :
forall (lam delta : Q) (K : Z) th v nt,
  0 <= K -> length v = length th -> length nt = length th ->
  exists c1 c2 c3 c4,
    fst (validate__batched betaincinv self lam delta K th v nt) = Ok (c1, c2, c3, c4) /\
    length c1 = length th /\ length c2 = length th /\
    length c3 = length th /\ length c4 = length th.
Proof using m_shape self_model self_forward.
intros lam delta K th v nt HK Hv Hnt.
destruct (m_shape K th nt HK Hnt) as (H0 & H1).
unfold validate__batched.
rewrite fst_bind. simpl fst at 1. unfold res_bind at 1.
rewrite fst_bind. simpl fst at 1.
rewrite self_model, (check_stats_ok _ _ K th H0 H1). unfold res_bind at 1.
simpl fst.
assert (Hlen : length (jnp_sum_lt (sim_batch m 0 K th nt) lam) = length th).
{ unfold jnp_sum_lt. rewrite length_map, length_array_rows. exact H0. }
do 4 eexists. split; [reflexivity |].
rewrite self_forward, length_vmap3; rewrite !length_map; lia.
Qed.

Lemma calibrate__batched_ok :
forall (alpha : Q) (K : Z) th v nt,
  1 <= K -> length v = length th -> length nt = length th ->
  exists c1 c2,
    fst (calibrate__batched self alpha K th v nt) = Ok (c1, c2) /\
    length c1 = length th /\ length c2 = length th.
Proof using m_shape self_model self_backward.
intros alpha K th v nt HK Hv Hnt.
destruct (m_shape K th nt ltac:(lia) Hnt) as (H0 & H1).
unfold calibrate__batched.
rewrite fst_bind. simpl fst at 1. unfold res_bind at 1.
rewrite fst_bind. simpl fst at 1.
rewrite self_model, (check_stats_ok _ _ K th H0 H1). unfold res_bind at 1.
rewrite fst_bind. simpl fst at 1.
rewrite (calibratev_ok _ _ K HK H1). unfold res_bind at 1. simpl fst.
assert (Ha : length (backward_boundv self (repeat alpha (length th)) th v) = length th).
{ rewrite self_backward, length_vmap3; rewrite ?repeat_length; lia. }
do 2 eexists. split; [reflexivity |].
split; [| exact Ha].
rewrite length_map, length_combine, Ha. unfold jnp_sort.
rewrite length_map, length_array_rows, H0. lia.
Qed.

Hypothesis batch_size_pos : (0 < tile_batch_size self)%nat.

Lemma validate_f_ok :
forall (lam delta : Q) (K : Z) (K_df : DataFrame),
  0 <= K ->
  exists fr,
    fst (validate_f betaincinv self lam delta K K_df) = Ok (PdFrame fr) /\
    frame_index fr = df_index K_df.
Proof using m_shape self_model self_forward batch_size_pos.
intros lam delta K K_df HK.
destruct (fst (validate_f betaincinv self lam delta K K_df)) as [o | e] eqn:E.
- destruct (validate_f_frame _ _ _ _ _ _ _ E) as (fr & -> & Hi).
  exists fr. split; [reflexivity | exact Hi].
- exfalso. unfold validate_f in E. rewrite fst_bind in E.
  set (th := fst (get_theta_and_vertices (mk_Grid K_df))) in E.
  set (v := snd (get_theta_and_vertices (mk_Grid K_df))) in E.
  set (nt := get_null_truth (mk_Grid K_df)) in E.
  assert (Hv : length v = length th).
  { unfold v, th. simpl. rewrite !length_map. reflexivity. }
  assert (Hnt : length nt = length th).
  { unfold nt, th. simpl. unfold get_null_truth. simpl.
    rewrite !length_map. reflexivity. }
  assert (Hth : length th = length (df_index K_df)).
  { unfold th, df_index. simpl. rewrite !length_map. reflexivity. }
  pose (g := fun r : nat * nat =>
               match fst (validate__batched betaincinv self lam delta K
                            (slice th r) (slice v r) (slice nt r)) with
               | Ok o => o
               | Raise _ => ([], [], [], [])
               end).
  assert (Hg : forall r, In r (batch_ranges (length th) (tile_batch_size self) 0 (length th)) ->
                 fst (validate__batched betaincinv self lam delta K
                        (slice th r) (slice v r) (slice nt r)) = Ok (g r) /\
                 length (fst (fst (fst (g r)))) = (snd r - fst r)%nat /\
                 length (snd (fst (fst (g r)))) = (snd r - fst r)%nat /\
                 length (snd (fst (g r))) = (snd r - fst r)%nat /\
                 length (snd (g r)) = (snd r - fst r)%nat).
  { intros r Hr. apply (batch_ranges_bounds _ _ _ _ _ batch_size_pos) in Hr.
    destruct (validate__batched_ok lam delta K (slice th r) (slice v r) (slice nt r))
      as (c1 & c2 & c3 & c4 & Hc & L1 & L2 & L3 & L4);
      [exact HK | rewrite !length_slice by lia; reflexivity
      | rewrite !length_slice by lia; reflexivity |].
    unfold g. rewrite Hc. simpl.
    rewrite length_slice in L1, L2, L3, L4 by lia.
    split; [reflexivity |]. repeat split; assumption. }
  rewrite (batch_ok _ _ _ _ cat4 _ g) in E by (intros r Hr; apply Hg; exact Hr).
  unfold res_bind at 1 in E. rewrite fst_bind in E. simpl fst at 1 in E.
  set (ranges := batch_ranges (length th) (tile_batch_size self) 0 (length th)) in E, Hg.
  destruct (pd_DataFrame4_ok
              (fst (fst (fst (cat4 (map g ranges)))))
              (snd (fst (fst (cat4 (map g ranges)))))
              (snd (fst (cat4 (map g ranges))))
              (snd (cat4 (map g ranges)))
              (df_index K_df)) as (fr & Hfr).
  + unfold cat4. simpl. rewrite map_map, <- Hth.
    apply length_concat_ranges; [exact batch_size_pos |].
    intros r Hr. apply Hg. exact Hr.
  + unfold cat4. simpl. rewrite map_map, <- Hth.
    apply length_concat_ranges; [exact batch_size_pos |].
    intros r Hr. apply Hg. exact Hr.
  + unfold cat4. simpl. rewrite map_map, <- Hth.
    apply length_concat_ranges; [exact batch_size_pos |].
    intros r Hr. apply Hg. exact Hr.
  + unfold cat4. simpl. rewrite map_map, <- Hth.
    apply length_concat_ranges; [exact batch_size_pos |].
    intros r Hr. apply Hg. exact Hr.
  + unfold cat4 in Hfr. cbn [fst snd] in Hfr. rewrite Hfr in E. discriminate.
Qed.

Lemma calibrate_f_ok :
forall (alpha : Q) (K : Z) (K_df : DataFrame),
  1 <= K ->
  exists fr,
    fst (calibrate_f self alpha K K_df) = Ok (PdFrame fr) /\
    frame_index fr = df_index K_df.
Proof using m_shape self_model self_backward batch_size_pos.
intros alpha K K_df HK.
destruct (fst (calibrate_f self alpha K K_df)) as [o | e] eqn:E.
- destruct (calibrate_f_frame _ _ _ _ _ E) as (fr & -> & Hi).
  exists fr. split; [reflexivity | exact Hi].
- exfalso. unfold calibrate_f in E. rewrite fst_bind in E.
  set (th := fst (get_theta_and_vertices (mk_Grid K_df))) in E.
  set (v := snd (get_theta_and_vertices (mk_Grid K_df))) in E.
  set (nt := get_null_truth (mk_Grid K_df)) in E.
  assert (Hv : length v = length th).
  { unfold v, th. simpl. rewrite !length_map. reflexivity. }
  assert (Hnt : length nt = length th).
  { unfold nt, th. simpl. unfold get_null_truth. simpl.
    rewrite !length_map. reflexivity. }
  assert (Hth : length th = length (df_index K_df)).
  { unfold th, df_index. simpl. rewrite !length_map. reflexivity. }
  pose (g := fun r : nat * nat =>
               match fst (calibrate__batched self alpha K
                            (slice th r) (slice v r) (slice nt r)) with
               | Ok o => o
               | Raise _ => ([], [])
               end).
  assert (Hg : forall r, In r (batch_ranges (length th) (tile_batch_size self) 0 (length th)) ->
                 fst (calibrate__batched self alpha K
                        (slice th r) (slice v r) (slice nt r)) = Ok (g r) /\
                 length (fst (g r)) = (snd r - fst r)%nat /\
                 length (snd (g r)) = (snd r - fst r)%nat).
  { intros r Hr. apply (batch_ranges_bounds _ _ _ _ _ batch_size_pos) in Hr.
    destruct (calibrate__batched_ok alpha K (slice th r) (slice v r) (slice nt r))
      as (c1 & c2 & Hc & L1 & L2);
      [exact HK | rewrite !length_slice by lia; reflexivity
      | rewrite !length_slice by lia; reflexivity |].
    unfold g. rewrite Hc. simpl.
    rewrite length_slice in L1, L2 by lia.
    split; [reflexivity |]. split; assumption. }
  rewrite (batch_ok _ _ _ _ cat2 _ g) in E by (intros r Hr; apply Hg; exact Hr).
  unfold res_bind at 1 in E. cbv zeta in E.
  rewrite fst_bind in E. simpl fst at 1 in E.
  set (ranges := batch_ranges (length th) (tile_batch_size self) 0 (length th)) in E, Hg.
  destruct (setitem_array_ok _ _ (map (fun i => (i, tt)) (df_index K_df))
              (fst (cat2 (map g ranges)))) as (o1 & Ho1 & L1).
  { unfold cat2. simpl. rewrite map_map, length_map, <- Hth.
    apply length_concat_ranges; [exact batch_size_pos |].
    intros r Hr. apply Hg. exact Hr. }
  change (fst (cat2 (map g ranges))) with (concat (map fst (map g ranges))) in Ho1.
  rewrite Ho1 in E. unfold res_bind at 1 in E.
  rewrite fst_bind in E. simpl fst at 1 in E.
  destruct (setitem_array_ok _ _ o1 (snd (cat2 (map g ranges)))) as (o2 & Ho2 & L2).
  { unfold cat2. simpl. rewrite map_map, L1, length_map, <- Hth.
    apply length_concat_ranges; [exact batch_size_pos |].
    intros r Hr. apply Hg. exact Hr. }
  change (snd (cat2 (map g ranges))) with (concat (map snd (map g ranges))) in Ho2.
  cbn [snd cat2] in E. rewrite Ho2 in E. discriminate.
Qed.

Lemma groupby_apply_K_returns :
forall (R : Type) (d : DataFrame) (f : Z -> DataFrame -> D call (pyobj R)),
  has_K d = true -> rows d <> [] -> NoDup (df_index d) ->
  (forall K K_df,
      In K (map tile_K (rows d)) ->
      exists fr, fst (f K K_df) = Ok (PdFrame fr) /\
                 frame_index fr = df_index K_df) ->
  (forall K K_df o,
      fst (f K K_df) = Ok o ->
      exists fr, o = PdFrame fr /\ frame_index fr = df_index K_df) ->
  exists out, fst (_groupby_apply_K d f) = Ok out /\ frame_index out = df_index d.
Proof using Type.
intros R d f HK Hne Hnd Hf Hfr.
destruct (fst (_groupby_apply_K d f)) as [out | e] eqn:E.
{ exists out. split; [reflexivity |].
  apply (groupby_apply_K_index R d f out Hnd Hfr E). }
exfalso. unfold _groupby_apply_K in E.
rewrite fst_bind in E. simpl fst at 1 in E.
destruct (groupby_K d) as [groups | e'] eqn:Eg;
  [| unfold groupby_K in Eg; rewrite HK in Eg; discriminate].
unfold res_bind at 1 in E. rewrite fst_bind, fst_mapM in E.
destruct (res_mapM_exists _ _ (fun g => fst (f (fst g) (snd g)))
            (fun g o => exists fr, o = PdFrame fr /\ frame_index fr = df_index (snd g))
            groups) as (outs & Houts & Hall).
{ intros g Hg. unfold groupby_K in Eg. rewrite HK in Eg. injection Eg as <-.
  apply in_map_iff in Hg. destruct Hg as (k & <- & Hk). simpl.
  apply (proj1 (group_keys_In _ _)) in Hk.
  destruct (Hf k (mk_df true (filter (fun t => tile_K t =? k) (rows d))) Hk)
    as (fr & Hfr1 & Hfr2).
  eexists. split; [exact Hfr1 |]. exists fr. split; [reflexivity | exact Hfr2]. }
rewrite Houts in E. unfold res_bind at 1 in E.
rewrite fst_bind in E. simpl fst at 1 in E.
destruct (frames_of_groups R groups outs Hall) as (frs & -> & Hlen).
assert (Hgroups : groups <> []).
{ unfold groupby_K in Eg. rewrite HK in Eg. injection Eg as <-.
  destruct (rows d) as [| t ts]; [congruence |].
  intros Hnil. apply map_eq_nil in Hnil.
  assert (Hin : In (tile_K t) (group_keys (map tile_K (t :: ts)))).
  { apply group_keys_In. left. reflexivity. }
  rewrite Hnil in Hin. destruct Hin. }
rewrite pd_concat_frames in E.
2:{ intros ->. destruct groups; [congruence | discriminate]. }
unfold res_bind at 1 in E. simpl fst in E.
assert (Hidx : concat (map frame_index frs) =
               concat (map (fun g => df_index (snd g)) groups)).
{ clear -Hall. remember (map PdFrame frs) as outs eqn:Eo.
  revert frs Eo. induction Hall as [| g o groups outs (fr & -> & Hi) _ IH];
    intros frs Eo.
  - destruct frs; [reflexivity | discriminate].
  - destruct frs as [| fr' frs]; [discriminate |].
    simpl in Eo. injection Eo as <- Eo. simpl.
    rewrite Hi, (IH frs Eo). reflexivity. }
pose proof (groupby_K_partition d groups Eg) as Hperm.
rewrite <- Hidx, <- frame_index_concat in Hperm.
destruct (loc_unique_labels R (concat frs) (df_index d)) as (out' & Hloc & _).
- eapply Permutation_NoDup; [symmetry; exact Hperm | exact Hnd].
- intros x Hx. eapply Permutation_in; [symmetry; exact Hperm | exact Hx].
- rewrite Hloc in E. discriminate.
Qed.

Lemma Driver_validate_ok :
forall (d : DataFrame) (lam delta : Q),
  has_K d = true -> rows d <> [] -> NoDup (df_index d) ->
  Forall (fun t => 1 <= tile_K t) (rows d) ->
  exists out,
    fst (Driver_validate betaincinv self d lam delta) = Ok out /\
    frame_index out = df_index d.
Proof using m_shape self_model self_forward batch_size_pos.
intros d lam delta HK Hne Hnd HKs.
destruct (groupby_apply_K_returns _ d (validate_f betaincinv self lam delta)
            HK Hne Hnd) as (o1 & Ho1 & Hi1).
{ intros K K_df HKin. apply validate_f_ok.
  apply in_map_iff in HKin. destruct HKin as (t & <- & Ht).
  rewrite Forall_forall in HKs. specialize (HKs t Ht). lia. }
{ apply validate_f_frame. }
unfold Driver_validate. rewrite fst_bind, Ho1. unfold res_bind at 1.
rewrite fst_bind. simpl fst at 1.
destruct (col_K d) as [Ks | e] eqn:EK;
  [| unfold col_K in EK; rewrite HK in EK; discriminate].
unfold res_bind at 1. simpl fst.
destruct (setitem_series_ok _ _ o1 Ks) as (out & Hout).
{ rewrite (col_K_index d Ks EK). exact Hi1. }
exists out. split; [exact Hout |].
apply setitem_series_index in Hout. congruence.
Qed.

Lemma Driver_calibrate_ok :
forall (d : DataFrame) (alpha : Q),
  has_K d = true -> rows d <> [] -> NoDup (df_index d) ->
  Forall (fun t => 1 <= tile_K t) (rows d) ->
  exists out,
    fst (Driver_calibrate self d alpha) = Ok out /\
    frame_index out = df_index d.
Proof using m_shape self_model self_backward batch_size_pos.
intros d alpha HK Hne Hnd HKs.
destruct (groupby_apply_K_returns _ d (calibrate_f self alpha)
            HK Hne Hnd) as (o1 & Ho1 & Hi1).
{ intros K K_df HKin. apply calibrate_f_ok.
  apply in_map_iff in HKin. destruct HKin as (t & <- & Ht).
  rewrite Forall_forall in HKs. exact (HKs t Ht). }
{ apply calibrate_f_frame. }
unfold Driver_calibrate. rewrite fst_bind, Ho1. unfold res_bind at 1.
rewrite fst_bind. simpl fst at 1.
destruct (col_K d) as [Ks | e] eqn:EK;
  [| unfold col_K in EK; rewrite HK in EK; discriminate].
unfold res_bind at 1. rewrite fst_bind. simpl fst at 1.
pose proof (col_K_index d Ks EK) as HKs_idx.
assert (Hlen : length (map snd Ks) = length (map (fun r => alpha0 (snd r)) o1)).
{ rewrite !length_map.
  rewrite <- (length_map fst Ks), HKs_idx, <- Hi1.
  unfold frame_index. rewrite length_map. reflexivity. }
unfold broadcast2. rewrite Hlen, Nat.eqb_refl. unfold res_bind at 1.
rewrite fst_bind. simpl fst at 1.
destruct (setitem_array_ok _ _ o1
            (map (fun p => _calibration_index (fst p) (snd p))
                 (combine (map snd Ks) (map (fun r => alpha0 (snd r)) o1))))
  as (o2 & Ho2 & L2).
{ rewrite length_map, length_combine, Hlen, length_map. lia. }
rewrite Ho2. unfold res_bind at 1. simpl fst.
destruct (setitem_series_ok _ _ o2 Ks) as (out & Hout).
{ apply setitem_array_index in Ho2. rewrite Ho2, HKs_idx. exact Hi1. }
exists out. split; [exact Hout |].
apply setitem_series_index in Hout. apply setitem_array_index in Ho2. congruence.
Qed.

End Contract.

End RowOrderTotal.

(** ** The concrete model *)

Lemma ex_driver_init :
  forall (m : Model Q bool) (bs : nat),
    family m = "normal"%string -> family_params m = None ->
    Driver_init ex_bound_module m bs = Ok (ex_driver m bs).
Proof.
  intros [fam params sim] bs Hf Hp. simpl in Hf, Hp. subst. reflexivity.
Qed.

Lemma map_nth_seq :
  forall (A B : Type) (f : A -> B) (d : A) (l : list A),
    map (fun i => f (nth i l d)) (seq 0 (length l)) = map f l.
Proof.
  intros A B f d l. induction l as [| x l IH].
  - reflexivity.
  - simpl. f_equal. rewrite <- seq_shift, map_map. exact IH.
Qed.

Lemma ex_model_per_tile : per_tile ex_model.
Proof.
  exists (fun K => Z.to_nat K).
  exists (fun K theta _ =>
            map (fun j => (theta + inject_Z (Z.of_nat j))%Q) (seq 0 (Z.to_nat K))).
  intros K th nt Hnt. split; [reflexivity |]. split; [reflexivity |].
  unfold array_rows, array_row. simpl.
  rewrite (map_nth_seq _ _
             (fun theta => map (fun j => (theta + inject_Z (Z.of_nat j))%Q)
                               (seq 0 (Z.to_nat K))) 0%Q th).
  rewrite <- (map_map fst
                (fun theta => map (fun j => (theta + inject_Z (Z.of_nat j))%Q)
                                  (seq 0 (Z.to_nat K)))).
  rewrite map_fst_combine by lia. reflexivity.
Qed.

Lemma ex_model_respects_shape : respects_shape ex_model.
Proof.
  intros K th nt HK Hnt. split; [reflexivity |].
  simpl. lia.
Qed.

Lemma batching_transparency_witness :
  fst (batch cat4 (validate__batched betaincinv_domain (ex_driver ex_model 2) 2 (1 # 100))
         (tile_batch_size (ex_driver ex_model 2)) 3
         (map theta ex_group) (map vertices ex_group) (map null_truth ex_group)) =
  fst (validate__batched betaincinv_domain (ex_driver ex_model 2) 2 (1 # 100) 3
         (map theta ex_group) (map vertices ex_group) (map null_truth ex_group)) /\
  fst (batch cat2 (calibrate__batched (ex_driver ex_model 2) (1 # 2))
         (tile_batch_size (ex_driver ex_model 2)) 3
         (map theta ex_group) (map vertices ex_group) (map null_truth ex_group)) =
  fst (calibrate__batched (ex_driver ex_model 2) (1 # 2) 3
         (map theta ex_group) (map vertices ex_group) (map null_truth ex_group)).
Proof.
  assert (Hne : ex_group <> []) by discriminate.
  assert (Hbs : (1 <= 2)%nat) by lia.
  exact (proj1 (batching_transparency betaincinv_domain ex_bound_module ex_model 2
                  (ex_driver ex_model 2) ex_model_per_tile
                  (ex_driver_init ex_model 2 eq_refl eq_refl) Hbs
                  2 (1 # 100) (1 # 2)) 3 ex_group Hne).
Defined.

Lemma shape_mismatch_contract_witness :
  shape_matches short_model (mk_call 0 2 [3 # 2; 0%Q] [true; true]) = false /\
  (exists e,
      fst (Driver_validate betaincinv_domain (ex_driver short_model 2) ex_df 2 (1 # 100))
      = Raise e /\ is_shape_mismatch e = true) /\
  (exists e,
      fst (Driver_calibrate (ex_driver short_model 2) ex_df (1 # 2)) = Raise e /\
      is_shape_mismatch e = true).
Proof.
  assert (Hbad : shape_matches short_model (mk_call 0 2 [3 # 2; 0%Q] [true; true]) = false)
    by reflexivity.
  split; [exact Hbad |].
  destruct (shape_mismatch_contract betaincinv_domain (ex_driver short_model 2) ex_df
              2 (1 # 100) (1 # 2) (mk_call 0 2 [3 # 2; 0%Q] [true; true]) Hbad)
    as (Hv & Hc).
  split.
  - apply Hv. vm_compute. left. reflexivity.
  - apply Hc. vm_compute. left. reflexivity.
Defined.

Lemma tie_count_definition_witness :
  exists (tie_sum : list Z) (tie_est tie_cp_bound tie_bound : list Q),
    fst (validate__batched betaincinv_domain (ex_driver ex_model 2) 2 (1 # 100) 3
           [1 # 2; 5 # 2] [1 # 10; 1 # 10] [true; true]) =
      Ok (tie_sum, tie_est, tie_cp_bound, tie_bound) /\
    nth_error tie_sum 0 = Some 2 /\
    nth_error tie_est 0 = Some (inject_Z 2 / inject_Z 3)%Q.
Proof.
  destruct (tie_count_definition betaincinv_domain (ex_driver ex_model 2) 2 (1 # 100) 3
              [1 # 2; 5 # 2] [1 # 10; 1 # 10] [true; true] eq_refl eq_refl)
    as (c1 & c2 & c3 & c4 & Hok & _ & _ & Hrows).
  exists c1, c2, c3, c4. split; [exact Hok |].
  destruct (Hrows 0%nat ltac:(simpl; lia)) as (s & Hs & Hcount & _ & _ & _ & Hest).
  vm_compute in Hcount. subst s. split; assumption.
Defined.

(** ** What [_setup] does to the caller's grid *)

Section Setup.

Context {Theta Vertices NullTruth : Type}.

Local Abbreviation Grid := (Grid Theta Vertices NullTruth).
Local Abbreviation DataFrame := (DataFrame Theta Vertices NullTruth).
Local Abbreviation world := (world Theta Vertices NullTruth).
Local Abbreviation ModelType := (ModelType Theta NullTruth).

Lemma nth_list_update_same :
  forall (A : Type) (l : list A) (i : nat) (x d : A),
    (i < length l)%nat -> nth i (list_update l i x) d = x.
Proof.
  intros A l. induction l as [| y l IH]; intros i x d Hi; simpl in Hi; [lia |].
  destruct i as [| i]; simpl; [reflexivity | apply IH; lia].
Qed.

Lemma nth_list_update_other :
  forall (A : Type) (l : list A) (i j : nat) (x d : A),
    i <> j -> nth j (list_update l i x) d = nth j l d.
Proof.
  intros A l. induction l as [| y l IH]; intros i j x d Hij.
  - reflexivity.
  - destruct i as [| i]; destruct j as [| j]; simpl; try reflexivity; try lia.
    apply IH. lia.
Qed.

Lemma length_list_update :
  forall (A : Type) (l : list A) (i : nat) (x : A),
    length (list_update l i x) = length l.
Proof.
  intros A l. induction l as [| y l IH]; intros i x.
  - reflexivity.
  - destruct i; simpl; [reflexivity | f_equal; apply IH].
Qed.

Lemma filter_length_lt :
  forall (A : Type) (p : A -> bool) (l : list A),
    forallb p l = false -> (length (filter p l) < length l)%nat.
Proof.
  intros A p l. induction l as [| x l IH]; intros H; simpl in H; [discriminate |].
  simpl. destruct (p x) eqn:E; simpl in H |- *.
  - apply IH in H. lia.
  - pose proof (filter_length_le p l). lia.
Qed.

Lemma filter_length_all :
  forall (A : Type) (p : A -> bool) (l : list A),
    forallb p l = true -> length (filter p l) = length l.
Proof.
  intros A p l. induction l as [| x l IH]; intros H; simpl in H; [reflexivity |].
  apply andb_prop in H. destruct H as (Hx & Hl).
  simpl. rewrite Hx. simpl. f_equal. apply IH. exact Hl.
Qed.

Variable model_type : ModelType.
Variables (g : nat) (model_seed : Z) (K : option Z) (model_kwargs : option kwargs).
Variable w : world.
Hypothesis g_in_store : (g < length (heap w))%nat.

Local Abbreviation x := (nth g (heap w) (mk_Grid (mk_df false []))).

Lemma modify_df_heap :
  forall (w1 : world) (i : nat) (h : DataFrame -> DataFrame),
    modify_df i h w1 =
    (Ok tt,
     mk_world (list_update (heap w1) i
                 (mk_Grid (h (df (nth i (heap w1) (mk_Grid (mk_df false [])))))))
              (sim_calls w1) (warnings w1)).
Proof. reflexivity. Qed.

(** With an inactive tile in the caller's grid, [_setup] works on the
    caller's own object and hands it on: it holds all the tiles, the
    inactive ones too, and its frame is changed in place. *)
Lemma setup_when_pruned :
  forallb active (rows (df x)) = false ->
  fst (_setup model_type g model_seed K model_kwargs w) =
    Ok (setup_model model_type model_seed K model_kwargs (df x), g) /\
  nth g (heap (snd (_setup model_type g model_seed K model_kwargs w)))
      (mk_Grid (mk_df false [])) = mk_Grid (with_K K (df x)) /\
  sim_calls (snd (_setup model_type g model_seed K model_kwargs w)) = sim_calls w /\
  warnings (snd (_setup model_type g model_seed K model_kwargs w)) =
    warnings w ++
    ["Pruning inactive tiles before simulation. Mark these tiles as active if you want to simulate for them."%string].
Proof.
  intros Hina.
  unfold _setup, prune_inactive, bindM, get_grid, new_grid, warnings_warn, retM.
  cbn [heap sim_calls warnings fst snd].
  rewrite nth_middle.
  rewrite app_nth1 by exact g_in_store.
  unfold n_tiles. cbn [df rows].
  pose proof (filter_length_lt _ active (rows (df x)) Hina) as Hlt.
  apply Nat.ltb_lt in Hlt. rewrite Hlt.
  destruct K as [k |].
  - rewrite modify_df_heap. cbn [heap sim_calls warnings fst snd].
    rewrite nth_list_update_same by (rewrite length_app; lia).
    rewrite app_nth1 by exact g_in_store.
    repeat split; reflexivity.
  - cbn [heap sim_calls warnings fst snd].
    rewrite app_nth1 by exact g_in_store.
    unfold setup_model, with_K.
    destruct (has_K (df x)) eqn:EK; cbn [negb].
    + rewrite modify_df_heap. cbn [heap sim_calls warnings fst snd].
      rewrite nth_list_update_same by (rewrite length_app; lia).
      rewrite app_nth1 by exact g_in_store.
      repeat split; reflexivity.
    + rewrite !modify_df_heap. cbn [heap sim_calls warnings fst snd].
      rewrite !nth_list_update_same
        by (rewrite ?length_list_update, length_app; lia).
      rewrite app_nth1 by exact g_in_store.
      repeat split; reflexivity.
Qed.

(** Without inactive tiles [_setup] works on a deep copy: the caller's
    grid stays as it was. *)
Lemma setup_when_all_active :
  forallb active (rows (df x)) = true ->
  exists g',
    fst (_setup model_type g model_seed K model_kwargs w) =
      Ok (setup_model model_type model_seed K model_kwargs (df x), g') /\
    g' <> g /\
    nth g' (heap (snd (_setup model_type g model_seed K model_kwargs w)))
        (mk_Grid (mk_df false [])) = mk_Grid (with_K K (df x)) /\
    nth g (heap (snd (_setup model_type g model_seed K model_kwargs w)))
        (mk_Grid (mk_df false [])) = x /\
    sim_calls (snd (_setup model_type g model_seed K model_kwargs w)) = sim_calls w /\
    warnings (snd (_setup model_type g model_seed K model_kwargs w)) = warnings w.
Proof.
  intros Hact.
  unfold _setup, prune_inactive, copy_deepcopy, bindM, get_grid, new_grid, retM.
  cbn [heap sim_calls warnings fst snd].
  rewrite nth_middle.
  rewrite app_nth1 by exact g_in_store.
  unfold n_tiles. cbn [df rows].
  rewrite (filter_length_all _ active (rows (df x)) Hact), Nat.ltb_irrefl.
  cbn [heap sim_calls warnings fst snd].
  rewrite app_nth1 by exact g_in_store.
  set (p := mk_Grid (mk_df (has_K (df x)) (filter active (rows (df x))))).
  assert (Hlen : length (heap w ++ [p]) = S (length (heap w))).
  { rewrite length_app. simpl. lia. }
  assert (Hcopy : forall d0, nth (length (heap w ++ [p])) ((heap w ++ [p]) ++ [x]) d0 = x).
  { intros d0. apply nth_middle. }
  assert (Horig : forall d0, nth g ((heap w ++ [p]) ++ [x]) d0 = nth g (heap w) d0).
  { intros d0. rewrite !app_nth1; [reflexivity | exact g_in_store |].
    rewrite length_app. lia. }
  destruct K as [k |].
  - rewrite modify_df_heap. cbn [heap sim_calls warnings fst snd].
    rewrite nth_list_update_same by (rewrite !length_app; simpl; lia).
    rewrite nth_list_update_other by lia.
    rewrite Hcopy, Horig.
    eexists. split; [reflexivity |].
    split; [lia |].
    split; [apply nth_list_update_same; rewrite !length_app; simpl; lia |].
    repeat split; reflexivity.
  - cbn [heap sim_calls warnings fst snd]. rewrite Hcopy.
    unfold setup_model, with_K.
    destruct (has_K (df x)) eqn:EK; cbn [negb].
    + rewrite modify_df_heap. cbn [heap sim_calls warnings fst snd].
      rewrite nth_list_update_same by (rewrite !length_app; simpl; lia).
      rewrite nth_list_update_other by lia.
      rewrite Hcopy, Horig.
      eexists. split; [reflexivity |].
      split; [lia |].
      split; [apply nth_list_update_same; rewrite !length_app; simpl; lia |].
      repeat split; reflexivity.
    + rewrite !modify_df_heap. cbn [heap sim_calls warnings fst snd].
      rewrite !nth_list_update_same
        by (rewrite ?length_list_update, !length_app; simpl; lia).
      rewrite !nth_list_update_other by lia.
      rewrite Hcopy, Horig.
      eexists. split; [reflexivity |].
      split; [lia |].
      split;
        [apply nth_list_update_same;
         rewrite ?length_list_update, !length_app; simpl; lia |].
      repeat split; reflexivity.
Qed.

End Setup.

(** ** The top-level operations and the caller's grid *)

Section TopLevel.

Context {Theta Vertices NullTruth : Type}.
Variable betaincinv : Z -> Z -> Q -> option Q.
Variable bound : bound_module Theta Vertices.

Local Abbreviation Grid := (Grid Theta Vertices NullTruth).
Local Abbreviation DataFrame := (DataFrame Theta Vertices NullTruth).
Local Abbreviation Driver := (Driver Theta Vertices NullTruth).
Local Abbreviation world := (world Theta Vertices NullTruth).
Local Abbreviation ModelType := (ModelType Theta NullTruth).
Local Abbreviation call := (call Theta NullTruth).

Variable model_type : ModelType.
Variables (g : nat) (model_seed : Z) (K : option Z) (bs : nat)
          (model_kwargs : option kwargs).
Variable w : world.

Local Abbreviation no_grid := (mk_Grid (mk_df (Theta:=Theta) (Vertices:=Vertices) (NullTruth:=NullTruth) false [])).
Local Abbreviation setup := (_setup model_type g model_seed K model_kwargs w).

Lemma top_level_store :
  forall (A : Type) (op : Driver -> DataFrame -> D call A),
    heap (snd (top_level bound model_type g model_seed K bs model_kwargs op w)) = heap (snd setup) /\
    warnings (snd (top_level bound model_type g model_seed K bs model_kwargs op w)) = warnings (snd setup).
Proof.
  intros A op. unfold top_level, bindM.
  destruct setup as [[[m g'] | e] w1]; simpl; [| split; reflexivity].
  destruct (Driver_init bound m bs); simpl; split; reflexivity.
Qed.

Lemma top_level_run :
  forall (A : Type) (op : Driver -> DataFrame -> D call A) m g' driver,
    fst setup = Ok (m, g') ->
    Driver_init bound m bs = Ok driver ->
    fst (top_level bound model_type g model_seed K bs model_kwargs op w) = fst (op driver (df (nth g' (heap (snd setup)) no_grid))) /\
    sim_calls (snd (top_level bound model_type g model_seed K bs model_kwargs op w)) =
      sim_calls (snd setup) ++ snd (op driver (df (nth g' (heap (snd setup)) no_grid))).
Proof.
  intros A op m g' driver Hs Hd. unfold top_level, bindM.
  destruct setup as [r w1]. simpl in Hs. subst r. simpl.
  rewrite Hd. simpl. split; reflexivity.
Qed.

Lemma validate_top_level :
  forall lam delta,
    validate betaincinv bound model_type g lam delta model_seed K bs model_kwargs =
    top_level bound model_type g model_seed K bs model_kwargs (fun driver d => Driver_validate betaincinv driver d lam delta).
Proof. reflexivity. Qed.

Lemma calibrate_top_level :
  forall alpha,
    calibrate bound model_type g alpha model_seed K bs model_kwargs =
    top_level bound model_type g model_seed K bs model_kwargs (fun driver d => Driver_calibrate driver d alpha).
Proof. reflexivity. Qed.

Hypothesis g_in_store : (g < length (heap w))%nat.

(** C7: the caller's grid after [validate] and [calibrate].  Without
    inactive tiles the operations work on a deep copy and the grid is as
    before; with an inactive tile they work on the caller's object, whose
    frame gets the column K assigned or defaulted in place. *)
Theorem caller_grid_after_call :
  forall (lam delta alpha : Q),
    let x := nth g (heap w) no_grid in
    let after_validate :=
      nth g (heap (snd (validate betaincinv bound model_type g lam delta
                          model_seed K bs model_kwargs w))) no_grid in
    let after_calibrate :=
      nth g (heap (snd (calibrate bound model_type g alpha
                          model_seed K bs model_kwargs w))) no_grid in
    (forallb active (rows (df x)) = true ->
     after_validate = x /\ after_calibrate = x) /\
    (forallb active (rows (df x)) = false ->
     after_validate = mk_Grid (with_K K (df x)) /\
     after_calibrate = mk_Grid (with_K K (df x))).
Proof.
  intros lam delta alpha x after_validate after_calibrate.
  unfold after_validate, after_calibrate.
  rewrite validate_top_level, calibrate_top_level.
  rewrite (proj1 (top_level_store _ _)), (proj1 (top_level_store _ _)).
  split; intros Hact.
  - destruct (setup_when_all_active model_type g model_seed K model_kwargs w
                g_in_store Hact) as (g' & _ & _ & _ & Hg & _).
    split; exact Hg.
  - destruct (setup_when_pruned model_type g model_seed K model_kwargs w
                g_in_store Hact) as (_ & Hg & _).
    split; exact Hg.
Qed.

(** C8: with an inactive tile in the grid, [validate] and [calibrate] warn
    and then run the driver on the frame of the caller's grid with all
    its tiles, the inactive ones too: nothing is dropped from
    simulation. *)
Theorem inactive_tiles_not_pruned :
  forall (lam delta alpha : Q) (driver : Driver),
    let x := nth g (heap w) no_grid in
    let d := with_K K (df x) in
    forallb active (rows (df x)) = false ->
    Driver_init bound
      (setup_model model_type model_seed K model_kwargs (df x)) bs = Ok driver ->
    map active (rows d) = map active (rows (df x)) /\
    warnings (snd (validate betaincinv bound model_type g lam delta
                     model_seed K bs model_kwargs w)) =
      warnings w ++
      ["Pruning inactive tiles before simulation. Mark these tiles as active if you want to simulate for them."%string] /\
    fst (validate betaincinv bound model_type g lam delta
           model_seed K bs model_kwargs w) =
      fst (Driver_validate betaincinv driver d lam delta) /\
    sim_calls (snd (validate betaincinv bound model_type g lam delta
                      model_seed K bs model_kwargs w)) =
      sim_calls w ++ snd (Driver_validate betaincinv driver d lam delta) /\
    fst (calibrate bound model_type g alpha model_seed K bs model_kwargs w) =
      fst (Driver_calibrate driver d alpha) /\
    sim_calls (snd (calibrate bound model_type g alpha
                      model_seed K bs model_kwargs w)) =
      sim_calls w ++ snd (Driver_calibrate driver d alpha).
Proof.
  intros lam delta alpha driver x d Hact Hinit.
  destruct (setup_when_pruned model_type g model_seed K model_kwargs w
              g_in_store Hact) as (Hs & Hg & Hc & Hw).
  fold x in Hs, Hg. fold d in Hg.
  split.
  { unfold d, with_K, assign_K, replace_zero_K.
    destruct K as [k |]; [| destruct (has_K (df x))]; simpl;
      rewrite ?map_map; apply map_ext; intros t;
        try destruct (tile_K t =? 0); reflexivity. }
  rewrite validate_top_level, calibrate_top_level.
  rewrite (proj2 (top_level_store _ _)).
  destruct (top_level_run _ (fun driver d => Driver_validate betaincinv driver d lam delta)
              _ _ driver Hs Hinit) as (Hv1 & Hv2).
  destruct (top_level_run _ (fun driver d => Driver_calibrate driver d alpha)
              _ _ driver Hs Hinit) as (Hc1 & Hc2).
  rewrite Hg in Hv1, Hv2, Hc1, Hc2. rewrite Hc in Hv2, Hc2.
  simpl df in Hv1, Hv2, Hc1, Hc2.
  repeat split; assumption.
Qed.

End TopLevel.

(** ** Row order: the three methods of the driver *)

Lemma has_dup_false_NoDup : forall l : list Z, has_dup l = false -> NoDup l.
Proof.
  intros l. induction l as [| x t IH]; intros H; simpl in H.
  - constructor.
  - apply orb_false_iff in H. destruct H as (Hx & Ht).
    constructor; [| apply IH; exact Ht].
    intros Hin.
    assert (Hex : existsb (Z.eqb x) t = true).
    { apply existsb_exists. exists x. split; [exact Hin | apply Z.eqb_refl]. }
    congruence.
Qed.

Section RowOrderClaim.

Context {Theta Vertices NullTruth : Type}.
Variable betaincinv : Z -> Z -> Q -> option Q.
Variable bound : bound_module Theta Vertices.

Local Abbreviation Driver := (Driver Theta Vertices NullTruth).
Local Abbreviation DataFrame := (DataFrame Theta Vertices NullTruth).
Local Abbreviation Model := (Model Theta NullTruth).

(** The column K is assigned last, as a Series with the index of the
    input: the assignment goes through when the frame has that index, or
    when the labels of the input are distinct. *)
Lemma setitem_K_index :
  forall (R : Type) (d : DataFrame) (o : frame R) (Ks : list (Z * Z))
         (out : frame (R * option Z)),
    col_K d = Ok Ks -> setitem_series o Ks = Ok out ->
    (NoDup (df_index d) -> frame_index o = df_index d) ->
    frame_index out = df_index d.
Proof.
  intros R d o Ks out EK H Hnd.
  pose proof (col_K_index d Ks EK) as HKs.
  pose proof (setitem_series_index _ _ o Ks out H) as Hidx.
  unfold setitem_series in H.
  destruct (list_eq_dec Z.eq_dec (frame_index o) (map fst Ks)) as [E | _].
  - congruence.
  - destruct (has_dup (map fst Ks)) eqn:Edup; [discriminate |].
    rewrite HKs in Edup. apply has_dup_false_NoDup in Edup.
    rewrite Hidx. apply Hnd. exact Edup.
Qed.

(** Whenever [Driver.validate] returns a frame, its index is the index
    of the input: with a repeated label it does not return. *)
Lemma Driver_validate_keeps_index :
  forall (self : Driver) (d : DataFrame) (lam delta : Q)
         (out : frame (validate_row * option Z)),
    fst (Driver_validate betaincinv self d lam delta) = Ok out ->
    frame_index out = df_index d.
Proof.
  intros self d lam delta out H. unfold Driver_validate in H.
  rewrite fst_bind in H.
  destruct (fst (_groupby_apply_K d _)) as [o1 | e] eqn:E1; simpl in H; [| discriminate].
  rewrite fst_bind in H. simpl fst at 1 in H.
  destruct (col_K d) as [Ks | e] eqn:EK; simpl in H; [| discriminate].
  apply (setitem_K_index _ d o1 Ks out EK H).
  intros Hnd.
  apply (groupby_apply_K_index _ d _ o1 Hnd (validate_f_frame betaincinv self lam delta) E1).
Qed.

Lemma Driver_calibrate_keeps_index :
  forall (self : Driver) (d : DataFrame) (alpha : Q)
         (out : frame (calibrate_row * Z * option Z)),
    fst (Driver_calibrate self d alpha) = Ok out ->
    frame_index out = df_index d.
Proof.
  intros self d alpha out H. unfold Driver_calibrate in H.
  rewrite fst_bind in H.
  destruct (fst (_groupby_apply_K d _)) as [o1 | e] eqn:E1; simpl in H; [| discriminate].
  rewrite fst_bind in H. simpl fst at 1 in H.
  destruct (col_K d) as [Ks | e] eqn:EK; simpl in H; [| discriminate].
  rewrite fst_bind in H. simpl fst at 1 in H.
  destruct (broadcast2 _ _ _) as [idx | e]; simpl in H; [| discriminate].
  rewrite fst_bind in H. simpl fst at 1 in H.
  destruct (setitem_array o1 idx) as [o2 | e] eqn:E2; simpl in H; [| discriminate].
  apply (setitem_K_index _ d o2 Ks out EK H).
  intros Hnd. apply setitem_array_index in E2. rewrite E2.
  apply (groupby_apply_K_index _ d _ o1 Hnd (calibrate_f_frame self alpha) E1).
Qed.

(** C5: the row order of the results of the three methods.
    [Driver.validate] and [Driver.calibrate] keep it: whenever one of them
    returns, for any input, the index of its result is the index of the
    input, in the order of the input; and they do return for a non-empty
    collection with distinct labels and K >= 1 and a model that returns
    matrices of the requested shape.  [Driver.stats] returns no rows at
    all: its groups yield bare arrays, which [pd.concat] does not take,
    and it raises for every input. *)
Theorem row_order_of_results :
  forall (m : Model) (bs : nat) (self : Driver) (d : DataFrame)
         (lam delta alpha : Q),
    (forall out,
        fst (Driver_validate betaincinv self d lam delta) = Ok out ->
        frame_index out = df_index d) /\
    (forall out,
        fst (Driver_calibrate self d alpha) = Ok out ->
        frame_index out = df_index d) /\
    (Driver_init bound m bs = Ok self -> (1 <= bs)%nat ->
     respects_shape m ->
     has_K d = true -> rows d <> [] -> NoDup (df_index d) ->
     Forall (fun t => 1 <= tile_K t) (rows d) ->
     (exists out, fst (Driver_validate betaincinv self d lam delta) = Ok out) /\
     (exists out, fst (Driver_calibrate self d alpha) = Ok out)) /\
    (exists e, fst (Driver_stats self d) = Raise e).
Proof.
  intros m bs self d lam delta alpha.
  split; [| split; [| split]].
  - intros out. apply Driver_validate_keeps_index.
  - intros out. apply Driver_calibrate_keeps_index.
  - intros Hinit Hbs Hm HK Hne Hnd HKs.
    destruct (Driver_init_fields bound m bs self Hinit)
      as (Hmodel & Hsize & b & params & Hf & Hb).
    assert (Hpos : (0 < tile_batch_size self)%nat) by lia.
    split.
    + destruct (Driver_validate_ok betaincinv m self (forward b params)
                  Hm Hmodel Hf Hpos d lam delta HK Hne Hnd HKs) as (out & Ho & _).
      exists out. exact Ho.
    + destruct (Driver_calibrate_ok m self (backward b params)
                  Hm Hmodel Hb Hpos d alpha HK Hne Hnd HKs) as (out & Ho & _).
      exists out. exact Ho.
  - apply Driver_stats_raises.
Qed.

End RowOrderClaim.

Lemma ex_df_labels_distinct : NoDup (df_index ex_df).
Proof.
  unfold ex_df, df_index. simpl.
  repeat constructor; simpl; intuition discriminate.
Qed.

Lemma row_order_of_results_witness :
  (exists out,
      fst (Driver_validate betaincinv_domain (ex_driver ex_model 2) ex_df 2 (1 # 100)) = Ok out /\
      frame_index out = [10; 11; 12; 13]) /\
  (exists e, fst (Driver_stats (ex_driver ex_model 2) ex_df) = Raise e).
Proof.
  assert (Hbs : (1 <= 2)%nat) by lia.
  assert (Hne : rows ex_df <> []) by discriminate.
  assert (HKs : Forall (fun t : tile Q Q bool => 1 <= tile_K t) (rows ex_df)).
  { unfold ex_df. simpl. repeat constructor; simpl; lia. }
  destruct (row_order_of_results betaincinv_domain ex_bound_module ex_model 2
              (ex_driver ex_model 2) ex_df 2 (1 # 100) (1 # 2))
    as (Hidx & _ & Hret & Hstats).
  destruct (Hret (ex_driver_init ex_model 2 eq_refl eq_refl) Hbs
              ex_model_respects_shape eq_refl Hne ex_df_labels_distinct HKs)
    as ((out & Hout) & _).
  split; [| exact Hstats].
  exists out. split; [exact Hout | exact (Hidx out Hout)].
Defined.

(** At the tiles of [ex_df], [Driver.stats] simulates both groups and then
    fails to concatenate their arrays. *)
Lemma Driver_stats_example :
  fst (Driver_stats (ex_driver ex_model 2) ex_df) =
    Raise (TypeError "cannot concatenate object; only Series and DataFrame objs are valid") /\
  length (snd (Driver_stats (ex_driver ex_model 2) ex_df)) = 2%nat.
Proof. split; reflexivity. Qed.

(** With a repeated label the regrouped rows come back once per
    occurrence and [Driver.validate] raises when it assigns the column K;
    for an empty collection there is nothing to concatenate. *)
Lemma repeated_label_example :
  df_index dup_df = [0; 0] /\
  (exists out,
      fst (_groupby_apply_K dup_df
             (validate_f betaincinv_domain (ex_driver ex_model 2) 2 (1 # 100))) = Ok out /\
      frame_index out = [0; 0; 0; 0]) /\
  fst (Driver_validate betaincinv_domain (ex_driver ex_model 2) dup_df 2 (1 # 100)) =
    Raise (ValueError DuplicateLabels) /\
  fst (Driver_validate betaincinv_domain (ex_driver ex_model 2) (mk_df true []) 2 (1 # 100)) =
    Raise (ValueError NoObjectsToConcatenate) /\
  fst (Driver_calibrate (ex_driver ex_model 2) (mk_df true []) (1 # 2)) =
    Raise (ValueError NoObjectsToConcatenate).
Proof.
  split; [reflexivity |]. split.
  - eexists. split; [vm_compute; reflexivity | reflexivity].
  - repeat split; vm_compute; reflexivity.
Qed.

(** ** The caller's grid, at a grid with an inactive tile *)

Lemma caller_grid_after_call_witness :
  nth 0 (heap (snd (validate betaincinv_domain ex_bound_module ex_model_type 0 2 (1 # 100)
                      0 (Some 5) 2 None ex_world))) (mk_Grid (mk_df false []))
  = mk_Grid (assign_K 5 ex_df) /\
  mk_Grid (assign_K 5 ex_df) <> nth 0 (heap ex_world) (mk_Grid (mk_df false [])).
Proof.
  assert (Hg : (0 < length (heap ex_world))%nat) by (simpl; lia).
  split.
  - exact (proj1 (proj2 (caller_grid_after_call betaincinv_domain ex_bound_module
                           ex_model_type 0 0 (Some 5) 2 None ex_world Hg
                           2 (1 # 100) (1 # 2)) eq_refl)).
  - simpl. intros H. discriminate H.
Defined.

Lemma inactive_tiles_not_pruned_witness :
  In (mk_call 0 2 [3 # 2; 0%Q] [true; true])
     (sim_calls (snd (validate betaincinv_domain ex_bound_module ex_model_type 0 2 (1 # 100)
                        0 None 2 None ex_world))) /\
  (exists out,
      fst (validate betaincinv_domain ex_bound_module ex_model_type 0 2 (1 # 100)
             0 None 2 None ex_world) = Ok out /\
      frame_index out = [10; 11; 12; 13]).
Proof.
  assert (Hg : (0 < length (heap ex_world))%nat) by (simpl; lia).
  destruct (inactive_tiles_not_pruned betaincinv_domain ex_bound_module
              ex_model_type 0 0 None 2 None ex_world Hg
              2 (1 # 100) (1 # 2) (ex_driver ex_model 2) eq_refl eq_refl)
    as (_ & _ & Hres & Hcalls & _).
  split.
  - rewrite Hcalls. vm_compute. left. reflexivity.
  - rewrite Hres. eexists. split; [vm_compute; reflexivity | reflexivity].
Defined.

(** ** A model that depends on the batch *)

(** C1 as stated fails: for a model that looks at the size of its batch,
    two tiles simulated one by one and simulated together give different
    tie counts. *)
Lemma batching_changes_result :
  Driver_init ex_bound_module batch_size_model 1 = Ok (ex_driver batch_size_model 1) /\
  fst (batch cat4
         (validate__batched betaincinv_domain (ex_driver batch_size_model 1) (3 # 2) (1 # 100))
         1 1 [1 # 2; 3 # 2] [1 # 10; 1 # 10] [true; true]) =
    Ok ([1; 1], [1 # 1; 1 # 1]%Q, [0; 0]%Q, [1 # 10; 1 # 10]%Q) /\
  fst (validate__batched betaincinv_domain (ex_driver batch_size_model 1) (3 # 2) (1 # 100)
         1 [1 # 2; 3 # 2] [1 # 10; 1 # 10] [true; true]) =
    Ok ([0; 0], [0 # 1; 0 # 1]%Q, [99 # 100; 99 # 100]%Q, [1090 # 1000; 1090 # 1000]%Q) /\
  fst (batch cat4
         (validate__batched betaincinv_domain (ex_driver batch_size_model 1) (3 # 2) (1 # 100))
         1 1 [1 # 2; 3 # 2] [1 # 10; 1 # 10] [true; true]) <>
  fst (validate__batched betaincinv_domain (ex_driver batch_size_model 1) (3 # 2) (1 # 100)
         1 [1 # 2; 3 # 2] [1 # 10; 1 # 10] [true; true]).
Proof.
  split; [reflexivity |].
  split; [vm_compute; reflexivity |].
  split; [vm_compute; reflexivity |].
  vm_compute. intros H. discriminate H.
Qed.

(** * Further properties of the driver *)

(** ** Construction of the driver *)

Lemma find_key_some :
  forall (B : Type) (l : list (string * B)) (k : string) (e : string * B),
    find (fun e => String.eqb (fst e) k) l = Some e -> In e l /\ fst e = k.
Proof.
  intros B l k e H. apply find_some in H. destruct H as (Hin & Heq).
  split; [exact Hin | apply String.eqb_eq; exact Heq].
Qed.

Lemma find_key_none :
  forall (B : Type) (l : list (string * B)) (k : string),
    find (fun e => String.eqb (fst e) k) l = None <-> ~ In k (map fst l).
Proof.
  intros B l k. split.
  - intros H Hin. apply in_map_iff in Hin. destruct Hin as (e & He & Hin).
    pose proof (find_none _ _ H e Hin) as Hn. simpl in Hn.
    rewrite He, String.eqb_refl in Hn. discriminate.
  - intros Hn. destruct (find _ l) as [e |] eqn:E; [| reflexivity].
    exfalso. apply find_key_some in E. destruct E as (Hin & <-).
    apply Hn. apply in_map. exact Hin.
Qed.

Section DriverInit.

Context {Theta Vertices NullTruth : Type}.
Variable bound : bound_module Theta Vertices.

Local Abbreviation Model := (Model Theta NullTruth).
Local Abbreviation Driver := (Driver Theta Vertices NullTruth).

(** X1: [Driver(model, tile_batch_size=bs)] looks the family of the model
    up in [bound_dict].  For one of its five keys the driver holds the
    model, the batch size and the two bounds of the class of that family,
    at the family parameters of the model ([{}] when it has none); for any
    other family the lookup raises [KeyError(family)]. *)
Theorem Driver_init_family :
  forall (m : Model) (bs : nat),
    let params := match family_params m with Some p => p | None => [] end in
    map fst (bound_dict bound) =
      ["normal"; "normal2"; "scaled_chisq"; "binomial"; "exponential"]%string /\
    (In (family m) (map fst (bound_dict bound)) ->
     exists b : BoundType Theta Vertices,
       In (family m, b) (bound_dict bound) /\
       Driver_init bound m bs =
         Ok (mk_Driver m bs (get_forward_bound b params) (get_backward_bound b params))) /\
    (~ In (family m) (map fst (bound_dict bound)) ->
     Driver_init (NullTruth:=NullTruth) bound m bs = Raise (KeyError (family m))).
Proof.
  intros m bs params. split; [reflexivity |].
  unfold Driver_init, get_bound. fold params.
  destruct (find (fun e => String.eqb (fst e) (family m)) (bound_dict bound))
    as [[k b] |] eqn:E.
  - pose proof (find_key_some _ _ _ _ E) as (Hin & Hk). simpl in Hk. subst k.
    split.
    + intros _. exists b. split; [exact Hin | reflexivity].
    + intros Hn. exfalso. apply Hn. apply (in_map fst) in Hin. exact Hin.
  - apply find_key_none in E. split.
    + intros Hin. contradiction.
    + intros _. reflexivity.
Qed.

End DriverInit.

Section EdgeCases.

Context {Theta Vertices NullTruth : Type}.
Variable betaincinv : Z -> Z -> Q -> option Q.

Local Abbreviation Model := (Model Theta NullTruth).
Local Abbreviation Driver := (Driver Theta Vertices NullTruth).
Local Abbreviation DataFrame := (DataFrame Theta Vertices NullTruth).
Local Abbreviation call := (call Theta NullTruth).

Lemma groupby_apply_K_no_column :
  forall (R : Type) (d : DataFrame) (f : Z -> DataFrame -> D call (pyobj R)),
    has_K d = false -> _groupby_apply_K d f = (Raise (KeyError "K"), []).
Proof.
  intros R d f H. unfold _groupby_apply_K, groupby_K. rewrite H. reflexivity.
Qed.

Lemma groupby_apply_K_no_rows :
  forall (R : Type) (d : DataFrame) (f : Z -> DataFrame -> D call (pyobj R)),
    has_K d = true -> rows d = [] ->
    _groupby_apply_K d f = (Raise (ValueError NoObjectsToConcatenate), []).
Proof.
  intros R d f H Hr. unfold _groupby_apply_K, groupby_K. rewrite H, Hr. reflexivity.
Qed.

(** X2: the three methods of the driver group by the column K first: on a
    frame without that column they raise [KeyError("K")] and the
    simulation model is not invoked. *)
Theorem driver_needs_column_K :
  forall (self : Driver) (d : DataFrame) (lam delta alpha : Q),
    has_K d = false ->
    Driver_stats self d = (Raise (KeyError "K"), []) /\
    Driver_validate betaincinv self d lam delta = (Raise (KeyError "K"), []) /\
    Driver_calibrate self d alpha = (Raise (KeyError "K"), []).
Proof.
  intros self d lam delta alpha H.
  unfold Driver_stats, Driver_validate, Driver_calibrate.
  rewrite !groupby_apply_K_no_column by exact H.
  repeat split; reflexivity.
Qed.

(** X3: on a tile collection without rows there is no group and nothing to
    concatenate: the three methods raise the [ValueError] of [pd.concat]
    and the simulation model is not invoked. *)
Theorem driver_rejects_empty_collection :
  forall (self : Driver) (d : DataFrame) (lam delta alpha : Q),
    has_K d = true -> rows d = [] ->
    Driver_stats self d = (Raise (ValueError NoObjectsToConcatenate), []) /\
    Driver_validate betaincinv self d lam delta =
      (Raise (ValueError NoObjectsToConcatenate), []) /\
    Driver_calibrate self d alpha = (Raise (ValueError NoObjectsToConcatenate), []).
Proof.
  intros self d lam delta alpha H Hr.
  unfold Driver_stats, Driver_validate, Driver_calibrate.
  rewrite !groupby_apply_K_no_rows by assumption.
  repeat split; reflexivity.
Qed.

End EdgeCases.

(** ** Duplicate labels *)

Section DuplicateLabels.

Lemma has_dup_true : forall l : list Z, ~ NoDup l -> has_dup l = true.
Proof.
  intros l H. destruct (has_dup l) eqn:E; [reflexivity |].
  exfalso. apply H. apply has_dup_false_NoDup. exact E.
Qed.

Lemma count_label :
  forall (R : Type) (fr : frame R) (l : Z),
    length (filter (fun r => fst r =? l) fr) = count_occ Z.eq_dec (frame_index fr) l.
Proof.
  intros R fr l. induction fr as [| [k x] fr IH]; simpl.
  - reflexivity.
  - destruct (Z.eqb_spec k l) as [-> | Hne].
    + destruct (Z.eq_dec l l) as [_ | n]; [| congruence]. simpl. f_equal. exact IH.
    + destruct (Z.eq_dec k l) as [e | _]; [congruence |]. exact IH.
Qed.

(** [fr.loc[labels]] returns, for each label, as many rows as carry it. *)
Lemma length_loc :
  forall (R : Type) (fr : frame R) (labels : list Z) (out : frame R),
    loc fr labels = Ok out ->
    length out = list_sum (map (count_occ Z.eq_dec (frame_index fr)) labels).
Proof.
  intros R fr labels. unfold loc.
  induction labels as [| l labels IH]; intros out H.
  - simpl in H. injection H as <-. reflexivity.
  - simpl in H. unfold loc_label at 1 in H.
    pose proof (count_label R fr l) as Hc.
    destruct (filter (fun r => fst r =? l) fr) as [| r rs]; [discriminate |].
    cbn [res_bind] in H.
    destruct (res_mapM (loc_label fr) labels) as [frs | e]; [| discriminate].
    cbn [res_bind] in H. injection H as <-.
    change (r :: rs ++ concat frs) with ((r :: rs) ++ concat frs).
    rewrite length_app, Hc, (IH (concat frs) eq_refl). reflexivity.
Qed.

Lemma list_sum_count :
  forall (c : Z -> nat) (l : list Z),
    (forall x, In x l -> (1 <= c x)%nat) ->
    (length l <= list_sum (map c l))%nat /\
    (list_sum (map c l) = length l -> forall x, In x l -> c x = 1%nat).
Proof.
  intros c l. induction l as [| y t IH]; intros H.
  - split; [simpl; lia | intros _ x []].
  - destruct IH as (Hle & Heq).
    { intros x Hx. apply H. right. exact Hx. }
    pose proof (H y (or_introl eq_refl)) as Hy.
    simpl. split; [lia |].
    intros E x [<- | Hx]; [lia |]. apply Heq; [lia | exact Hx].
Qed.

Lemma length_loc_duplicates :
  forall (R : Type) (fr : frame R) (labels : list Z) (out : frame R),
    Permutation (frame_index fr) labels -> ~ NoDup labels ->
    loc fr labels = Ok out -> (length labels < length out)%nat.
Proof.
  intros R fr labels out Hperm Hdup H.
  apply length_loc in H. rewrite H.
  assert (Hc : forall x, In x labels ->
                 (1 <= count_occ Z.eq_dec (frame_index fr) x)%nat).
  { intros x Hx. apply (proj1 (count_occ_In Z.eq_dec _ x)).
    eapply Permutation_in; [symmetry; exact Hperm | exact Hx]. }
  destruct (list_sum_count _ labels Hc) as (Hle & Heq).
  destruct (Nat.eq_dec (list_sum (map (count_occ Z.eq_dec (frame_index fr)) labels))
              (length labels)) as [E | E]; [| lia].
  exfalso. apply Hdup. apply (NoDup_count_occ' Z.eq_dec). intros x Hx.
  rewrite <- (proj1 (Permutation_count_occ Z.eq_dec _ _) Hperm x).
  apply Heq; assumption.
Qed.

Context {Theta Vertices NullTruth : Type}.
Variable betaincinv : Z -> Z -> Q -> option Q.

Local Abbreviation Driver := (Driver Theta Vertices NullTruth).
Local Abbreviation DataFrame := (DataFrame Theta Vertices NullTruth).
Local Abbreviation call := (call Theta NullTruth).

(** With a repeated label, the frame that [_groupby_apply_K] returns has
    more rows than its input. *)
Lemma groupby_apply_K_duplicates :
  forall (R : Type) (d : DataFrame) (f : Z -> DataFrame -> D call (pyobj R))
         (out : frame R),
    ~ NoDup (df_index d) ->
    (forall K K_df o,
        fst (f K K_df) = Ok o ->
        exists fr, o = PdFrame fr /\ frame_index fr = df_index K_df) ->
    fst (_groupby_apply_K d f) = Ok out ->
    (length (rows d) < length out)%nat.
Proof.
  intros R d f out Hdup Hf H. rewrite fst_groupby_apply_K in H.
  destruct (groupby_K d) as [groups | e] eqn:Eg; simpl in H; [| discriminate].
  destruct (res_mapM _ groups) as [outs | e] eqn:Em; simpl in H; [| discriminate].
  destruct (pd_concat outs) as [all | e] eqn:Ec; simpl in H; [| discriminate].
  apply pd_concat_ok_inv in Ec. destruct Ec as (frs & -> & _ & ->).
  apply res_mapM_Forall2 in Em.
  assert (Hidx : concat (map frame_index frs) =
                 concat (map (fun g => df_index (snd g)) groups)).
  { clear -Em Hf. revert frs Em. induction groups as [| g groups IH]; intros frs Em.
    - inversion Em as [E |]. destruct frs; [reflexivity | discriminate].
    - destruct frs as [| fr frs]; [inversion Em |].
      simpl in Em. inversion Em as [| ? ? ? ? Hg Hrest]; subst.
      destruct (Hf _ _ _ Hg) as (fr' & E & Hfr). injection E as <-.
      simpl. rewrite Hfr, (IH frs Hrest). reflexivity. }
  pose proof (groupby_K_partition d groups Eg) as Hperm.
  rewrite <- Hidx, <- frame_index_concat in Hperm.
  pose proof (length_loc_duplicates R _ _ _ Hperm Hdup H) as Hlen.
  unfold df_index in Hlen. rewrite length_map in Hlen. exact Hlen.
Qed.

Lemma NoDup_short : forall l : list Z, ~ NoDup l -> (2 <= length l)%nat.
Proof.
  intros l H. destruct l as [| x [| y t]]; simpl; try lia; exfalso; apply H.
  - constructor.
  - constructor; [intros [] | constructor].
Qed.

(** X4: a tile collection with a repeated index label is rejected: the
    re-indexing [.loc[df.index]] returns the rows of a repeated label once
    per occurrence, and the columns assigned afterwards no longer fit. *)
Theorem duplicate_labels_rejected :
  forall (self : Driver) (d : DataFrame) (lam delta alpha : Q),
    ~ NoDup (df_index d) ->
    (exists e, fst (Driver_validate betaincinv self d lam delta) = Raise e) /\
    (exists e, fst (Driver_calibrate self d alpha) = Raise e).
Proof.
  intros self d lam delta alpha Hdup. split.
  - unfold Driver_validate. rewrite fst_bind.
    destruct (fst (_groupby_apply_K d _)) as [o1 | e] eqn:E1;
      [| eexists; reflexivity].
    apply groupby_apply_K_duplicates in E1; [| exact Hdup | apply validate_f_frame].
    cbn [res_bind]. rewrite fst_bind.
    change (fst (lift (col_K d))) with (col_K d).
    destruct (col_K d) as [Ks | e] eqn:EK; [| eexists; reflexivity].
    cbn [res_bind]. change (fst (lift ?r)) with r.
    pose proof (col_K_index d Ks EK) as HKs.
    unfold setitem_series.
    destruct (list_eq_dec Z.eq_dec (frame_index o1) (map fst Ks)) as [E | _].
    + exfalso. apply (f_equal (@length Z)) in E. rewrite HKs in E.
      unfold frame_index, df_index in E. rewrite !length_map in E. lia.
    + rewrite HKs, (has_dup_true _ Hdup). eexists. reflexivity.
  - unfold Driver_calibrate. rewrite fst_bind.
    destruct (fst (_groupby_apply_K d _)) as [o1 | e] eqn:E1;
      [| eexists; reflexivity].
    apply groupby_apply_K_duplicates in E1; [| exact Hdup | apply calibrate_f_frame].
    cbn [res_bind]. rewrite fst_bind.
    change (fst (lift (col_K d))) with (col_K d).
    destruct (col_K d) as [Ks | e] eqn:EK; [| eexists; reflexivity].
    cbn [res_bind]. rewrite fst_bind.
    pose proof (col_K_index d Ks EK) as HKs.
    pose proof (NoDup_short _ Hdup) as H2.
    assert (HlK : length (map snd Ks) = length (rows d)).
    { rewrite length_map, <- (length_map fst Ks), HKs. unfold df_index.
      apply length_map. }
    assert (Hlo : length (map (fun r => alpha0 (snd r)) o1) = length o1)
      by apply length_map.
    unfold df_index in H2. rewrite length_map in H2.
    change (fst (lift ?r)) with r.
    unfold broadcast2.
    destruct (Nat.eqb_spec (length (map snd Ks))
                (length (map (fun r => alpha0 (snd r)) o1))) as [E | _]; [lia |].
    destruct (map snd Ks) as [| k1 [| k2 ks]]; simpl in HlK; try lia.
    destruct (map (fun r => alpha0 (snd r)) o1) as [| a1 [| a2 al]];
      simpl in Hlo; try lia.
    eexists. reflexivity.
Qed.

End DuplicateLabels.

(** ** No simulation after a shape mismatch *)

Section FailsFast.

Context {Theta Vertices NullTruth : Type}.
Variable betaincinv : Z -> Z -> Q -> option Q.

Local Abbreviation Driver := (Driver Theta Vertices NullTruth).
Local Abbreviation DataFrame := (DataFrame Theta Vertices NullTruth).
Local Abbreviation Model := (Model Theta NullTruth).
Local Abbreviation call := (call Theta NullTruth).

Lemma fails_fast_quiet :
  forall (m : Model) (A : Type) (c : D call A), snd c = [] -> fails_fast m c.
Proof.
  intros m A c Hc pre x post H. rewrite Hc in H.
  destruct pre; discriminate H.
Qed.

Lemma app_eq_middle :
  forall (A : Type) (l1 l2 pre post : list A) (x : A),
    l1 ++ l2 = pre ++ x :: post ->
    (exists post1, l1 = pre ++ x :: post1 /\ post = post1 ++ l2) \/
    (exists pre2, l2 = pre2 ++ x :: post /\ pre = l1 ++ pre2).
Proof.
  intros A l1. induction l1 as [| y l1 IH]; intros l2 pre post x H.
  - right. exists pre. split; [exact H | reflexivity].
  - destruct pre as [| z pre]; simpl in H.
    + injection H as -> H. left. exists l1. split; [reflexivity | symmetry; exact H].
    + injection H as -> H. destruct (IH _ _ _ _ H) as [(p1 & -> & ->) | (p2 & -> & ->)].
      * left. exists p1. split; reflexivity.
      * right. exists p2. split; reflexivity.
Qed.

Lemma fails_fast_bind :
  forall (m : Model) (A B : Type) (c : D call A) (k : A -> D call B),
    fails_fast m c -> (forall a, fails_fast m (k a)) -> fails_fast m (bind c k).
Proof.
  intros m A B c k Hc Hk pre x post H Hbad.
  rewrite snd_bind in H. rewrite fst_bind.
  apply app_eq_middle in H. destruct H as [(post1 & H1 & ->) | (pre2 & H2 & ->)].
  - destruct (Hc pre x post1 H1 Hbad) as (-> & e & He & Hs).
    rewrite He. simpl. split; [reflexivity |].
    exists e. split; [reflexivity | exact Hs].
  - destruct (fst c) as [a | e]; [| destruct pre2; discriminate H2].
    simpl. exact (Hk a pre2 x post H2 Hbad).
Qed.

Lemma fails_fast_mapM :
  forall (m : Model) (A B : Type) (f : A -> D call B) (l : list A),
    (forall x, fails_fast m (f x)) -> fails_fast m (mapM f l).
Proof.
  intros m A B f l Hf. induction l as [| x t IH].
  - apply fails_fast_quiet. reflexivity.
  - simpl mapM. apply fails_fast_bind; [apply Hf |].
    intros y. apply fails_fast_bind; [exact IH |].
    intros ys. apply fails_fast_quiet. reflexivity.
Qed.

(** The step that every group of [stats] and every sub-batch of
    [validate] and [calibrate] starts with: simulate, then check. *)
Lemma fails_fast_checked :
  forall (m : Model) (A : Type) (K : Z) (th : list Theta) (nt : list NullTruth)
         (k : ndarray -> D call A),
    (forall stats, fails_fast m (k stats)) ->
    fails_fast m
      (stats <- call_sim_batch m 0 K th nt ;;
       _ <- lift (_check_stats stats K th) ;;
       k stats).
Proof.
  intros m A K th nt k Hk pre x post H Hbad.
  rewrite snd_bind in H. rewrite fst_bind.
  cbn [call_sim_batch fst snd res_bind] in H |- *.
  rewrite snd_bind in H. rewrite fst_bind.
  change (snd (lift ?r)) with (@nil call) in H.
  change (fst (lift ?r)) with r in H |- *.
  cbn [app] in H.
  destruct pre as [| y pre].
  - simpl in H. injection H as <- H.
    unfold shape_matches in Hbad. cbn [seed_offset call_K call_theta call_null_truth] in Hbad.
    unfold _check_stats in H |- *.
    destruct (shape0 (sim_batch m 0 K th nt) =? length th)%nat; cbn [negb andb] in *.
    + rewrite Hbad in H |- *. cbn [negb res_bind] in *.
      split; [symmetry; exact H |]. eexists. split; reflexivity.
    + cbn [res_bind] in *. split; [symmetry; exact H |]. eexists. split; reflexivity.
  - simpl in H. injection H as _ H.
    destruct (_check_stats (sim_batch m 0 K th nt) K th) as [[] | e].
    + cbn [res_bind]. exact (Hk _ pre x post H Hbad).
    + destruct pre; discriminate H.
Qed.

Lemma fails_fast_groupby :
  forall (m : Model) (R : Type) (d : DataFrame)
         (f : Z -> DataFrame -> D call (pyobj R)),
    (forall K K_df, fails_fast m (f K K_df)) -> fails_fast m (_groupby_apply_K d f).
Proof.
  intros m R d f Hf. unfold _groupby_apply_K.
  apply fails_fast_bind; [apply fails_fast_quiet; reflexivity |].
  intros groups. apply fails_fast_bind.
  - apply fails_fast_mapM. intros g. apply Hf.
  - intros out. apply fails_fast_bind;
      [| intros all]; apply fails_fast_quiet; reflexivity.
Qed.

Lemma fails_fast_batch :
  forall (m : Model) (A B O : Type) (cat : list O -> O)
         (f : Z -> list Theta -> list A -> list B -> D call O) (bs : nat) (K : Z)
         (a : list Theta) (b : list A) (c : list B),
    (forall a' b' c', fails_fast m (f K a' b' c')) ->
    fails_fast m (batch cat f bs K a b c).
Proof.
  intros m A B O cat f bs K a b c Hf. unfold batch.
  apply fails_fast_bind.
  - apply fails_fast_mapM. intros r. apply Hf.
  - intros outs. apply fails_fast_quiet. reflexivity.
Qed.

(** X5: the three methods of the driver check the shape of the matrix
    right after each invocation of [sim_batch]: an invocation that
    returned a matrix of the wrong shape is the last one, and the method
    raises the [ValueError] of [_check_stats]; no further group or
    sub-batch is simulated. *)
Theorem no_simulation_after_mismatch :
  forall (self : Driver) (d : DataFrame) (lam delta alpha : Q),
    fails_fast (model self) (Driver_stats self d) /\
    fails_fast (model self) (Driver_validate betaincinv self d lam delta) /\
    fails_fast (model self) (Driver_calibrate self d alpha).
Proof.
  intros self d lam delta alpha. split; [| split].
  - unfold Driver_stats. apply fails_fast_groupby. intros K K_df. unfold stats_f.
    apply fails_fast_bind; [apply fails_fast_quiet; reflexivity |].
    intros K'. cbv zeta. apply fails_fast_checked.
    intros stats. apply fails_fast_quiet. reflexivity.
  - unfold Driver_validate. apply fails_fast_bind.
    + apply fails_fast_groupby. intros K K_df. unfold validate_f.
      apply fails_fast_bind.
      * apply fails_fast_batch. intros th v nt. unfold validate__batched.
        apply fails_fast_checked.
        intros stats. apply fails_fast_quiet. reflexivity.
      * intros o. apply fails_fast_bind;
          [| intros fr]; apply fails_fast_quiet; reflexivity.
    + intros out. apply fails_fast_bind;
        [| intros Ks]; apply fails_fast_quiet; reflexivity.
  - unfold Driver_calibrate. apply fails_fast_bind.
    + apply fails_fast_groupby. intros K K_df. unfold calibrate_f.
      apply fails_fast_bind.
      * apply fails_fast_batch. intros th v nt. unfold calibrate__batched.
        apply fails_fast_checked.
        intros stats. apply fails_fast_bind;
          [| intros u]; apply fails_fast_quiet; reflexivity.
      * intros o. apply fails_fast_bind;
          [apply fails_fast_quiet; reflexivity |].
        intros o1. apply fails_fast_bind;
          [| intros o2]; apply fails_fast_quiet; reflexivity.
    + intros out. apply fails_fast_bind;
        [apply fails_fast_quiet; reflexivity |].
      intros Ks. apply fails_fast_bind;
        [apply fails_fast_quiet; reflexivity |].
      intros idx. apply fails_fast_bind;
        [| intros o]; apply fails_fast_quiet; reflexivity.
Qed.

End FailsFast.

(** ** The invocations of a computation *)

Section Invocations.

Context {L : Type}.

Lemma snd_mapM_ok :
  forall (A B : Type) (f : A -> D L B) (l : list A),
    (forall x, In x l -> exists y, fst (f x) = Ok y) ->
    snd (mapM f l) = concat (map (fun x => snd (f x)) l).
Proof.
  intros A B f l. induction l as [| x t IH]; intros H.
  - reflexivity.
  - simpl mapM. rewrite snd_bind.
    destruct (H x (or_introl eq_refl)) as (y & Hy). rewrite Hy.
    rewrite snd_bind, IH by (intros z Hz; apply H; right; exact Hz).
    simpl. destruct (fst (mapM f t)); simpl; rewrite ?app_nil_r; reflexivity.
Qed.

Lemma concat_map_singletons :
  forall (A B : Type) (f : A -> list B) (g : A -> B) (l : list A),
    (forall x, In x l -> f x = [g x]) -> concat (map f l) = map g l.
Proof.
  intros A B f g l. induction l as [| x t IH]; intros H.
  - reflexivity.
  - simpl. rewrite (H x (or_introl eq_refl)). simpl. f_equal.
    apply IH. intros y Hy. apply H. right. exact Hy.
Qed.

End Invocations.

Section StatsInvocations.

Context {Theta Vertices NullTruth : Type}.

Local Abbreviation Model := (Model Theta NullTruth).
Local Abbreviation Driver := (Driver Theta Vertices NullTruth).
Local Abbreviation DataFrame := (DataFrame Theta Vertices NullTruth).
Local Abbreviation tile := (tile Theta Vertices NullTruth).
Local Abbreviation call := (call Theta NullTruth).

Lemma snd_groupby_apply_K :
  forall (R : Type) (d : DataFrame) (f : Z -> DataFrame -> D call (pyobj R)),
    snd (_groupby_apply_K d f) =
    match groupby_K d with
    | Ok groups => snd (mapM (fun g => f (fst g) (snd g)) groups)
    | Raise _ => []
    end.
Proof.
  intros R d f. unfold _groupby_apply_K. rewrite snd_bind.
  change (snd (lift (groupby_K d))) with (@nil call).
  change (fst (lift (groupby_K d))) with (groupby_K d).
  destruct (groupby_K d) as [groups | e]; [| reflexivity].
  rewrite snd_bind. simpl app.
  destruct (fst (mapM _ groups)) as [out | e]; [| apply app_nil_r].
  rewrite snd_bind. simpl.
  destruct (pd_concat out); simpl; rewrite ?app_nil_r; reflexivity.
Qed.

(** The rows of a group have the key of the group. *)
Lemma group_rows :
  forall (d : DataFrame) (groups : list (Z * DataFrame)),
    groupby_K d = Ok groups ->
    forall g, In g groups ->
      rows (snd g) = filter (fun t => tile_K t =? fst g) (rows d) /\
      rows (snd g) <> [] /\ In (fst g) (map tile_K (rows d)) /\
      has_K (snd g) = true.
Proof.
  intros d groups H g Hg. unfold groupby_K in H.
  destruct (has_K d); [| discriminate]. injection H as <-.
  apply in_map_iff in Hg. destruct Hg as (k & <- & Hk). simpl.
  apply (proj1 (group_keys_In _ _)) in Hk.
  split; [reflexivity |]. split; [| split; [exact Hk | reflexivity]].
  apply in_map_iff in Hk. destruct Hk as (t & Ht & Hin).
  intros Hnil.
  assert (Hf : In t (filter (fun t0 : tile => tile_K t0 =? k) (rows d))).
  { apply filter_In. split; [exact Hin |]. apply Z.eqb_eq. exact Ht. }
  rewrite Hnil in Hf. destruct Hf.
Qed.

(** One group of [Driver.stats], for a model that returns the requested
    shape: one invocation with all the points of the group. *)
Lemma stats_f_group :
  forall (self : Driver) (k : Z) (K_df : DataFrame),
    respects_shape (model self) -> 0 <= k ->
    rows K_df <> [] -> (forall t, In t (rows K_df) -> tile_K t = k) ->
    stats_f self k K_df =
    (Ok (JaxArray (sim_batch (model self) 0 k (map theta (rows K_df))
                     (map null_truth (rows K_df)))),
     [mk_call 0 k (map theta (rows K_df)) (map null_truth (rows K_df))]).
Proof.
  intros self k K_df Hm Hk Hne Hall. unfold stats_f.
  destruct (rows K_df) as [| t ts] eqn:Er; [congruence |].
  rewrite (Hall t (or_introl eq_refl)).
  unfold get_theta, get_null_truth. cbn [df]. rewrite Er.
  destruct (Hm k (map theta (t :: ts)) (map null_truth (t :: ts)) Hk)
    as (H0 & H1).
  { rewrite !length_map. reflexivity. }
  unfold bind, lift, ret, call_sim_batch. cbn [fst snd].
  rewrite (check_stats_ok _ _ k _ H0 H1). reflexivity.
Qed.

(** X6: [Driver.stats] passes the bare arrays of the groups to
    [pd.concat], which only takes Series and DataFrames: it raises for
    every input.  For a model that returns matrices of the requested
    shape it raises the [TypeError] of [pd.concat], after one invocation
    of [sim_batch] per distinct K, ascending, each with all the points of
    its K-group (there is no sub-batching). *)
Theorem Driver_stats_never_returns :
  forall (self : Driver) (d : DataFrame),
    (exists e, fst (Driver_stats self d) = Raise e) /\
    (respects_shape (model self) -> has_K d = true -> rows d <> [] ->
     Forall (fun t => 0 <= tile_K t) (rows d) ->
     (exists why, fst (Driver_stats self d) = Raise (TypeError why)) /\
     snd (Driver_stats self d) =
       map (fun k =>
              let group := filter (fun t => tile_K t =? k) (rows d) in
              mk_call 0 k (map theta group) (map null_truth group))
           (group_keys (map tile_K (rows d)))).
Proof.
  intros self d. split; [apply Driver_stats_raises |].
  intros Hm HK Hne Hpos.
  assert (Eg : groupby_K d =
               Ok (map (fun k => (k, mk_df true (filter (fun t => tile_K t =? k) (rows d))))
                       (group_keys (map tile_K (rows d))))).
  { unfold groupby_K. rewrite HK. reflexivity. }
  assert (Hgroup : forall g, In g (map (fun k => (k, mk_df true (filter (fun t : tile => tile_K t =? k) (rows d))))
                       (group_keys (map tile_K (rows d)))) ->
             stats_f self (fst g) (snd g) =
             (Ok (JaxArray (sim_batch (model self) 0 (fst g) (map theta (rows (snd g)))
                              (map null_truth (rows (snd g))))),
              [mk_call 0 (fst g) (map theta (rows (snd g))) (map null_truth (rows (snd g)))])).
  { intros g Hg. destruct (group_rows d _ Eg g Hg) as (Hr & Hnil & Hin & _).
    apply stats_f_group; [exact Hm | | exact Hnil |].
    - apply in_map_iff in Hin. destruct Hin as (t & <- & Ht).
      rewrite Forall_forall in Hpos. apply Hpos. exact Ht.
    - intros t Ht. rewrite Hr in Ht. apply filter_In in Ht.
      apply Z.eqb_eq. apply Ht. }
  split.
  - unfold Driver_stats. rewrite fst_groupby_apply_K, Eg. cbn [res_bind].
    rewrite (res_mapM_ok _ _ _
               (fun g => JaxArray (sim_batch (model self) 0 (fst g)
                                     (map theta (rows (snd g)))
                                     (map null_truth (rows (snd g))))))
      by (intros g Hg; rewrite (Hgroup g Hg); reflexivity).
    cbn [res_bind]. rewrite map_map.
    destruct (group_keys (map tile_K (rows d))) as [| k ks] eqn:Ek.
    + exfalso. destruct (rows d) as [| t ts]; [congruence |].
      assert (Hin : In (tile_K t) (group_keys (map tile_K (t :: ts)))).
      { apply group_keys_In. left. reflexivity. }
      rewrite Ek in Hin. destruct Hin.
    + simpl. eexists. reflexivity.
  - unfold Driver_stats. rewrite snd_groupby_apply_K, Eg.
    rewrite snd_mapM_ok.
    + rewrite (concat_map_singletons _ _ _
                 (fun g => mk_call 0 (fst g) (map theta (rows (snd g)))
                             (map null_truth (rows (snd g)))))
        by (intros g Hg; rewrite (Hgroup g Hg); reflexivity).
      rewrite map_map. reflexivity.
    + intros g Hg. rewrite (Hgroup g Hg). eexists. reflexivity.
Qed.

End StatsInvocations.

(** ** The columns K and idx of the results *)

Section Columns.

(** Assigning a Series with the index of the frame puts its values beside
    the rows, by position. *)
Lemma setitem_series_aligned :
  forall (T R V : Type) (idx : T -> Z) (v : T -> V) (l : list T)
         (out : frame R) (out' : frame (R * option V)),
    frame_index out = map idx l ->
    setitem_series out (map (fun t => (idx t, v t)) l) = Ok out' ->
    Forall2 (fun t r => fst r = idx t /\ snd (snd r) = Some (v t)) l out' /\
    map (fun r => (fst r, fst (snd r))) out' = out.
Proof.
  intros T R V idx v l out out' Hidx H. unfold setitem_series in H.
  rewrite map_map in H. cbn [fst] in H.
  destruct (list_eq_dec Z.eq_dec (frame_index out) (map idx l)) as [_ | n];
    [| contradiction].
  injection H as <-. clear -Hidx. revert out Hidx.
  induction l as [| t l IH]; intros out Hidx.
  - destruct out; [| discriminate]. split; [constructor | reflexivity].
  - destruct out as [| [i r] out]; [discriminate |].
    simpl in Hidx. injection Hidx as Hi Hidx. subst i.
    destruct (IH out Hidx) as (H1 & H2).
    simpl. split.
    + constructor; [split; reflexivity | exact H1].
    + f_equal. exact H2.
Qed.

Lemma setitem_array_aligned :
  forall (R V : Type) (out : frame R) (vals : list V) (out' : frame (R * V)),
    setitem_array out vals = Ok out' ->
    map (fun r => snd (snd r)) out' = vals /\
    map (fun r => (fst r, fst (snd r))) out' = out.
Proof.
  intros R V out vals out' H. unfold setitem_array in H.
  destruct (Nat.eqb_spec (length vals) (length out)) as [E | _]; [| discriminate].
  injection H as <-. revert vals E.
  induction out as [| [i r] out IH]; intros vals E.
  - destruct vals; [| discriminate]. split; reflexivity.
  - destruct vals as [| x vals]; [discriminate |].
    simpl in E. injection E as E. destruct (IH vals E) as (H1 & H2).
    simpl. split; f_equal; assumption.
Qed.

Lemma Forall2_index_length :
  forall (T R : Type) (idx : T -> Z) (l : list T) (out : frame R),
    frame_index out = map idx l -> length out = length l.
Proof.
  intros T R idx l out H. apply (f_equal (@length Z)) in H.
  unfold frame_index in H. rewrite !length_map in H. exact H.
Qed.

Context {Theta Vertices NullTruth : Type}.
Variable betaincinv : Z -> Z -> Q -> option Q.

Local Abbreviation Driver := (Driver Theta Vertices NullTruth).
Local Abbreviation DataFrame := (DataFrame Theta Vertices NullTruth).
Local Abbreviation tile := (tile Theta Vertices NullTruth).

(** X7: whatever the simulation model, a frame that [Driver.validate] or
    [Driver.calibrate] returns for an input with distinct labels has, row
    by row, the label and the K of the input tile at that position; the
    column [idx] of [calibrate] is the calibration index of that K at the
    [alpha0] of the row. *)
Theorem result_columns_K_idx :
  forall (self : Driver) (d : DataFrame) (lam delta alpha : Q),
    NoDup (df_index d) ->
    (forall out,
        fst (Driver_validate betaincinv self d lam delta) = Ok out ->
        Forall2 (fun (t : tile) r => fst r = index t /\ snd (snd r) = Some (tile_K t))
                (rows d) out) /\
    (forall out,
        fst (Driver_calibrate self d alpha) = Ok out ->
        Forall2 (fun (t : tile) r =>
                   fst r = index t /\ snd (snd r) = Some (tile_K t) /\
                   snd (fst (snd r)) =
                     _calibration_index (tile_K t) (alpha0 (fst (fst (snd r)))))
                (rows d) out).
Proof.
  intros self d lam delta alpha Hnd. split; intros out H.
  - unfold Driver_validate in H. rewrite fst_bind in H.
    destruct (fst (_groupby_apply_K d _)) as [o1 | e] eqn:E1; simpl in H; [| discriminate].
    apply groupby_apply_K_index in E1; [| exact Hnd | apply validate_f_frame].
    rewrite fst_bind in H. change (fst (lift ?r)) with r in H.
    unfold col_K in H. destruct (has_K d); [| discriminate].
    cbn [res_bind] in H.
    apply (setitem_series_aligned _ _ _ index tile_K (rows d) o1 out E1 H).
  - unfold Driver_calibrate in H. rewrite fst_bind in H.
    destruct (fst (_groupby_apply_K d _)) as [o1 | e] eqn:E1; simpl in H; [| discriminate].
    apply groupby_apply_K_index in E1; [| exact Hnd | apply calibrate_f_frame].
    rewrite fst_bind in H. change (fst (lift ?r)) with r in H.
    unfold col_K in H. destruct (has_K d); [| discriminate].
    cbn [res_bind] in H. rewrite fst_bind in H. change (fst (lift ?r)) with r in H.
    rewrite map_map in H. cbn [snd] in H.
    pose proof (Forall2_index_length _ _ index (rows d) o1 E1) as Hlen.
    unfold broadcast2 in H. rewrite !length_map, <- Hlen, Nat.eqb_refl in H.
    cbn [res_bind] in H. rewrite fst_bind in H. change (fst (lift ?r)) with r in H.
    destruct (setitem_array o1 _) as [o2 | e] eqn:E2; [| discriminate].
    cbn [res_bind] in H. change (fst (lift ?r)) with r in H.
    destruct (setitem_array_aligned _ _ _ _ _ E2) as (Hvals & Ho1).
    assert (E2i : frame_index o2 = map index (rows d)).
    { apply setitem_array_index in E2. rewrite E2. exact E1. }
    destruct (setitem_series_aligned _ _ _ index tile_K (rows d) o2 out E2i H)
      as (HF & Ho2).
    subst o2. subst o1.
    clear -HF Hvals Hlen.
    rewrite !map_map in Hvals. cbn [fst snd] in Hvals.
    rewrite !length_map in Hlen.
    revert out HF Hvals Hlen. induction (rows d) as [| t l IH]; intros out HF Hvals Hlen.
    + inversion HF. constructor.
    + inversion HF as [| ? r ? out0 (Hr1 & Hr2) Hrest]; subst.
      simpl in Hvals. injection Hvals as Hv Hvals.
      simpl in Hlen. injection Hlen as Hlen.
      constructor.
      * split; [exact Hr1 |]. split; [exact Hr2 |]. exact Hv.
      * apply IH; assumption.
Qed.

End Columns.

(** ** The rows of the results, tile by tile *)

Section Zips.

(** Two columns computed from the same rows, side by side. *)
Lemma combine_map_map :
  forall (T V W : Type) (col1 : T -> V) (col2 : T -> W) (ts : list T),
    combine (map col1 ts) (map col2 ts) = map (fun t => (col1 t, col2 t)) ts.
Proof.
  intros T V W col1 col2 ts. induction ts as [| t ts IH]; simpl; [reflexivity |].
  f_equal. exact IH.
Qed.

Lemma vmap3_map :
  forall (T A B C D : Type) (F : A -> B -> C -> D)
         (a : T -> A) (b : T -> B) (c : T -> C) (l : list T),
    vmap3 F (map a l) (map b l) (map c l) = map (fun t => F (a t) (b t) (c t)) l.
Proof.
  intros T A B C D F a b c l. induction l as [| x l IH]; simpl; [reflexivity |].
  f_equal. exact IH.
Qed.

Lemma pd_DataFrame4_rows :
  forall (T : Type) (idx : T -> Z) (c1 : T -> Z) (c2 c3 c4 : T -> Q) (l : list T),
    pd_DataFrame4 (map c1 l) (map c2 l) (map c3 l) (map c4 l) (map idx l) =
    Ok (map (fun t => (idx t, mk_validate_row (c1 t) (c2 t) (c3 t) (c4 t))) l).
Proof.
  intros T idx c1 c2 c3 c4 l. unfold pd_DataFrame4.
  rewrite !length_map, Nat.eqb_refl. cbn [andb].
  rewrite !combine_map_map, map_map. reflexivity.
Qed.

Lemma setitem_array_rows :
  forall (T R V : Type) (idx : T -> Z) (r : T -> R) (v : T -> V) (l : list T),
    setitem_array (map (fun t => (idx t, r t)) l) (map v l) =
    Ok (map (fun t => (idx t, (r t, v t))) l).
Proof.
  intros T R V idx r v l. unfold setitem_array.
  rewrite !length_map, Nat.eqb_refl.
  rewrite combine_map_map, map_map. reflexivity.
Qed.

Lemma setitem_series_rows :
  forall (T R V : Type) (idx : T -> Z) (r : T -> R) (v : T -> V) (l : list T),
    setitem_series (map (fun t => (idx t, r t)) l) (map (fun t => (idx t, v t)) l) =
    Ok (map (fun t => (idx t, (r t, Some (v t)))) l).
Proof.
  intros T R V idx r v l. unfold setitem_series, frame_index.
  rewrite !map_map. cbn [fst].
  destruct (list_eq_dec Z.eq_dec (map idx l) (map idx l)) as [_ | n];
    [| congruence].
  rewrite combine_map_map, map_map. reflexivity.
Qed.

(** With distinct labels, [.loc] on the rows of the groups gives the rows
    back in the order of the labels. *)
Lemma loc_rows :
  forall (T R : Type) (idx : T -> Z) (h : T -> R) (all l : list T),
    NoDup (map idx l) -> Permutation all l ->
    loc (map (fun t => (idx t, h t)) all) (map idx l) =
    Ok (map (fun t => (idx t, h t)) l).
Proof.
  intros T R idx h all l Hnd Hperm. unfold loc.
  assert (Hnd' : NoDup (frame_index (map (fun t => (idx t, h t)) all))).
  { unfold frame_index. rewrite map_map. cbn [fst].
    eapply Permutation_NoDup; [| exact Hnd].
    apply Permutation_map. symmetry. exact Hperm. }
  assert (Hrows : forall l', incl l' l ->
            res_mapM (loc_label (map (fun t => (idx t, h t)) all)) (map idx l') =
            Ok (map (fun t => [(idx t, h t)]) l')).
  { intros l'. induction l' as [| t l' IH]; intros Hincl.
    - reflexivity.
    - simpl. unfold loc_label at 1.
      rewrite (filter_label_unique R _ (idx t) (h t) Hnd').
      + cbn [res_bind]. rewrite IH; [reflexivity |].
        intros x Hx. apply Hincl. right. exact Hx.
      + apply in_map_iff. exists t. split; [reflexivity |].
        eapply Permutation_in; [symmetry; exact Hperm |].
        apply Hincl. left. reflexivity. }
  rewrite (Hrows l (incl_refl l)). cbn [res_bind]. f_equal.
  clear. induction l as [| x l IH]; simpl; [reflexivity | f_equal; exact IH].
Qed.

End Zips.

Section RowsPerTile.

Context {Theta Vertices NullTruth : Type}.
Variable betaincinv : Z -> Z -> Q -> option Q.

Local Abbreviation Driver := (Driver Theta Vertices NullTruth).
Local Abbreviation Model := (Model Theta NullTruth).
Local Abbreviation DataFrame := (DataFrame Theta Vertices NullTruth).
Local Abbreviation tile := (tile Theta Vertices NullTruth).
Local Abbreviation call := (call Theta NullTruth).

(** When the function applied to each group returns one row per tile of
    the group, computed from the tile alone, [_groupby_apply_K] returns
    these rows for the tiles of the input, in the order of the input. *)
Lemma groupby_apply_K_rows :
  forall (R : Type) (h : tile -> R) (d : DataFrame)
         (f : Z -> DataFrame -> D call (pyobj R)),
    has_K d = true -> rows d <> [] -> NoDup (df_index d) ->
    (forall k K_df,
        rows K_df <> [] ->
        (forall t, In t (rows K_df) -> In t (rows d) /\ tile_K t = k) ->
        fst (f k K_df) =
        Ok (PdFrame (map (fun t => (index t, h t)) (rows K_df)))) ->
    fst (_groupby_apply_K d f) = Ok (map (fun t => (index t, h t)) (rows d)).
Proof.
  intros R h d f HK Hne Hnd Hf. rewrite fst_groupby_apply_K.
  unfold groupby_K. rewrite HK. cbn [res_bind].
  set (keys := group_keys (map tile_K (rows d))).
  set (group := fun k => filter (fun t : tile => tile_K t =? k) (rows d)).
  rewrite (res_mapM_ok _ _ _
             (fun g => PdFrame (map (fun t => (index t, h t)) (rows (snd g))))).
  2:{ intros g Hg. apply in_map_iff in Hg. destruct Hg as (k & <- & Hk).
      cbn [fst snd rows]. apply Hf.
      - apply (proj1 (group_keys_In _ _)) in Hk.
        apply in_map_iff in Hk. destruct Hk as (t & Ht & Hin).
        intros Hnil.
        assert (Hin' : In t (filter (fun t0 : tile => tile_K t0 =? k) (rows d))).
        { apply filter_In. split; [exact Hin | apply Z.eqb_eq; exact Ht]. }
        cbn [rows] in Hnil. rewrite Hnil in Hin'. destruct Hin'.
      - intros t Ht. cbn [rows] in Ht. apply filter_In in Ht.
        split; [apply Ht | apply Z.eqb_eq; apply Ht]. }
  cbn [res_bind]. rewrite map_map. cbn [snd rows].
  rewrite <- (map_map group (fun l => PdFrame (map (fun t => (index t, h t)) l))).
  rewrite <- (map_map (map (fun t => (index t, h t))) PdFrame).
  rewrite pd_concat_frames.
  2:{ intros E. apply map_eq_nil in E. apply map_eq_nil in E.
      destruct (rows d) as [| t ts]; [congruence |].
      assert (Hin : In (tile_K t) keys).
      { apply group_keys_In. left. reflexivity. }
      rewrite E in Hin. destruct Hin. }
  cbn [res_bind]. rewrite <- concat_map.
  apply loc_rows; [exact Hnd |].
  rewrite <- flat_map_concat_map.
  apply (groups_partition _ tile_K).
  - apply group_keys_NoDup.
  - intros x Hx. apply group_keys_In. apply in_map. exact Hx.
Qed.

Section PerTileModel.

Variable m : Model.
Variable ncol : Z -> nat.
Variable rowf : Z -> Theta -> NullTruth -> list Q.
Hypothesis m_per_tile :
forall (K : Z) (th : list Theta) (nt : list NullTruth),
  length nt = length th ->
  shape0 (sim_batch m 0 K th nt) = length th /\
  shape1 (sim_batch m 0 K th nt) = ncol K /\
  array_rows (sim_batch m 0 K th nt) =
    map (fun p => rowf K (fst p) (snd p)) (combine th nt).

Variable self : Driver.
Variables F G : Q -> Theta -> Vertices -> Q.
Hypothesis self_model : model self = m.
Hypothesis self_forward : forward_boundv self = vmap3 F.
Hypothesis self_backward : backward_boundv self = vmap3 G.
Hypothesis batch_size_pos : (0 < tile_batch_size self)%nat.

Lemma validate_f_rows :
forall (lam delta : Q) (k : Z) (K_df : DataFrame),
  rows K_df <> [] -> (forall t, In t (rows K_df) -> tile_K t = k) ->
  Z.of_nat (ncol k) = k ->
  fst (validate_f betaincinv self lam delta k K_df) =
  Ok (PdFrame (map (fun t => (index t, validate_tile betaincinv rowf F lam delta t))
                   (rows K_df))).
Proof using m_per_tile self_model self_forward batch_size_pos.
intros lam delta k K_df Hne Hk Hcol. unfold validate_f.
cbv zeta. unfold get_theta_and_vertices, get_null_truth. cbn [fst snd df].
rewrite fst_bind.
rewrite (batch_validate_transparent betaincinv m ncol rowf m_per_tile self F
           self_model self_forward);
  [| exact batch_size_pos
   | destruct (rows K_df); [congruence | discriminate]
   | rewrite !length_map; reflexivity
   | rewrite !length_map; reflexivity].
rewrite (validate__batched_columns betaincinv m ncol rowf m_per_tile self F
           self_model self_forward) by (rewrite !length_map; reflexivity).
unfold check_columns. rewrite Hcol, Z.eqb_refl. cbn [negb res_bind].
rewrite fst_bind. change (fst (lift ?r)) with r.
unfold validate_columns. cbn [fst snd].
rewrite combine_map_map, !map_map. cbn [fst snd].
rewrite <- (map_map
              (fun t => clopper_pearson betaincinv
                          (Z.of_nat (length (filter (fun s => Qltb s lam)
                                               (rowf k (theta t) (null_truth t)))))
                          k delta)
              (fun c => c)) at 2.
rewrite map_id.
rewrite (vmap3_map _ _ _ _ _ F
           (fun t => clopper_pearson betaincinv
                       (Z.of_nat (length (filter (fun s => Qltb s lam)
                                            (rowf k (theta t) (null_truth t)))))
                       k delta)
           theta vertices).
unfold df_index. rewrite pd_DataFrame4_rows. cbn [res_bind]. cbn [fst ret].
f_equal. f_equal. apply map_ext_in. intros t Ht.
unfold validate_tile. rewrite (Hk t Ht). reflexivity.
Qed.

Lemma calibrate_f_rows :
forall (alpha : Q) (k : Z) (K_df : DataFrame),
  rows K_df <> [] -> (forall t, In t (rows K_df) -> tile_K t = k) ->
  Z.of_nat (ncol k) = k -> k <> 0 ->
  fst (calibrate_f self alpha k K_df) =
  Ok (PdFrame (map (fun t => (index t, calibrate_tile rowf G alpha t)) (rows K_df))).
Proof using m_per_tile self_model self_backward batch_size_pos.
intros alpha k K_df Hne Hk Hcol Hk0. unfold calibrate_f.
cbv zeta. unfold get_theta_and_vertices, get_null_truth. cbn [fst snd df].
rewrite fst_bind.
assert (Hth : map theta (rows K_df) <> []).
{ destruct (rows K_df); [congruence | discriminate]. }
rewrite (batch_calibrate_transparent m ncol rowf m_per_tile self G
           self_model self_backward);
  [| exact batch_size_pos | exact Hth
   | rewrite !length_map; reflexivity
   | rewrite !length_map; reflexivity].
rewrite (calibrate__batched_columns m ncol rowf m_per_tile self G
           self_model self_backward)
  by (try exact Hth; rewrite !length_map; reflexivity).
unfold check_calibrate, check_columns. rewrite Hcol, Z.eqb_refl.
cbn [negb res_bind].
destruct (Z.eqb_spec k 0) as [E | _]; [contradiction |].
cbn [res_bind].
unfold calibrate_columns. cbn [fst snd].
rewrite combine_map_map, !map_map. cbn [fst snd].
rewrite (vmap3_map _ _ _ _ _ G (fun _ => alpha) theta vertices).
rewrite combine_map_map, map_map. cbn [fst snd].
unfold df_index. rewrite map_map.
rewrite fst_bind. change (fst (lift ?r)) with r.
rewrite (setitem_array_rows _ _ _ index (fun _ => tt)
           (fun t => selected_threshold k
                       (jnp_sort_row (rowf k (theta t) (null_truth t)),
                        G alpha (theta t) (vertices t)))).
cbn [res_bind]. rewrite fst_bind. change (fst (lift ?r)) with r.
rewrite (setitem_array_rows _ _ _ index
           (fun t => (tt, selected_threshold k
                            (jnp_sort_row (rowf k (theta t) (null_truth t)),
                             G alpha (theta t) (vertices t))))
           (fun t => G alpha (theta t) (vertices t))).
cbn [res_bind]. cbn [fst ret]. rewrite map_map. cbn [fst snd].
f_equal. f_equal. apply map_ext_in. intros t Ht.
unfold calibrate_tile. rewrite (Hk t Ht). reflexivity.
Qed.

(** The rows of the model have as many statistics as the matrix has
    columns. *)
Lemma rowf_length :
forall (K : Z) (th : Theta) (nt : NullTruth), length (rowf K th nt) = ncol K.
Proof using m_per_tile.
intros K th nt.
destruct (m_per_tile K [th] [nt] eq_refl) as (H0 & H1 & Hrows).
unfold array_rows in Hrows. rewrite H0 in Hrows. simpl in Hrows.
injection Hrows as Hrow. rewrite <- Hrow, length_array_row. exact H1.
Qed.

Lemma validate_rows :
forall (d : DataFrame) (lam delta : Q),
  has_K d = true -> rows d <> [] -> NoDup (df_index d) ->
  (forall t, In t (rows d) -> Z.of_nat (ncol (tile_K t)) = tile_K t) ->
  fst (Driver_validate betaincinv self d lam delta) =
  Ok (map (fun t => (index t, (validate_tile betaincinv rowf F lam delta t,
                               Some (tile_K t))))
          (rows d)).
Proof using m_per_tile self_model self_forward batch_size_pos.
intros d lam delta HK Hne Hnd Hcol. unfold Driver_validate.
rewrite fst_bind.
rewrite (groupby_apply_K_rows _ (validate_tile betaincinv rowf F lam delta) d
           _ HK Hne Hnd).
2:{ intros k K_df Hne' Hall. apply validate_f_rows; [exact Hne' | |].
    - intros t Ht. apply (Hall t Ht).
    - destruct (rows K_df) as [| t ts]; [congruence |].
      destruct (Hall t (or_introl eq_refl)) as (Hin & <-). apply Hcol. exact Hin. }
cbn [res_bind]. rewrite fst_bind. change (fst (lift ?r)) with r.
unfold col_K. rewrite HK. cbn [res_bind].
apply setitem_series_rows.
Qed.

Lemma calibrate_rows :
forall (d : DataFrame) (alpha : Q),
  has_K d = true -> rows d <> [] -> NoDup (df_index d) ->
  (forall t, In t (rows d) -> Z.of_nat (ncol (tile_K t)) = tile_K t /\ tile_K t <> 0) ->
  fst (Driver_calibrate self d alpha) =
  Ok (map (fun t =>
             (index t,
              (calibrate_tile rowf G alpha t,
               _calibration_index (tile_K t) (alpha0 (calibrate_tile rowf G alpha t)),
               Some (tile_K t))))
          (rows d)).
Proof using m_per_tile self_model self_backward batch_size_pos.
intros d alpha HK Hne Hnd Hcol. unfold Driver_calibrate.
rewrite fst_bind.
rewrite (groupby_apply_K_rows _ (calibrate_tile rowf G alpha) d _ HK Hne Hnd).
2:{ intros k K_df Hne' Hall.
    assert (Hk : Z.of_nat (ncol k) = k /\ k <> 0).
    { destruct (rows K_df) as [| t ts]; [congruence |].
      destruct (Hall t (or_introl eq_refl)) as (Hin & <-). apply Hcol. exact Hin. }
    apply calibrate_f_rows; [exact Hne' | | apply Hk | apply Hk].
    intros t Ht. apply (Hall t Ht). }
cbn [res_bind]. rewrite fst_bind. change (fst (lift ?r)) with r.
unfold col_K. rewrite HK. cbn [res_bind].
rewrite fst_bind. change (fst (lift ?r)) with r.
rewrite !map_map. cbn [snd].
unfold broadcast2. rewrite !length_map, Nat.eqb_refl.
rewrite combine_map_map, map_map. cbn [fst snd res_bind].
rewrite fst_bind. change (fst (lift ?r)) with r.
rewrite (setitem_array_rows _ _ _ index (calibrate_tile rowf G alpha)
           (fun t => _calibration_index (tile_K t)
                       (alpha0 (calibrate_tile rowf G alpha t)))).
cbn [res_bind]. change (fst (lift ?r)) with r.
apply (setitem_series_rows _ _ _ index
         (fun t => (calibrate_tile rowf G alpha t,
                    _calibration_index (tile_K t)
                      (alpha0 (calibrate_tile rowf G alpha t))))
         tile_K).
Qed.

(** The threshold in the row of a tile is the one that
    [calc_calibration_threshold] selects from its sorted statistics. *)
Lemma calibrate_tile_threshold :
forall (alpha : Q) (t : tile),
  Z.of_nat (ncol (tile_K t)) = tile_K t -> tile_K t <> 0 ->
  calc_calibration_threshold
    (jnp_sort_row (rowf (tile_K t) (theta t) (null_truth t)))
    (np_arange (tile_K t)) (alpha0 (calibrate_tile rowf G alpha t)) =
  Some (lams (calibrate_tile rowf G alpha t)).
Proof using m_per_tile.
intros alpha t Hcol Hk0. unfold calibrate_tile. cbn [lams alpha0].
set (row := rowf (tile_K t) (theta t) (null_truth t)).
set (a0 := G alpha (theta t) (vertices t)).
assert (Hlen : Z.of_nat (length (jnp_sort_row row)) = tile_K t).
{ rewrite length_jnp_sort_row. unfold row. rewrite rowf_length. exact Hcol. }
assert (Hne : jnp_sort_row row <> []).
{ intros E. rewrite E in Hlen. simpl in Hlen. congruence. }
rewrite <- Hlen at 1.
rewrite (calc_calibration_threshold_arange _ a0 Hne), Hlen.
unfold selected_threshold. cbn [fst snd].
destruct (jax_getitem_some _ (jnp_sort_row row) (_calibration_index (tile_K t) a0) Hne)
  as (v & ->).
reflexivity.
Qed.

End PerTileModel.

Variable bound : bound_module Theta Vertices.

Lemma Driver_init_inv :
  forall (m : Model) (bs : nat) (self : Driver),
    Driver_init bound m bs = Ok self ->
    exists b : BoundType Theta Vertices,
      In (family m, b) (bound_dict bound) /\
      self = mk_Driver m bs
               (get_forward_bound b
                  (match family_params m with Some p => p | None => [] end))
               (get_backward_bound b
                  (match family_params m with Some p => p | None => [] end)).
Proof.
  intros m bs self H. unfold Driver_init, get_bound in H.
  destruct (find (fun e => String.eqb (fst e) (family m)) (bound_dict bound))
    as [[k b] |] eqn:E; [| discriminate].
  apply find_some in E. destruct E as (Hin & Hk). simpl in Hk.
  apply String.eqb_eq in Hk. subst k.
  cbn [res_bind fst snd] in H. injection H as <-.
  exists b. split; [exact Hin | reflexivity].
Qed.

(** X8: for a simulation model that works tile by tile and returns K >= 1
    statistics per tile, [Driver.validate] returns one row per tile of the
    input, in the order of the input, and the row of a tile is computed
    from that tile alone: the count of its statistics below [lam], the
    count divided by its K, the Clopper-Pearson bound of the count, the
    forward bound of its family at its point and vertices, and its K. *)
Theorem validate_rows_per_tile :
  forall (m : Model) (ncol : Z -> nat) (rowf : Z -> Theta -> NullTruth -> list Q)
         (bs : nat) (self : Driver) (d : DataFrame) (lam delta : Q),
    (forall (K : Z) (th : list Theta) (nt : list NullTruth),
        length nt = length th ->
        shape0 (sim_batch m 0 K th nt) = length th /\
        shape1 (sim_batch m 0 K th nt) = ncol K /\
        array_rows (sim_batch m 0 K th nt) =
          map (fun p => rowf K (fst p) (snd p)) (combine th nt)) ->
    Driver_init bound m bs = Ok self -> (1 <= bs)%nat ->
    has_K d = true -> rows d <> [] -> NoDup (df_index d) ->
    (forall t, In t (rows d) -> Z.of_nat (ncol (tile_K t)) = tile_K t /\ tile_K t <> 0) ->
    exists b : BoundType Theta Vertices,
      In (family m, b) (bound_dict bound) /\
      fst (Driver_validate betaincinv self d lam delta) =
      Ok (map (fun t =>
                 (index t,
                  (validate_tile betaincinv rowf
                     (forward b (match family_params m with Some p => p | None => [] end))
                     lam delta t,
                   Some (tile_K t))))
              (rows d)).
Proof.
  intros m ncol rowf bs self d lam delta Hm Hinit Hbs HK Hne Hnd Hcol.
  destruct (Driver_init_inv m bs self Hinit) as (b & Hin & ->).
  exists b. split; [exact Hin |].
  apply (validate_rows m ncol rowf Hm); try assumption; try reflexivity.
  intros t Ht. apply (Hcol t Ht).
Qed.

(** X9: for such a model, [Driver.calibrate] returns one row per tile of
    the input, in the order of the input, computed from that tile alone:
    the backward bound [alpha0] of its family at its point and vertices,
    the threshold that [calc_calibration_threshold] selects from its
    sorted statistics at level [alpha0], the calibration index of its K at
    [alpha0], and its K. *)
Theorem calibrate_rows_per_tile :
  forall (m : Model) (ncol : Z -> nat) (rowf : Z -> Theta -> NullTruth -> list Q)
         (bs : nat) (self : Driver) (d : DataFrame) (alpha : Q),
    (forall (K : Z) (th : list Theta) (nt : list NullTruth),
        length nt = length th ->
        shape0 (sim_batch m 0 K th nt) = length th /\
        shape1 (sim_batch m 0 K th nt) = ncol K /\
        array_rows (sim_batch m 0 K th nt) =
          map (fun p => rowf K (fst p) (snd p)) (combine th nt)) ->
    Driver_init bound m bs = Ok self -> (1 <= bs)%nat ->
    has_K d = true -> rows d <> [] -> NoDup (df_index d) ->
    (forall t, In t (rows d) -> Z.of_nat (ncol (tile_K t)) = tile_K t /\ tile_K t <> 0) ->
    exists b : BoundType Theta Vertices,
      In (family m, b) (bound_dict bound) /\
      let G := backward b (match family_params m with Some p => p | None => [] end) in
      fst (Driver_calibrate self d alpha) =
      Ok (map (fun t =>
                 (index t,
                  (calibrate_tile rowf G alpha t,
                   _calibration_index (tile_K t) (G alpha (theta t) (vertices t)),
                   Some (tile_K t))))
              (rows d)) /\
      forall t, In t (rows d) ->
        calc_calibration_threshold
          (jnp_sort_row (rowf (tile_K t) (theta t) (null_truth t)))
          (np_arange (tile_K t)) (G alpha (theta t) (vertices t)) =
        Some (lams (calibrate_tile rowf G alpha t)).
Proof.
  intros m ncol rowf bs self d alpha Hm Hinit Hbs HK Hne Hnd Hcol.
  destruct (Driver_init_inv m bs self Hinit) as (b & Hin & ->).
  exists b. split; [exact Hin |]. cbv zeta. split.
  - apply (calibrate_rows m ncol rowf Hm); try assumption; reflexivity.
  - intros t Ht. destruct (Hcol t Ht) as (H1 & H2).
    apply (calibrate_tile_threshold m ncol rowf Hm _ alpha t H1 H2).
Qed.

End RowsPerTile.

(** ** The batches that are simulated *)

Section Batches.

Context {Theta Vertices NullTruth : Type}.
Variable betaincinv : Z -> Z -> Q -> option Q.
Variable bound : bound_module Theta Vertices.

Local Abbreviation Driver := (Driver Theta Vertices NullTruth).
Local Abbreviation Model := (Model Theta NullTruth).
Local Abbreviation DataFrame := (DataFrame Theta Vertices NullTruth).
Local Abbreviation tile := (tile Theta Vertices NullTruth).
Local Abbreviation call := (call Theta NullTruth).

Lemma snd_validate__batched :
  forall (self : Driver) (lam delta : Q) (K : Z) th v nt,
    snd (validate__batched betaincinv self lam delta K th v nt) = [mk_call 0 K th nt].
Proof.
  intros. unfold validate__batched. rewrite snd_bind.
  cbn [call_sim_batch fst snd]. rewrite snd_bind.
  change (snd (lift ?r)) with (@nil call). change (fst (lift ?r)) with r.
  destruct (_check_stats _ _ _); reflexivity.
Qed.

Lemma snd_calibrate__batched :
  forall (self : Driver) (alpha : Q) (K : Z) th v nt,
    snd (calibrate__batched self alpha K th v nt) = [mk_call 0 K th nt].
Proof.
  intros. unfold calibrate__batched. rewrite snd_bind.
  cbn [call_sim_batch fst snd]. rewrite snd_bind.
  change (snd (lift ?r)) with (@nil call). change (fst (lift ?r)) with r.
  destruct (_check_stats _ _ _); [| reflexivity].
  rewrite snd_bind.
  change (snd (lift ?r)) with (@nil call). change (fst (lift ?r)) with r.
  destruct (calibratev _ _ _); reflexivity.
Qed.

Lemma snd_batch_ok :
  forall (A B C O : Type) (cat : list O -> O)
         (f : Z -> list A -> list B -> list C -> D call O)
         (bs : nat) (K : Z) (a : list A) (b : list B) (c : list C),
    (forall r, In r (batch_ranges (length a) bs 0 (length a)) ->
               exists o, fst (f K (slice a r) (slice b r) (slice c r)) = Ok o) ->
    snd (batch cat f bs K a b c) =
    concat (map (fun r => snd (f K (slice a r) (slice b r) (slice c r)))
                (batch_ranges (length a) bs 0 (length a))).
Proof.
  intros A B C O cat f bs K a b c Hf. unfold batch. rewrite snd_bind.
  rewrite (snd_mapM_ok _ _ _ _ Hf).
  destruct (fst (mapM _ _)); simpl; apply app_nil_r.
Qed.

Lemma snd_Driver_validate :
  forall (self : Driver) (d : DataFrame) (lam delta : Q),
    snd (Driver_validate betaincinv self d lam delta) =
    snd (_groupby_apply_K d (validate_f betaincinv self lam delta)).
Proof.
  intros. unfold Driver_validate. rewrite snd_bind.
  destruct (fst (_groupby_apply_K d _)) as [out | e]; [| apply app_nil_r].
  rewrite snd_bind. change (snd (lift ?r)) with (@nil call).
  change (fst (lift ?r)) with r.
  destruct (col_K d); simpl; apply app_nil_r.
Qed.

Lemma snd_Driver_calibrate :
  forall (self : Driver) (d : DataFrame) (alpha : Q),
    snd (Driver_calibrate self d alpha) =
    snd (_groupby_apply_K d (calibrate_f self alpha)).
Proof.
  intros. unfold Driver_calibrate. rewrite snd_bind.
  destruct (fst (_groupby_apply_K d _)) as [out | e]; [| apply app_nil_r].
  rewrite snd_bind. change (snd (lift ?r)) with (@nil call).
  change (fst (lift ?r)) with r.
  destruct (col_K d) as [Ks | e]; [| apply app_nil_r].
  rewrite snd_bind. change (snd (lift ?r)) with (@nil call).
  change (fst (lift ?r)) with r.
  destruct (broadcast2 _ _ _) as [idx | e]; [| apply app_nil_r].
  rewrite snd_bind. change (snd (lift ?r)) with (@nil call).
  change (fst (lift ?r)) with r.
  destruct (setitem_array out idx); simpl; apply app_nil_r.
Qed.

Lemma snd_validate_f :
  forall (self : Driver) (lam delta : Q) (K : Z) (K_df : DataFrame),
    snd (validate_f betaincinv self lam delta K K_df) =
    snd (batch cat4 (validate__batched betaincinv self lam delta)
           (tile_batch_size self) K (map theta (rows K_df))
           (map vertices (rows K_df)) (map null_truth (rows K_df))).
Proof.
  intros. unfold validate_f. cbv zeta. rewrite snd_bind.
  unfold get_theta_and_vertices, get_null_truth. cbn [fst snd df].
  destruct (fst (batch _ _ _ _ _ _ _)) as [o | e]; [| apply app_nil_r].
  rewrite snd_bind. change (snd (lift ?r)) with (@nil call).
  change (fst (lift ?r)) with r.
  destruct (pd_DataFrame4 _ _ _ _ _); simpl; apply app_nil_r.
Qed.

Lemma snd_calibrate_f :
  forall (self : Driver) (alpha : Q) (K : Z) (K_df : DataFrame),
    snd (calibrate_f self alpha K K_df) =
    snd (batch cat2 (calibrate__batched self alpha)
           (tile_batch_size self) K (map theta (rows K_df))
           (map vertices (rows K_df)) (map null_truth (rows K_df))).
Proof.
  intros. unfold calibrate_f. cbv zeta. rewrite snd_bind.
  unfold get_theta_and_vertices, get_null_truth. cbn [fst snd df].
  destruct (fst (batch _ _ _ _ _ _ _)) as [o | e]; [| apply app_nil_r].
  rewrite snd_bind. change (snd (lift ?r)) with (@nil call).
  change (fst (lift ?r)) with r.
  destruct (setitem_array _ (fst o)) as [o1 | e]; [| apply app_nil_r].
  rewrite snd_bind. change (snd (lift ?r)) with (@nil call).
  change (fst (lift ?r)) with r.
  destruct (setitem_array o1 (snd o)); simpl; apply app_nil_r.
Qed.

Section Contract.

Variable m : Model.
Variable self : Driver.
Variables F G : Q -> Theta -> Vertices -> Q.
Hypothesis m_shape : respects_shape m.
Hypothesis self_model : model self = m.
Hypothesis self_forward : forward_boundv self = vmap3 F.
Hypothesis self_backward : backward_boundv self = vmap3 G.
Hypothesis batch_size_pos : (0 < tile_batch_size self)%nat.

Lemma Driver_invocations :
  forall (d : DataFrame) (lam delta alpha : Q),
    has_K d = true -> Forall (fun t => 1 <= tile_K t) (rows d) ->
    snd (Driver_validate betaincinv self d lam delta) =
      sub_batches (tile_batch_size self) d /\
    snd (Driver_calibrate self d alpha) = sub_batches (tile_batch_size self) d.
Proof using m_shape self_model self_forward self_backward batch_size_pos.
  intros d lam delta alpha HK HKs.
  assert (Hkey : forall k, In k (group_keys (map tile_K (rows d))) -> 1 <= k).
  { intros k Hk. apply (proj1 (group_keys_In _ _)) in Hk.
    apply in_map_iff in Hk. destruct Hk as (t & <- & Ht).
    rewrite Forall_forall in HKs. apply HKs. exact Ht. }
  rewrite snd_Driver_validate, snd_Driver_calibrate, !snd_groupby_apply_K.
  unfold groupby_K. rewrite HK. unfold sub_batches.
  rewrite flat_map_concat_map. split.
  - rewrite snd_mapM_ok.
    + rewrite map_map. f_equal. apply map_ext_in. intros k Hk. cbn [fst snd].
      rewrite snd_validate_f. cbn [rows].
      rewrite snd_batch_ok.
      * apply concat_map_singletons. intros r _. apply snd_validate__batched.
      * intros r Hr. apply (batch_ranges_bounds _ _ _ _ _ batch_size_pos) in Hr.
        destruct (validate__batched_ok betaincinv m self F m_shape self_model
                    self_forward lam delta k
                    (slice (map theta (filter (fun t : tile => tile_K t =? k) (rows d))) r)
                    (slice (map vertices (filter (fun t : tile => tile_K t =? k) (rows d))) r)
                    (slice (map null_truth (filter (fun t : tile => tile_K t =? k) (rows d))) r))
          as (c1 & c2 & c3 & c4 & Hc & _).
        -- specialize (Hkey k Hk). lia.
        -- rewrite !length_slice by (rewrite !length_map in *; lia). reflexivity.
        -- rewrite !length_slice by (rewrite !length_map in *; lia). reflexivity.
        -- eexists. exact Hc.
    + intros g Hg. apply in_map_iff in Hg. destruct Hg as (k & <- & Hk).
      destruct (validate_f_ok betaincinv m self F m_shape self_model self_forward
                  batch_size_pos lam delta k
                  (mk_df true (filter (fun t : tile => tile_K t =? k) (rows d))))
        as (fr & Hfr & _).
      * specialize (Hkey k Hk). lia.
      * eexists. exact Hfr.
  - rewrite snd_mapM_ok.
    + rewrite map_map. f_equal. apply map_ext_in. intros k Hk. cbn [fst snd].
      rewrite snd_calibrate_f. cbn [rows].
      rewrite snd_batch_ok.
      * apply concat_map_singletons. intros r _. apply snd_calibrate__batched.
      * intros r Hr. apply (batch_ranges_bounds _ _ _ _ _ batch_size_pos) in Hr.
        destruct (calibrate__batched_ok m self G m_shape self_model
                    self_backward alpha k
                    (slice (map theta (filter (fun t : tile => tile_K t =? k) (rows d))) r)
                    (slice (map vertices (filter (fun t : tile => tile_K t =? k) (rows d))) r)
                    (slice (map null_truth (filter (fun t : tile => tile_K t =? k) (rows d))) r))
          as (c1 & c2 & Hc & _).
        -- exact (Hkey k Hk).
        -- rewrite !length_slice by (rewrite !length_map in *; lia). reflexivity.
        -- rewrite !length_slice by (rewrite !length_map in *; lia). reflexivity.
        -- eexists. exact Hc.
    + intros g Hg. apply in_map_iff in Hg. destruct Hg as (k & <- & Hk).
      destruct (calibrate_f_ok m self G m_shape self_model self_backward
                  batch_size_pos alpha k
                  (mk_df true (filter (fun t : tile => tile_K t =? k) (rows d))))
        as (fr & Hfr & _).
      * exact (Hkey k Hk).
      * eexists. exact Hfr.
Qed.

End Contract.

Lemma slice_In :
  forall (A : Type) (l : list A) (r : nat * nat) (x : A),
    In x (slice l r) -> In x l.
Proof.
  intros A l r x H. unfold slice in H.
  rewrite <- (firstn_skipn (fst r) l). apply in_or_app. right.
  rewrite <- (firstn_skipn (snd r - fst r) (skipn (fst r) l)).
  apply in_or_app. left. exact H.
Qed.

Lemma sub_batches_points :
  forall (bs : nat) (d : DataFrame),
    (0 < bs)%nat ->
    concat (map call_theta (sub_batches bs d)) =
    flat_map (fun k => map theta (filter (fun t : tile => tile_K t =? k) (rows d)))
             (group_keys (map tile_K (rows d))).
Proof.
  intros bs d Hbs. unfold sub_batches.
  induction (group_keys (map tile_K (rows d))) as [| k ks IH].
  - reflexivity.
  - cbn [flat_map]. rewrite map_app, concat_app, IH. f_equal.
    rewrite map_map. cbn [call_theta].
    apply concat_slices; [exact Hbs | reflexivity].
Qed.

Lemma sub_batches_sizes :
  forall (bs : nat) (d : DataFrame),
    (0 < bs)%nat ->
    Forall (fun c : call =>
              (1 <= length (call_theta c) <= bs)%nat /\
              length (call_null_truth c) = length (call_theta c) /\
              seed_offset c = 0 /\
              forall th, In th (call_theta c) ->
                exists t : tile, In t (rows d) /\ theta t = th /\ tile_K t = call_K c)
           (sub_batches bs d).
Proof.
  intros bs d Hbs. unfold sub_batches. apply Forall_forall. intros c Hc.
  apply in_flat_map in Hc. destruct Hc as (k & _ & Hc).
  cbv zeta in Hc. apply in_map_iff in Hc. destruct Hc as (r & <- & Hr).
  apply (batch_ranges_bounds _ _ _ _ _ Hbs) in Hr.
  cbn [call_theta call_null_truth seed_offset call_K].
  rewrite !length_slice by (rewrite !length_map in *; lia).
  split; [lia |]. split; [reflexivity |]. split; [reflexivity |].
  intros th Hth. apply slice_In in Hth.
  apply in_map_iff in Hth. destruct Hth as (t & <- & Ht).
  apply filter_In in Ht. destruct Ht as (Hin & HKt).
  exists t. split; [exact Hin |]. split; [reflexivity | apply Z.eqb_eq; exact HKt].
Qed.

(** X10: for a model that returns matrices of the requested shape,
    [Driver.validate] and [Driver.calibrate] invoke the simulation model
    on the same batches, in the same order, whatever the threshold and
    the levels are. *)
Theorem same_batches_simulated :
  forall (m : Model) (bs : nat) (self : Driver) (d : DataFrame)
         (lam delta alpha lam' delta' alpha' : Q),
    respects_shape m -> Driver_init bound m bs = Ok self -> (1 <= bs)%nat ->
    has_K d = true -> Forall (fun t => 1 <= tile_K t) (rows d) ->
    snd (Driver_validate betaincinv self d lam delta) =
      snd (Driver_calibrate self d alpha) /\
    snd (Driver_validate betaincinv self d lam delta) =
      snd (Driver_validate betaincinv self d lam' delta') /\
    snd (Driver_calibrate self d alpha) = snd (Driver_calibrate self d alpha').
Proof.
  intros m bs self d lam delta alpha lam' delta' alpha' Hm Hinit Hbs HK HKs.
  destruct (Driver_init_fields bound m bs self Hinit)
    as (Hmodel & Hsize & b & params & Hf & Hb).
  assert (Hpos : (0 < tile_batch_size self)%nat) by (rewrite Hsize; exact Hbs).
  pose proof (fun lam delta alpha =>
                Driver_invocations m self _ _ Hm Hmodel Hf Hb Hpos d lam delta alpha
                  HK HKs) as H.
  destruct (H lam delta alpha) as (-> & ->).
  destruct (H lam' delta' alpha') as (-> & ->).
  repeat split; reflexivity.
Qed.

(** X11: for such a model and [tile_batch_size >= 1], every tile is
    simulated exactly once: the points of the invocations, in order, are
    the points of the K-groups, K ascending; each invocation has between 1
    and [tile_batch_size] points, as many null-hypothesis assignments,
    and only points of tiles whose K is the K of the invocation. *)
Theorem every_tile_simulated_once :
  forall (m : Model) (bs : nat) (self : Driver) (d : DataFrame) (lam delta : Q),
    respects_shape m -> Driver_init bound m bs = Ok self -> (1 <= bs)%nat ->
    has_K d = true -> Forall (fun t => 1 <= tile_K t) (rows d) ->
    let calls := snd (Driver_validate betaincinv self d lam delta) in
    concat (map call_theta calls) =
      flat_map (fun k => map theta (filter (fun t : tile => tile_K t =? k) (rows d)))
               (group_keys (map tile_K (rows d))) /\
    Permutation (concat (map call_theta calls)) (map theta (rows d)) /\
    Forall (fun c : call =>
              (1 <= length (call_theta c) <= bs)%nat /\
              length (call_null_truth c) = length (call_theta c) /\
              forall th, In th (call_theta c) ->
                exists t : tile, In t (rows d) /\ theta t = th /\ tile_K t = call_K c)
           calls.
Proof.
  intros m bs self d lam delta Hm Hinit Hbs HK HKs calls.
  destruct (Driver_init_fields bound m bs self Hinit)
    as (Hmodel & Hsize & b & params & Hf & Hb).
  assert (Hpos : (0 < tile_batch_size self)%nat) by (rewrite Hsize; exact Hbs).
  destruct (Driver_invocations m self _ _ Hm Hmodel Hf Hb Hpos d lam delta 0%Q HK HKs)
    as (Hv & _).
  unfold calls. rewrite Hv, Hsize.
  pose proof (sub_batches_points bs d Hbs) as Hpts.
  split; [exact Hpts |]. split.
  - rewrite Hpts.
    rewrite flat_map_concat_map.
    rewrite <- (map_map (fun k => filter (fun t : tile => tile_K t =? k) (rows d)) (map theta)).
    rewrite <- concat_map. apply Permutation_map.
    rewrite <- flat_map_concat_map.
    apply (groups_partition _ tile_K).
    + apply group_keys_NoDup.
    + intros x Hx. apply group_keys_In. apply in_map. exact Hx.
  - eapply Forall_impl; [| apply (sub_batches_sizes bs d Hbs)].
    intros c (H1 & H2 & _ & H4). repeat split; try assumption; lia.
Qed.

End Batches.

(** ** The tie count and the threshold *)

Lemma filter_length_mono :
  forall (A : Type) (f g : A -> bool) (l : list A),
    (forall x, f x = true -> g x = true) ->
    (length (filter f l) <= length (filter g l))%nat.
Proof.
  intros A f g l H. induction l as [| x l IH]; simpl; [lia |].
  destruct (f x) eqn:Ef.
  - rewrite (H x Ef). simpl. lia.
  - destruct (g x); simpl; lia.
Qed.

Lemma Forall2_map_same :
  forall (A B : Type) (P : B -> B -> Prop) (f g : A -> B) (l : list A),
    (forall x, P (f x) (g x)) -> Forall2 P (map f l) (map g l).
Proof.
  intros A B P f g l H. induction l; simpl; constructor; auto.
Qed.

Section TieCountThreshold.

Context {Theta Vertices NullTruth : Type}.
Variable betaincinv : Z -> Z -> Q -> option Q.

Local Abbreviation Driver := (Driver Theta Vertices NullTruth).

Lemma validate__batched_inv :
  forall (self : Driver) (lam delta : Q) (K : Z) th v nt s e c b,
    fst (validate__batched betaincinv self lam delta K th v nt) = Ok (s, e, c, b) ->
    s = jnp_sum_lt (sim_batch (model self) 0 K th nt) lam /\
    e = map (fun x => inject_Z x / inject_Z K)%Q s.
Proof.
  intros self lam delta K th v nt s e c b H. unfold validate__batched in H.
  rewrite fst_bind in H. cbn [call_sim_batch fst res_bind] in H.
  rewrite fst_bind in H. change (fst (lift ?r)) with r in H.
  destruct (_check_stats _ _ _); [| discriminate].
  cbn [res_bind ret fst] in H. injection H as <- <- _ _.
  split; reflexivity.
Qed.

(** X12: a higher threshold never rejects fewer simulations: the tie count
    and the tie estimate of every tile are non-decreasing in [lam]. *)
Theorem tie_count_monotone_in_lam :
  forall (self : Driver) (lam lam' delta : Q) (K : Z) th v nt
         (s s' : list Z) (e e' c c' b b' : list Q),
    (lam <= lam')%Q ->
    fst (validate__batched betaincinv self lam delta K th v nt) = Ok (s, e, c, b) ->
    fst (validate__batched betaincinv self lam' delta K th v nt) = Ok (s', e', c', b') ->
    Forall2 Z.le s s' /\ (0 < K -> Forall2 Qle e e').
Proof.
  intros self lam lam' delta K th v nt s s' e e' c c' b b' Hle H H'.
  apply validate__batched_inv in H, H'.
  destruct H as (-> & ->). destruct H' as (-> & ->).
  assert (Hrow : forall row : list Q,
             Z.of_nat (length (filter (fun x => Qltb x lam) row)) <=
             Z.of_nat (length (filter (fun x => Qltb x lam') row))).
  { intros row. apply inj_le. apply filter_length_mono.
    intros x Hx. apply Qltb_lt in Hx. apply Qltb_lt.
    eapply Qlt_le_trans; eassumption. }
  unfold jnp_sum_lt. split.
  - apply Forall2_map_same. exact Hrow.
  - intros HK. rewrite !map_map. apply Forall2_map_same. intros row.
    unfold Qdiv. apply Qmult_le_compat_r.
    + rewrite <- Zle_Qle. apply Hrow.
    + apply Qinv_le_0_compat. change (inject_Z 0 <= inject_Z K)%Q.
      rewrite <- Zle_Qle. lia.
Qed.

End TieCountThreshold.

(** ** The calibrated threshold *)

Lemma Sorted_Qle_nth_error :
  forall (l : list Q) (i j : nat) (x y : Q),
    Sorted Qle l -> (i <= j)%nat ->
    nth_error l i = Some x -> nth_error l j = Some y -> (x <= y)%Q.
Proof.
  intros l i j x y Hs. apply Sorted_StronglySorted in Hs.
  2:{ intros a b c. apply Qle_trans. }
  revert i j. induction Hs as [| h t Ht IH Hall]; intros i j Hij Hi Hj.
  - destruct i; discriminate.
  - destruct i as [| i]; destruct j as [| j]; simpl in Hi, Hj.
    + injection Hi as <-. injection Hj as <-. apply Qle_refl.
    + injection Hi as <-. rewrite Forall_forall in Hall. apply Hall.
      eapply nth_error_In. exact Hj.
    + lia.
    + apply (IH i j); [lia | assumption | assumption].
Qed.

Lemma jax_getitem_position :
  forall (A : Type) (a : list A) (i : Z),
    0 <= i -> a <> [] ->
    jax_getitem a i = nth_error a (Nat.min (Z.to_nat i) (length a - 1)).
Proof.
  intros A a i Hi Hne. unfold jax_getitem.
  assert (Hlen : (0 < length a)%nat).
  { destruct a; [congruence | simpl; lia]. }
  destruct (Z.ltb_spec i 0) as [H | H]; [lia |].
  f_equal. lia.
Qed.

Lemma calibration_index_small :
  forall (K : Z) (alpha : Q),
    0 <= K -> (inject_Z (K + 1) * alpha <= 1)%Q -> _calibration_index K alpha = 0.
Proof.
  intros K alpha HK Hle. unfold _calibration_index.
  assert (Hm : (inject_Z (K + 1) * jnp_maximum alpha 0 < 2)%Q).
  { unfold jnp_maximum. destruct (Qle_bool alpha 0).
    - rewrite Qmult_0_r. reflexivity.
    - eapply Qle_lt_trans; [exact Hle | reflexivity]. }
  pose proof (Qfloor_le (inject_Z (K + 1) * jnp_maximum alpha 0)) as Hfl.
  assert (Hz : (inject_Z (Qfloor (inject_Z (K + 1) * jnp_maximum alpha 0)) < inject_Z 2)%Q).
  { eapply Qle_lt_trans; [exact Hfl | exact Hm]. }
  rewrite <- Zlt_Qlt in Hz. lia.
Qed.

Lemma calibration_index_large :
  forall (K : Z) (alpha : Q),
    1 <= K -> (1 <= alpha)%Q -> K <= _calibration_index K alpha.
Proof.
  intros K alpha HK Ha.
  destruct (Z_lt_le_dec (_calibration_index K alpha) K) as [H | H]; [| exact H].
  exfalso.
  assert (Hlt : (alpha < 1)%Q).
  { apply (calibration_index_le_iff K alpha HK). lia. }
  apply (Qlt_not_le _ _ Hlt). exact Ha.
Qed.

Lemma filter_none :
  forall (A : Type) (f : A -> bool) (l : list A),
    (forall x, In x l -> f x = false) -> filter f l = [].
Proof.
  intros A f l. induction l as [| x l IH]; intros H; simpl.
  - reflexivity.
  - rewrite (H x (or_introl eq_refl)). apply IH.
    intros y Hy. apply H. right. exact Hy.
Qed.

Lemma Qltb_false : forall x y : Q, (y <= x)%Q -> Qltb x y = false.
Proof.
  intros x y H. unfold Qltb. apply Qle_bool_iff in H. rewrite H. reflexivity.
Qed.

(** In an ascending row, fewer than [p + 1] entries are strictly below the
    entry at position [p]. *)
Lemma Sorted_Qle_below :
  forall (l : list Q) (p : nat) (lam : Q),
    Sorted Qle l -> nth_error l p = Some lam ->
    (length (filter (fun s => Qltb s lam) l) <= p)%nat.
Proof.
  intros l p lam Hs Hp.
  rewrite <- (firstn_skipn p l) at 1.
  rewrite filter_app, length_app.
  assert (Htail : filter (fun s => Qltb s lam) (skipn p l) = []).
  { apply filter_none. intros s Hin. apply Qltb_false.
    apply In_nth_error in Hin. destruct Hin as (j & Hj).
    rewrite nth_error_skipn in Hj.
    apply (Sorted_Qle_nth_error l p (p + j) lam s Hs); [lia | exact Hp | exact Hj]. }
  rewrite Htail. simpl.
  pose proof (filter_length_le (fun s => Qltb s lam) (firstn p l)) as H1.
  pose proof (firstn_le_length p l) as H2. lia.
Qed.

Lemma filter_length_perm :
  forall (A : Type) (f : A -> bool) (l l' : list A),
    Permutation l l' -> length (filter f l) = length (filter f l').
Proof.
  intros A f l l' H. induction H; simpl.
  - reflexivity.
  - destruct (f x); simpl; congruence.
  - destruct (f x); destruct (f y); reflexivity.
  - congruence.
Qed.

(** The threshold that [Driver.calibrate] computes for a tile: the row of
    statistics is sorted and indexed through [np.arange(K)]. *)
Lemma calibrated_threshold_position :
  forall (row : list Q) (alpha : Q),
    row <> [] ->
    calc_calibration_threshold (jnp_sort_row row)
      (np_arange (Z.of_nat (length row))) alpha =
    nth_error (jnp_sort_row row)
      (Nat.min (Z.to_nat (_calibration_index (Z.of_nat (length row)) alpha))
               (length row - 1)).
Proof.
  intros row alpha Hne.
  assert (Hne' : jnp_sort_row row <> []).
  { intros E. apply (f_equal (@length Q)) in E.
    rewrite length_jnp_sort_row in E. destruct row; [congruence | discriminate]. }
  rewrite <- (length_jnp_sort_row row) at 1.
  rewrite (calc_calibration_threshold_arange _ alpha Hne').
  rewrite jax_getitem_position by (try apply calibration_index_nonneg; exact Hne').
  rewrite !length_jnp_sort_row. reflexivity.
Qed.

Lemma calibrated_threshold_no_statistics :
  forall alpha : Q,
    calc_calibration_threshold (jnp_sort_row [])
      (np_arange (Z.of_nat (length (@nil Q)))) alpha = None.
Proof.
  intros alpha. unfold calc_calibration_threshold.
  change (np_arange (Z.of_nat (length (@nil Q)))) with (@nil Z).
  rewrite jax_getitem_nil. reflexivity.
Qed.

Lemma calibrated_threshold_some :
  forall (row : list Q) (alpha : Q),
    row <> [] ->
    exists lam,
      calc_calibration_threshold (jnp_sort_row row)
        (np_arange (Z.of_nat (length row))) alpha = Some lam /\
      In lam row.
Proof.
  intros row alpha Hne. rewrite (calibrated_threshold_position row alpha Hne).
  assert (Hlen : (0 < length row)%nat).
  { destruct row; [congruence | simpl; lia]. }
  destruct (nth_error (jnp_sort_row row) _) as [lam |] eqn:E.
  - exists lam. split; [reflexivity |].
    apply nth_error_In in E.
    eapply Permutation_in; [symmetry; apply jnp_sort_row_perm | exact E].
  - apply nth_error_None in E. rewrite length_jnp_sort_row in E. lia.
Qed.

(** X13: the calibrated threshold is one of the statistics of the tile, for
    every level; it is the smallest one whenever the calibration index
    [_calibration_index K alpha] is 0, and the index is 0 whenever
    [(K+1) * alpha <= 1]. *)
Theorem calibrated_threshold_is_statistic :
  forall (row : list Q) (alpha : Q),
    row <> [] ->
    let K := Z.of_nat (length row) in
    exists lam : Q,
      calc_calibration_threshold (jnp_sort_row row) (np_arange K) alpha = Some lam /\
      In lam row /\
      (_calibration_index K alpha = 0 -> forall s, In s row -> (lam <= s)%Q) /\
      ((inject_Z (K + 1) * alpha <= 1)%Q -> _calibration_index K alpha = 0).
Proof.
  intros row alpha Hne K.
  destruct (calibrated_threshold_some row alpha Hne) as (lam & Hlam & Hin).
  exists lam. split; [exact Hlam |]. split; [exact Hin |].
  split.
  2:{ intros Hsmall. apply calibration_index_small; [unfold K; lia | exact Hsmall]. }
  intros Hidx s Hs.
  rewrite (calibrated_threshold_position row alpha Hne) in Hlam.
  fold K in Hlam.
  rewrite Hidx in Hlam.
  simpl in Hlam.
  apply (Permutation_in _ (jnp_sort_row_perm row)) in Hs.
  apply In_nth_error in Hs. destruct Hs as (j & Hj).
  apply (Sorted_Qle_nth_error (jnp_sort_row row) 0 j lam s);
    [apply jnp_sort_row_sorted | lia | exact Hlam | exact Hj].
Qed.

(** X14: at a level [alpha >= 1] the index is past the end of the row; JAX
    clamps an index that is out of bounds, and the threshold is the
    largest statistic of the tile. *)
Theorem calibrated_threshold_level_one :
  forall (row : list Q) (alpha : Q),
    row <> [] -> (1 <= alpha)%Q ->
    let K := Z.of_nat (length row) in
    K <= _calibration_index K alpha /\
    exists lam : Q,
      calc_calibration_threshold (jnp_sort_row row) (np_arange K) alpha = Some lam /\
      In lam row /\ forall s, In s row -> (s <= lam)%Q.
Proof.
  intros row alpha Hne Ha K.
  assert (HK : 1 <= K).
  { unfold K. destruct row; [congruence | simpl length; lia]. }
  pose proof (calibration_index_large K alpha HK Ha) as Hidx.
  split; [exact Hidx |].
  destruct (calibrated_threshold_some row alpha Hne) as (lam & Hlam & Hin).
  exists lam. split; [exact Hlam |]. split; [exact Hin |].
  intros s Hs.
  rewrite (calibrated_threshold_position row alpha Hne) in Hlam.
  fold K in Hlam.
  apply (Permutation_in _ (jnp_sort_row_perm row)) in Hs.
  apply In_nth_error in Hs. destruct Hs as (j & Hj).
  assert (Hjlt : (j < length (jnp_sort_row row))%nat).
  { apply nth_error_Some. congruence. }
  rewrite length_jnp_sort_row in Hjlt.
  refine (Sorted_Qle_nth_error (jnp_sort_row row) j _ s lam
            (jnp_sort_row_sorted row) _ Hj Hlam).
  unfold K in Hidx |- *. lia.
Qed.

(** X15: for the statistics of one tile, a higher level never gives a lower
    threshold. *)
Theorem calibrated_threshold_monotone :
  forall (row : list Q) (a b lam_a lam_b : Q),
    (a <= b)%Q ->
    let K := Z.of_nat (length row) in
    calc_calibration_threshold (jnp_sort_row row) (np_arange K) a = Some lam_a ->
    calc_calibration_threshold (jnp_sort_row row) (np_arange K) b = Some lam_b ->
    (lam_a <= lam_b)%Q.
Proof.
  intros row a b lam_a lam_b Hab K Ha Hb.
  assert (Hne : row <> []).
  { intros E. unfold K in Ha. rewrite E in Ha.
    rewrite calibrated_threshold_no_statistics in Ha. discriminate Ha. }
  assert (HK : 1 <= K).
  { unfold K. destruct row; [congruence | simpl length; lia]. }
  unfold K in Ha, Hb.
  rewrite (calibrated_threshold_position row a Hne) in Ha.
  rewrite (calibrated_threshold_position row b Hne) in Hb.
  pose proof (calibration_index_mono K a b HK Hab) as Hmono.
  pose proof (calibration_index_nonneg K a) as Hnn.
  refine (Sorted_Qle_nth_error (jnp_sort_row row) _ _ lam_a lam_b
            (jnp_sort_row_sorted row) _ Ha Hb).
  fold K. lia.
Qed.

(** X16: calibration followed by validation: the number of statistics of
    the tile strictly below the calibrated threshold, which is the tie
    count of [validate] at that threshold, is at most the calibration
    index [_calibration_index K alpha] and at most K - 1. *)
Theorem rejections_at_calibrated_threshold :
  forall (row : list Q) (alpha lam : Q),
    let K := Z.of_nat (length row) in
    calc_calibration_threshold (jnp_sort_row row) (np_arange K) alpha = Some lam ->
    let tie_sum := Z.of_nat (length (filter (fun s => Qltb s lam) row)) in
    tie_sum <= _calibration_index K alpha /\
    tie_sum <= K - 1.
Proof.
  intros row alpha lam K Hlam tie_sum.
  assert (Hne : row <> []).
  { intros E. unfold K in Hlam. rewrite E in Hlam.
    rewrite calibrated_threshold_no_statistics in Hlam. discriminate Hlam. }
  assert (HK : 1 <= K).
  { unfold K. destruct row; [congruence | simpl length; lia]. }
  unfold K in Hlam. rewrite (calibrated_threshold_position row _ Hne) in Hlam.
  fold K in Hlam.
  pose proof (Sorted_Qle_below _ _ lam (jnp_sort_row_sorted row) Hlam) as Hcount.
  rewrite <- (filter_length_perm _ _ _ _ (jnp_sort_row_perm row)) in Hcount.
  pose proof (calibration_index_nonneg K alpha) as Hnn.
  assert (H1 : tie_sum <= _calibration_index K alpha) by (unfold tie_sum; lia).
  split; [exact H1 | unfold tie_sum, K; lia].
Qed.

(** ** The grid that [_setup] hands on *)

Lemma series_max_spec :
  forall (x : Z) (l : list Z),
    exists M, series_max (x :: l) = Some M /\ In M (x :: l) /\
              Forall (fun k => k <= M) (x :: l).
Proof.
  intros x l. unfold series_max. exists (fold_left Z.max l x).
  split; [reflexivity |].
  revert x. induction l as [| y l IH]; intros x.
  - simpl. split; [left; reflexivity | constructor; [lia | constructor]].
  - simpl. destruct (IH (Z.max x y)) as (Hin & Hall).
    inversion Hall as [| ? ? Hxy Hl]; subst. split.
    + destruct Hin as [E | Hin].
      * rewrite <- E.
        destruct (Z.max_spec x y) as [(_ & Hm) | (_ & Hm)]; rewrite Hm.
        -- right. left. reflexivity.
        -- left. reflexivity.
      * right. right. exact Hin.
    + constructor; [lia |]. constructor; [lia | exact Hl].
Qed.

Section SetupK.

Context {Theta Vertices NullTruth : Type}.

Local Abbreviation Grid := (Grid Theta Vertices NullTruth).
Local Abbreviation DataFrame := (DataFrame Theta Vertices NullTruth).
Local Abbreviation tile := (tile Theta Vertices NullTruth).
Local Abbreviation world := (world Theta Vertices NullTruth).
Local Abbreviation ModelType := (ModelType Theta NullTruth).
Local Abbreviation no_grid := (mk_Grid (mk_df (Theta:=Theta) (Vertices:=Vertices) (NullTruth:=NullTruth) false [])).

Lemma with_K_has_K : forall (K : option Z) (d : DataFrame), has_K (with_K K d) = true.
Proof.
  intros [k |] d; simpl; [reflexivity |].
  destruct (has_K d) eqn:E; simpl; [exact E | reflexivity].
Qed.

Lemma with_K_rows :
  forall (K : option Z) (d : DataFrame),
    rows (with_K K d) =
    map (fun t =>
           set_tile_K
             (match K with
              | Some k => k
              | None => if has_K d && negb (tile_K t =? 0) then tile_K t else default_K
              end) t)
        (rows d).
Proof.
  intros [k |] d; simpl; [reflexivity |].
  destruct (has_K d); simpl.
  - apply map_ext. intros t. destruct (tile_K t =? 0); [reflexivity |].
    destruct t; reflexivity.
  - rewrite map_map. apply map_ext. intros t. reflexivity.
Qed.

Variable model_type : ModelType.
Variables (g : nat) (model_seed : Z) (K : option Z) (model_kwargs : option kwargs).
Variable w : world.
Hypothesis g_in_store : (g < length (heap w))%nat.

(** What [_setup] returns, for a grid with or without inactive tiles. *)
Lemma setup_result :
  exists g',
    fst (_setup model_type g model_seed K model_kwargs w) =
      Ok (setup_model model_type model_seed K model_kwargs (df (nth g (heap w) no_grid)), g') /\
    nth g' (heap (snd (_setup model_type g model_seed K model_kwargs w))) no_grid =
      mk_Grid (with_K K (df (nth g (heap w) no_grid))) /\
    sim_calls (snd (_setup model_type g model_seed K model_kwargs w)) = sim_calls w.
Proof using g_in_store.
  destruct (forallb active (rows (df (nth g (heap w) no_grid)))) eqn:E.
  - destruct (setup_when_all_active model_type g model_seed K model_kwargs w
                g_in_store E) as (g' & H1 & _ & H2 & _ & H3 & _).
    exists g'. repeat split; assumption.
  - destruct (setup_when_pruned model_type g model_seed K model_kwargs w
                g_in_store E) as (H1 & H2 & H3 & _).
    exists g. repeat split; assumption.
Qed.

(** X17: [_setup] does not raise.  The frame of the grid that it hands on
    has a column K and the tiles of the caller's grid in their order, the
    inactive ones too, with only K changed: K is the argument when one is
    given; otherwise a tile keeps its K when the column is there and the
    value is not 0, and gets [default_K] when the column is missing or the
    value is 0, so that no K of the frame is 0.  The model is constructed
    with the largest value of that column. *)
Theorem setup_column_K :
  let x := nth g (heap w) no_grid in
  exists (m : Model Theta NullTruth) (g' : nat),
    fst (_setup model_type g model_seed K model_kwargs w) = Ok (m, g') /\
    let d' := df (nth g' (heap (snd (_setup model_type g model_seed K model_kwargs w)))
                    no_grid) in
    has_K d' = true /\
    Forall2 (fun t t' : tile =>
               index t' = index t /\ theta t' = theta t /\
               vertices t' = vertices t /\ null_truth t' = null_truth t /\
               active t' = active t /\
               tile_K t' =
                 match K with
                 | Some k => k
                 | None =>
                     if has_K (df x) && negb (tile_K t =? 0) then tile_K t
                     else default_K
                 end)
            (rows (df x)) (rows d') /\
    (K = None -> Forall (fun t' : tile => tile_K t' <> 0) (rows d')) /\
    m = model_type model_seed (series_max (map tile_K (rows d')))
          (match model_kwargs with None => [] | Some kw => kw end).
Proof using g_in_store.
  intros x. destruct setup_result as (g' & H1 & H2 & _).
  eexists. exists g'. split; [exact H1 |].
  cbv zeta. rewrite H2. cbn [df]. fold x.
  split; [apply with_K_has_K |].
  split; [| split; [| reflexivity]]; rewrite with_K_rows.
  - induction (rows (df x)) as [| t l IH]; simpl; constructor.
    + repeat split; reflexivity.
    + exact IH.
  - intros ->. apply Forall_forall. intros t' Ht'.
    apply in_map_iff in Ht'. destruct Ht' as (t & <- & _). simpl.
    destruct (has_K (df x)); simpl; [| discriminate].
    destruct (Z.eqb_spec (tile_K t) 0) as [E | E]; simpl; [discriminate | exact E].
Qed.

(** X18: [_setup] constructs the model once, with the seed, the largest K
    of the column it has just filled in, and the keyword arguments. *)
Theorem setup_model_largest_K :
  let x := nth g (heap w) no_grid in
  let kw := match model_kwargs with None => [] | Some kw => kw end in
  (rows (df x) = [] ->
   exists g', fst (_setup model_type g model_seed K model_kwargs w) =
              Ok (model_type model_seed None kw, g')) /\
  (rows (df x) <> [] ->
   exists (M : Z) (g' : nat),
     fst (_setup model_type g model_seed K model_kwargs w) =
       Ok (model_type model_seed (Some M) kw, g') /\
     let d' := df (nth g' (heap (snd (_setup model_type g model_seed K model_kwargs w)))
                     no_grid) in
     In M (map tile_K (rows d')) /\
     Forall (fun t' : tile => tile_K t' <= M) (rows d') /\
     (forall k, K = Some k -> M = k)).
Proof using g_in_store.
  intros x kw. destruct setup_result as (g' & H1 & H2 & _). fold x in H1, H2.
  unfold setup_model in H1. fold kw in H1. split.
  - intros Hnil. exists g'. rewrite H1.
    rewrite with_K_rows, Hnil. reflexivity.
  - intros Hne.
    destruct (map tile_K (rows (with_K K (df x)))) as [| k0 ks] eqn:Ek.
    { exfalso. apply map_eq_nil in Ek. rewrite with_K_rows in Ek.
      apply map_eq_nil in Ek. contradiction. }
    destruct (series_max_spec k0 ks) as (M & HM & Hin & Hall).
    exists M, g'. rewrite H1, HM. split; [reflexivity |].
    cbv zeta. rewrite H2. cbn [df]. rewrite Ek.
    split; [exact Hin |]. split.
    + rewrite <- Ek in Hall. rewrite Forall_map in Hall. exact Hall.
    + intros k ->. rewrite <- Ek in Hin. rewrite with_K_rows, map_map in Hin.
      apply in_map_iff in Hin. destruct Hin as (t & Ht & _). simpl in Ht. congruence.
Qed.

(** The grids of the store other than [g] are left as they are. *)
Lemma setup_store_others :
  forall j : nat,
    (j < length (heap w))%nat -> j <> g ->
    nth j (heap (snd (_setup model_type g model_seed K model_kwargs w))) no_grid =
    nth j (heap w) no_grid.
Proof using g_in_store.
  intros j Hj Hjg.
  unfold _setup, prune_inactive, copy_deepcopy, bindM, get_grid, new_grid,
    warnings_warn, retM, modify_df.
  cbn [heap sim_calls warnings fst snd].
  destruct (n_tiles _ <? n_tiles _)%nat; cbn [heap sim_calls warnings fst snd].
  - destruct K as [k |]; cbn [heap sim_calls warnings fst snd].
    + rewrite nth_list_update_other by lia.
      apply app_nth1. exact Hj.
    + destruct (negb _); cbn [heap sim_calls warnings fst snd];
        rewrite ?nth_list_update_other by lia; apply app_nth1; exact Hj.
  - destruct K as [k |]; cbn [heap sim_calls warnings fst snd].
    + rewrite nth_list_update_other by (rewrite length_app; simpl; lia).
      rewrite !app_nth1; [reflexivity | exact Hj | rewrite length_app; lia].
    + destruct (negb _); cbn [heap sim_calls warnings fst snd];
        rewrite ?nth_list_update_other by (rewrite length_app; simpl; lia);
        (rewrite !app_nth1; [reflexivity | exact Hj | rewrite length_app; lia]).
Qed.

Lemma setup_store_grows :
  (length (heap w) <=
   length (heap (snd (_setup model_type g model_seed K model_kwargs w))))%nat.
Proof using g_in_store.
  unfold _setup, prune_inactive, copy_deepcopy, bindM, get_grid, new_grid,
    warnings_warn, retM, modify_df.
  cbn [heap sim_calls warnings fst snd].
  destruct (n_tiles _ <? n_tiles _)%nat; cbn [heap sim_calls warnings fst snd];
    destruct K as [k |]; cbn [heap sim_calls warnings fst snd];
    try (destruct (negb _); cbn [heap sim_calls warnings fst snd]);
    rewrite ?length_list_update, ?length_app; simpl; lia.
Qed.

Lemma setup_warnings :
  warnings (snd (_setup model_type g model_seed K model_kwargs w)) =
  warnings w ++
  (if forallb active (rows (df (nth g (heap w) no_grid))) then []
   else ["Pruning inactive tiles before simulation. Mark these tiles as active if you want to simulate for them."%string]).
Proof using g_in_store.
  destruct (forallb active (rows (df (nth g (heap w) no_grid)))) eqn:E.
  - destruct (setup_when_all_active model_type g model_seed K model_kwargs w
                g_in_store E) as (g' & _ & _ & _ & _ & _ & H).
    rewrite H, app_nil_r. reflexivity.
  - destruct (setup_when_pruned model_type g model_seed K model_kwargs w
                g_in_store E) as (_ & _ & _ & H).
    exact H.
Qed.

End SetupK.

(** ** The top-level operations *)

Section TopLevelX.

Context {Theta Vertices NullTruth : Type}.
Variable betaincinv : Z -> Z -> Q -> option Q.
Variable bound : bound_module Theta Vertices.

Local Abbreviation Grid := (Grid Theta Vertices NullTruth).
Local Abbreviation DataFrame := (DataFrame Theta Vertices NullTruth).
Local Abbreviation Driver := (Driver Theta Vertices NullTruth).
Local Abbreviation tile := (tile Theta Vertices NullTruth).
Local Abbreviation world := (world Theta Vertices NullTruth).
Local Abbreviation ModelType := (ModelType Theta NullTruth).
Local Abbreviation call := (call Theta NullTruth).
Local Abbreviation no_grid := (mk_Grid (mk_df (Theta:=Theta) (Vertices:=Vertices) (NullTruth:=NullTruth) false [])).

Variable model_type : ModelType.
Variables (g : nat) (model_seed : Z) (K : option Z) (bs : nat)
          (model_kwargs : option kwargs).
Variable w : world.
Hypothesis g_in_store : (g < length (heap w))%nat.

Lemma top_level_init_raises :
  forall (A : Type) (op : Driver -> DataFrame -> D call A) m g' e,
    fst (_setup model_type g model_seed K model_kwargs w) = Ok (m, g') ->
    Driver_init bound m bs = Raise e ->
    fst (top_level bound model_type g model_seed K bs model_kwargs op w) = Raise e /\
    sim_calls (snd (top_level bound model_type g model_seed K bs model_kwargs op w)) =
      sim_calls (snd (_setup model_type g model_seed K model_kwargs w)).
Proof using Type.
  intros A op m g' e Hs Hd. unfold top_level, bindM.
  destruct (_setup model_type g model_seed K model_kwargs w) as [r w1].
  simpl in Hs. subst r. unfold liftM. simpl. rewrite Hd. split; reflexivity.
Qed.

(** What a top-level operation returns and invokes: what the method of
    the driver does on the frame that [_setup] filled in. *)
Lemma top_level_result :
  forall (A : Type) (op : Driver -> DataFrame -> D call A) (driver : Driver),
    let x := nth g (heap w) no_grid in
    Driver_init bound (setup_model model_type model_seed K model_kwargs (df x)) bs
      = Ok driver ->
    fst (top_level bound model_type g model_seed K bs model_kwargs op w) =
      fst (op driver (with_K K (df x))) /\
    sim_calls (snd (top_level bound model_type g model_seed K bs model_kwargs op w)) =
      sim_calls w ++ snd (op driver (with_K K (df x))).
Proof using g_in_store.
  intros A op driver x Hinit.
  destruct (setup_result model_type g model_seed K model_kwargs w g_in_store)
    as (g' & H1 & H2 & H3).
  destruct (top_level_run bound model_type g model_seed K bs model_kwargs w A op
              _ g' driver H1 Hinit) as (Hr & Hc).
  rewrite H2 in Hr, Hc. rewrite H3 in Hc. split; assumption.
Qed.

(** X19: a model whose family is not a key of [bound_dict]: the top-level
    operations raise [KeyError(family)] when they construct the driver,
    after [_setup] and before any simulation. *)
Theorem unknown_family_raises :
  forall (lam delta alpha : Q),
    let m := setup_model model_type model_seed K model_kwargs
               (df (nth g (heap w) no_grid)) in
    ~ In (family m) (map fst (bound_dict bound)) ->
    fst (validate betaincinv bound model_type g lam delta model_seed K bs
           model_kwargs w) = Raise (KeyError (family m)) /\
    sim_calls (snd (validate betaincinv bound model_type g lam delta model_seed K bs
                      model_kwargs w)) = sim_calls w /\
    fst (calibrate bound model_type g alpha model_seed K bs model_kwargs w) =
      Raise (KeyError (family m)) /\
    sim_calls (snd (calibrate bound model_type g alpha model_seed K bs
                      model_kwargs w)) = sim_calls w.
Proof using g_in_store.
  intros lam delta alpha m Hfam.
  destruct (setup_result model_type g model_seed K model_kwargs w g_in_store)
    as (g' & H1 & _ & H3).
  fold m in H1.
  assert (Hinit : Driver_init bound m bs = Raise (KeyError (family m))).
  { unfold Driver_init, get_bound.
    destruct (find (fun e => String.eqb (fst e) (family m)) (bound_dict bound))
      as [e |] eqn:E; [| reflexivity].
    exfalso. apply find_some in E. destruct E as (Hin & Hk).
    apply String.eqb_eq in Hk. apply Hfam. rewrite <- Hk.
    apply in_map. exact Hin. }
  rewrite validate_top_level, calibrate_top_level.
  destruct (top_level_init_raises _
              (fun driver d => Driver_validate betaincinv driver d lam delta)
              m g' _ H1 Hinit) as (Hv1 & Hv2).
  destruct (top_level_init_raises _
              (fun driver d => Driver_calibrate driver d alpha)
              m g' _ H1 Hinit) as (Hc1 & Hc2).
  rewrite Hv1, Hv2, Hc1, Hc2, H3. repeat split; reflexivity.
Qed.

(** X20: the top-level operations run the method of the driver on the frame
    that [_setup] filled in, for a grid with or without inactive tiles:
    they return what the method returns and invoke what it invokes. *)
Theorem top_level_runs_driver :
  forall (lam delta alpha : Q) (driver : Driver),
    let x := nth g (heap w) no_grid in
    let d := with_K K (df x) in
    Driver_init bound (setup_model model_type model_seed K model_kwargs (df x)) bs
      = Ok driver ->
    rows d = map (fun t =>
                    set_tile_K
                      (match K with
                       | Some k => k
                       | None => if has_K (df x) && negb (tile_K t =? 0)
                                 then tile_K t else default_K
                       end) t)
                 (rows (df x)) /\
    has_K d = true /\
    fst (validate betaincinv bound model_type g lam delta model_seed K bs
           model_kwargs w) = fst (Driver_validate betaincinv driver d lam delta) /\
    sim_calls (snd (validate betaincinv bound model_type g lam delta model_seed K bs
                      model_kwargs w)) =
      sim_calls w ++ snd (Driver_validate betaincinv driver d lam delta) /\
    fst (calibrate bound model_type g alpha model_seed K bs model_kwargs w) =
      fst (Driver_calibrate driver d alpha) /\
    sim_calls (snd (calibrate bound model_type g alpha model_seed K bs
                      model_kwargs w)) =
      sim_calls w ++ snd (Driver_calibrate driver d alpha).
Proof using g_in_store.
  intros lam delta alpha driver x d Hinit.
  split; [apply with_K_rows |]. split; [apply with_K_has_K |].
  rewrite validate_top_level, calibrate_top_level.
  destruct (top_level_result _
              (fun driver d => Driver_validate betaincinv driver d lam delta)
              driver Hinit) as (Hv1 & Hv2).
  destruct (top_level_result _
              (fun driver d => Driver_calibrate driver d alpha)
              driver Hinit) as (Hc1 & Hc2).
  repeat split; assumption.
Qed.

(** X21: on a grid without tiles the top-level operations raise the
    [ValueError] of [pd.concat], whatever K is, and invoke nothing. *)
Theorem empty_grid_raises :
  forall (lam delta alpha : Q) (driver : Driver),
    let x := nth g (heap w) no_grid in
    rows (df x) = [] ->
    Driver_init bound (model_type model_seed None
                         (match model_kwargs with None => [] | Some kw => kw end)) bs
      = Ok driver ->
    fst (validate betaincinv bound model_type g lam delta model_seed K bs
           model_kwargs w) = Raise (ValueError NoObjectsToConcatenate) /\
    sim_calls (snd (validate betaincinv bound model_type g lam delta model_seed K bs
                      model_kwargs w)) = sim_calls w /\
    fst (calibrate bound model_type g alpha model_seed K bs model_kwargs w) =
      Raise (ValueError NoObjectsToConcatenate) /\
    sim_calls (snd (calibrate bound model_type g alpha model_seed K bs
                      model_kwargs w)) = sim_calls w.
Proof using g_in_store.
  intros lam delta alpha driver x Hnil Hinit.
  assert (Hrows : rows (with_K K (df x)) = []).
  { rewrite with_K_rows, Hnil. reflexivity. }
  assert (Hm : setup_model model_type model_seed K model_kwargs (df x) =
               model_type model_seed None
                 (match model_kwargs with None => [] | Some kw => kw end)).
  { unfold setup_model. rewrite Hrows. reflexivity. }
  rewrite <- Hm in Hinit.
  rewrite validate_top_level, calibrate_top_level.
  destruct (top_level_result _
              (fun driver d => Driver_validate betaincinv driver d lam delta)
              driver Hinit) as (Hv1 & Hv2).
  destruct (top_level_result _
              (fun driver d => Driver_calibrate driver d alpha)
              driver Hinit) as (Hc1 & Hc2).
  fold x in Hv1, Hv2, Hc1, Hc2.
  rewrite Hv1, Hv2, Hc1, Hc2.
  unfold Driver_validate, Driver_calibrate, _groupby_apply_K, groupby_K.
  rewrite with_K_has_K, Hrows. simpl. rewrite app_nil_r.
  repeat split; reflexivity.
Qed.

(** X22: the store and the warnings after a top-level operation: the grids
    other than [g] are as before, no grid is removed, and there is one
    warning more exactly when [g] has an inactive tile. *)
Theorem top_level_frame :
  forall (lam delta alpha : Q),
    let after_validate :=
      snd (validate betaincinv bound model_type g lam delta model_seed K bs
             model_kwargs w) in
    let after_calibrate :=
      snd (calibrate bound model_type g alpha model_seed K bs model_kwargs w) in
    let issued :=
      if forallb active (rows (df (nth g (heap w) no_grid))) then []
      else ["Pruning inactive tiles before simulation. Mark these tiles as active if you want to simulate for them."%string] in
    heap after_validate = heap after_calibrate /\
    (length (heap w) <= length (heap after_validate))%nat /\
    (forall j, (j < length (heap w))%nat -> j <> g ->
               nth j (heap after_validate) no_grid = nth j (heap w) no_grid) /\
    warnings after_validate = warnings w ++ issued /\
    warnings after_calibrate = warnings w ++ issued.
Proof using g_in_store.
  intros lam delta alpha after_validate after_calibrate issued.
  unfold after_validate, after_calibrate.
  rewrite validate_top_level, calibrate_top_level.
  rewrite !(proj1 (top_level_store _ _ _ _ _ _ _ _ _ _)).
  rewrite !(proj2 (top_level_store _ _ _ _ _ _ _ _ _ _)).
  split; [reflexivity |].
  split; [apply setup_store_grows; exact g_in_store |]. split.
  - intros j Hj Hjg. apply setup_store_others; assumption.
  - split; apply setup_warnings; exact g_in_store.
Qed.

End TopLevelX.

(** ** Calling a top-level operation again *)

Section Repeat.

Context {Theta Vertices NullTruth : Type}.
Variable betaincinv : Z -> Z -> Q -> option Q.
Variable bound : bound_module Theta Vertices.

Local Abbreviation Grid := (Grid Theta Vertices NullTruth).
Local Abbreviation DataFrame := (DataFrame Theta Vertices NullTruth).
Local Abbreviation Driver := (Driver Theta Vertices NullTruth).
Local Abbreviation tile := (tile Theta Vertices NullTruth).
Local Abbreviation world := (world Theta Vertices NullTruth).
Local Abbreviation ModelType := (ModelType Theta NullTruth).
Local Abbreviation call := (call Theta NullTruth).
Local Abbreviation no_grid := (mk_Grid (mk_df (Theta:=Theta) (Vertices:=Vertices) (NullTruth:=NullTruth) false [])).

(** Filling in the column K a second time changes nothing. *)
Lemma with_K_idempotent :
  forall (K : option Z) (d : DataFrame), with_K K (with_K K d) = with_K K d.
Proof.
  intros [k |] d.
  - simpl. unfold assign_K. simpl. rewrite map_map. reflexivity.
  - assert (Hz : forall l : list tile,
               Forall (fun t => tile_K t <> 0) l ->
               map (fun t => if tile_K t =? 0 then set_tile_K default_K t else t) l = l).
    { intros l Hl. induction Hl as [| t l Ht _ IH]; simpl; [reflexivity |].
      destruct (Z.eqb_spec (tile_K t) 0) as [E | _]; [contradiction |].
      f_equal. exact IH. }
    assert (Hnz : Forall (fun t : tile => tile_K t <> 0) (rows (with_K None d))).
    { rewrite with_K_rows. apply Forall_forall. intros t' Ht'.
      apply in_map_iff in Ht'. destruct Ht' as (t & <- & _). simpl.
      destruct (has_K d); simpl; [| discriminate].
      destruct (Z.eqb_spec (tile_K t) 0) as [E | E]; simpl; [discriminate | exact E]. }
    unfold with_K at 1. rewrite with_K_has_K. cbn [negb].
    unfold replace_zero_K. rewrite with_K_has_K, (Hz _ Hnz).
    pose proof (with_K_has_K None d) as HK.
    destruct (with_K None d) as [hk rs]. simpl in HK. subst hk. reflexivity.
Qed.

Lemma with_K_active :
  forall (K : option Z) (d : DataFrame),
    forallb active (rows (with_K K d)) = forallb active (rows d).
Proof.
  intros K d. rewrite with_K_rows.
  induction (rows d) as [| t l IH]; simpl; [reflexivity |].
  rewrite IH. reflexivity.
Qed.

Variable model_type : ModelType.
Variables (g : nat) (model_seed : Z) (K : option Z) (bs : nat)
          (model_kwargs : option kwargs).

(** The result of a top-level operation is determined by the frame of
    the grid. *)
Lemma top_level_fst :
  forall (w : world) (A : Type) (op : Driver -> DataFrame -> D call A),
    (g < length (heap w))%nat ->
    fst (top_level bound model_type g model_seed K bs model_kwargs op w) =
    res_bind
      (Driver_init bound
         (setup_model model_type model_seed K model_kwargs (df (nth g (heap w) no_grid)))
         bs)
      (fun driver => fst (op driver (with_K K (df (nth g (heap w) no_grid))))).
Proof.
  intros w A op Hg.
  destruct (Driver_init bound _ bs) as [driver | e] eqn:Einit.
  - apply (top_level_result bound model_type g model_seed K bs model_kwargs w Hg
             A op driver Einit).
  - destruct (setup_result model_type g model_seed K model_kwargs w Hg)
      as (g' & H1 & _).
    apply (top_level_init_raises bound model_type g model_seed K bs model_kwargs w
             A op _ g' e H1 Einit).
Qed.

(** The grid [g] after a top-level operation has, once K is filled in,
    the frame that the operation worked on. *)
Lemma top_level_grid_after :
  forall (w : world) (A : Type) (op : Driver -> DataFrame -> D call A),
    (g < length (heap w))%nat ->
    let w' := snd (top_level bound model_type g model_seed K bs model_kwargs op w) in
    (g < length (heap w'))%nat /\
    with_K K (df (nth g (heap w') no_grid)) = with_K K (df (nth g (heap w) no_grid)).
Proof.
  intros w A op Hg w'. unfold w'.
  rewrite (proj1 (top_level_store bound model_type g model_seed K bs model_kwargs w A op)).
  split.
  - pose proof (setup_store_grows model_type g model_seed K model_kwargs w Hg). lia.
  - destruct (forallb active (rows (df (nth g (heap w) no_grid)))) eqn:E.
    + destruct (setup_when_all_active model_type g model_seed K model_kwargs w Hg E)
        as (g' & _ & _ & _ & H & _).
      rewrite H. reflexivity.
    + destruct (setup_when_pruned model_type g model_seed K model_kwargs w Hg E)
        as (_ & H & _).
      rewrite H. cbn [df]. apply with_K_idempotent.
Qed.

(** X23: the top-level operations can be repeated: in the world that
    [validate] leaves, [validate] and [calibrate] on the same grid return
    what they return in the world before it, although a grid with an
    inactive tile has been changed in place by the first call. *)
Theorem top_level_repeatable :
  forall (w : world) (lam delta alpha : Q),
    (g < length (heap w))%nat ->
    let w' := snd (validate betaincinv bound model_type g lam delta model_seed K bs
                     model_kwargs w) in
    fst (validate betaincinv bound model_type g lam delta model_seed K bs
           model_kwargs w') =
    fst (validate betaincinv bound model_type g lam delta model_seed K bs
           model_kwargs w) /\
    fst (calibrate bound model_type g alpha model_seed K bs model_kwargs w') =
    fst (calibrate bound model_type g alpha model_seed K bs model_kwargs w).
Proof.
  intros w lam delta alpha Hg w'. unfold w'.
  rewrite !validate_top_level, !calibrate_top_level.
  destruct (top_level_grid_after w _
              (fun driver d => Driver_validate betaincinv driver d lam delta) Hg)
    as (Hg' & Hd).
  rewrite !top_level_fst by assumption.
  unfold setup_model. rewrite !Hd. split; reflexivity.
Qed.

End Repeat.

(** ** The further properties at the concrete inputs *)

Lemma calibrated_threshold_is_statistic_witness :
  exists lam : Q,
    calc_calibration_threshold (jnp_sort_row ex_row) (np_arange 5) (1 # 10) = Some lam /\
    In lam ex_row /\ forall s, In s ex_row -> (lam <= s)%Q.
Proof.
  assert (Hne : ex_row <> []) by discriminate.
  assert (Hlevel : (inject_Z (Z.of_nat (length ex_row) + 1) * (1 # 10) <= 1)%Q)
    by discriminate.
  destruct (calibrated_threshold_is_statistic ex_row (1 # 10) Hne)
    as (lam & H1 & H2 & H3 & H4).
  exists lam. split; [exact H1 |]. split; [exact H2 |].
  apply H3. apply H4. exact Hlevel.
Defined.

Lemma calibrated_threshold_level_one_witness :
  exists lam : Q,
    calc_calibration_threshold (jnp_sort_row ex_row) (np_arange 5) 1 = Some lam /\
    forall s, In s ex_row -> (s <= lam)%Q.
Proof.
  assert (Hne : ex_row <> []) by discriminate.
  assert (Ha : (1 <= 1)%Q) by discriminate.
  destruct (calibrated_threshold_level_one ex_row 1 Hne Ha)
    as (_ & lam & H1 & _ & H3).
  exists lam. split; [exact H1 | exact H3].
Defined.

Lemma calibrated_threshold_monotone_witness : ((3 # 1) <= (5 # 1))%Q.
Proof.
  assert (Hab : ((1 # 2) <= (5 # 6))%Q) by discriminate.
  exact (calibrated_threshold_monotone ex_row (1 # 2) (5 # 6) (3 # 1) (5 # 1) Hab
           eq_refl eq_refl).
Defined.

Lemma rejections_at_calibrated_threshold_witness :
  Z.of_nat (length (filter (fun s => Qltb s (3 # 1)) ex_row)) <=
  _calibration_index 5 (1 # 2).
Proof.
  exact (proj1 (rejections_at_calibrated_threshold ex_row (1 # 2) (3 # 1) eq_refl)).
Defined.

Lemma Driver_init_family_witness :
  (exists b : BoundType Q Q,
      In ("normal"%string, b) (bound_dict ex_bound_module) /\
      Driver_init ex_bound_module ex_model 2 =
        Ok (mk_Driver ex_model 2 (get_forward_bound b []) (get_backward_bound b []))) /\
  Driver_init ex_bound_module unknown_model 2 = Raise (KeyError "poisson").
Proof.
  split.
  - apply (proj1 (proj2 (Driver_init_family ex_bound_module ex_model 2))).
    simpl. left. reflexivity.
  - apply (proj2 (proj2 (Driver_init_family ex_bound_module unknown_model 2))).
    simpl. intros H.
    repeat (destruct H as [H | H]; [discriminate H |]). exact H.
Defined.

Lemma driver_needs_column_K_witness :
  Driver_validate betaincinv_domain (ex_driver ex_model 2) no_K_df 2 (1 # 100) =
  (Raise (KeyError "K"), []).
Proof.
  exact (proj1 (proj2 (driver_needs_column_K betaincinv_domain (ex_driver ex_model 2)
                         no_K_df 2 (1 # 100) (1 # 2) eq_refl))).
Defined.

Lemma driver_rejects_empty_collection_witness :
  Driver_calibrate (ex_driver ex_model 2) empty_df (1 # 2) =
  (Raise (ValueError NoObjectsToConcatenate), []).
Proof.
  exact (proj2 (proj2 (driver_rejects_empty_collection betaincinv_domain
                         (ex_driver ex_model 2) empty_df 2 (1 # 100) (1 # 2)
                         eq_refl eq_refl))).
Defined.

Lemma dup_df_labels_repeated : ~ NoDup (df_index dup_df).
Proof.
  intros H. inversion H as [| ? ? Hn _]. apply Hn. left. reflexivity.
Qed.

Lemma duplicate_labels_rejected_witness :
  (exists e, fst (Driver_validate betaincinv_domain (ex_driver ex_model 2) dup_df
                    2 (1 # 100)) = Raise e) /\
  (exists e, fst (Driver_calibrate (ex_driver ex_model 2) dup_df (1 # 2)) = Raise e).
Proof.
  exact (duplicate_labels_rejected betaincinv_domain (ex_driver ex_model 2) dup_df
           2 (1 # 100) (1 # 2) dup_df_labels_repeated).
Defined.

Lemma ex_df_K_nonneg : Forall (fun t : tile Q Q bool => 0 <= tile_K t) (rows ex_df).
Proof. unfold ex_df. simpl. repeat constructor; simpl; lia. Qed.

Lemma ex_df_K_pos : Forall (fun t : tile Q Q bool => 1 <= tile_K t) (rows ex_df).
Proof. unfold ex_df. simpl. repeat constructor; simpl; lia. Qed.

Lemma Driver_stats_never_returns_witness :
  snd (Driver_stats (ex_driver ex_model 2) ex_df) =
  [mk_call 0 2 [3 # 2; 0%Q] [true; true]; mk_call 0 3 [1 # 2; 5 # 2] [true; true]].
Proof.
  assert (Hne : rows ex_df <> []) by discriminate.
  exact (proj2 (proj2 (Driver_stats_never_returns (ex_driver ex_model 2) ex_df)
                  ex_model_respects_shape eq_refl Hne ex_df_K_nonneg)).
Defined.

Lemma result_columns_K_idx_witness :
  exists out,
    fst (Driver_calibrate (ex_driver ex_model 2) ex_df (1 # 2)) = Ok out /\
    map (fun r => snd (snd r)) out = [Some 3; Some 2; Some 3; Some 2].
Proof.
  destruct (fst (Driver_calibrate (ex_driver ex_model 2) ex_df (1 # 2)))
    as [out | e] eqn:E.
  - exists out. split; [reflexivity |].
    pose proof (proj2 (result_columns_K_idx betaincinv_domain (ex_driver ex_model 2)
                         ex_df 2 (1 # 100) (1 # 2) ex_df_labels_distinct) out E) as H.
    unfold ex_df in H. simpl in H.
    repeat match goal with
           | H : Forall2 _ (_ :: _) _ |- _ =>
               inversion H as [| ? ? ? ? (_ & ? & _) ?]; subst; clear H
           | H : Forall2 _ [] _ |- _ => inversion H; subst; clear H
           end.
    simpl. repeat f_equal; assumption.
  - vm_compute in E. discriminate E.
Defined.

Lemma ex_model_rows :
  forall (K : Z) (th : list Q) (nt : list bool),
    length nt = length th ->
    shape0 (sim_batch ex_model 0 K th nt) = length th /\
    shape1 (sim_batch ex_model 0 K th nt) = Z.to_nat K /\
    array_rows (sim_batch ex_model 0 K th nt) =
      map (fun p => ex_rowf K (fst p) (snd p)) (combine th nt).
Proof.
  intros K th nt Hnt. split; [reflexivity |]. split; [reflexivity |].
  unfold array_rows, array_row, ex_rowf. simpl.
  rewrite (map_nth_seq _ _
             (fun theta => map (fun j => (theta + inject_Z (Z.of_nat j))%Q)
                               (seq 0 (Z.to_nat K))) 0%Q th).
  rewrite <- (map_map fst
                (fun theta => map (fun j => (theta + inject_Z (Z.of_nat j))%Q)
                                  (seq 0 (Z.to_nat K)))).
  rewrite map_fst_combine by lia. reflexivity.
Qed.

Lemma ex_df_columns :
  forall t : tile Q Q bool,
    In t (rows ex_df) -> Z.of_nat (Z.to_nat (tile_K t)) = tile_K t /\ tile_K t <> 0.
Proof.
  intros t Ht. unfold ex_df in Ht. simpl in Ht.
  repeat (destruct Ht as [<- | Ht]; [simpl; split; [reflexivity | discriminate] |]).
  destruct Ht.
Qed.

Lemma validate_rows_per_tile_witness :
  exists b : BoundType Q Q,
    In ("normal"%string, b) (bound_dict ex_bound_module) /\
    fst (Driver_validate betaincinv_domain (ex_driver ex_model 2) ex_df 2 (1 # 100)) =
    Ok (map (fun t => (index t,
                       (validate_tile betaincinv_domain ex_rowf (forward b [])
                          2 (1 # 100) t,
                        Some (tile_K t))))
            (rows ex_df)).
Proof.
  assert (Hbs : (1 <= 2)%nat) by lia.
  assert (Hne : rows ex_df <> []) by discriminate.
  exact (validate_rows_per_tile betaincinv_domain ex_bound_module ex_model Z.to_nat
           ex_rowf 2 (ex_driver ex_model 2) ex_df 2 (1 # 100) ex_model_rows
           (ex_driver_init ex_model 2 eq_refl eq_refl) Hbs eq_refl Hne
           ex_df_labels_distinct ex_df_columns).
Defined.

Lemma calibrate_rows_per_tile_witness :
  exists b : BoundType Q Q,
    In ("normal"%string, b) (bound_dict ex_bound_module) /\
    fst (Driver_calibrate (ex_driver ex_model 2) ex_df (1 # 2)) =
    Ok (map (fun t =>
               (index t,
                (calibrate_tile ex_rowf (backward b []) (1 # 2) t,
                 _calibration_index (tile_K t)
                   (backward b [] (1 # 2) (theta t) (vertices t)),
                 Some (tile_K t))))
            (rows ex_df)).
Proof.
  assert (Hbs : (1 <= 2)%nat) by lia.
  assert (Hne : rows ex_df <> []) by discriminate.
  destruct (calibrate_rows_per_tile ex_bound_module ex_model Z.to_nat
              ex_rowf 2 (ex_driver ex_model 2) ex_df (1 # 2) ex_model_rows
              (ex_driver_init ex_model 2 eq_refl eq_refl) Hbs eq_refl Hne
              ex_df_labels_distinct ex_df_columns) as (b & Hin & Hout & _).
  exists b. split; [exact Hin | exact Hout].
Defined.

Lemma ex_world_grid : (0 < length (heap ex_world))%nat.
Proof. simpl. lia. Qed.

Lemma setup_column_K_witness :
  exists (m : Model Q bool) (g' : nat),
    fst (_setup ex_model_type 0 0 None None ex_world) = Ok (m, g') /\
    has_K (df (nth g' (heap (snd (_setup ex_model_type 0 0 None None ex_world)))
                 (mk_Grid (mk_df false [])))) = true.
Proof.
  destruct (setup_column_K ex_model_type 0 0 None None ex_world ex_world_grid)
    as (m & g' & H1 & H2 & _).
  exists m, g'. split; [exact H1 | exact H2].
Defined.

Lemma setup_model_largest_K_witness :
  exists (M : Z) (g' : nat),
    fst (_setup ex_model_type 0 0 None None ex_world) =
      Ok (ex_model_type 0 (Some M) [], g') /\
    Forall (fun t' : tile Q Q bool => tile_K t' <= M)
      (rows (df (nth g' (heap (snd (_setup ex_model_type 0 0 None None ex_world)))
                   (mk_Grid (mk_df false []))))).
Proof.
  assert (Hne : rows (df (nth 0 (heap ex_world) (mk_Grid (mk_df false [])))) <> [])
    by discriminate.
  destruct (proj2 (setup_model_largest_K ex_model_type 0 0 None None ex_world
                     ex_world_grid) Hne) as (M & g' & H1 & _ & H3 & _).
  exists M, g'. split; [exact H1 | exact H3].
Defined.

Lemma unknown_family_raises_witness :
  fst (validate betaincinv_domain ex_bound_module unknown_model_type 0 2 (1 # 100)
         0 None 2 None ex_world) = Raise (KeyError "poisson") /\
  sim_calls (snd (validate betaincinv_domain ex_bound_module unknown_model_type 0 2
                    (1 # 100) 0 None 2 None ex_world)) = [].
Proof.
  assert (Hfam : ~ In "poisson"%string (map fst (bound_dict ex_bound_module))).
  { simpl. intros H. repeat (destruct H as [H | H]; [discriminate H |]). exact H. }
  destruct (unknown_family_raises betaincinv_domain ex_bound_module unknown_model_type
              0 0 None 2 None ex_world ex_world_grid 2 (1 # 100) (1 # 2) Hfam)
    as (H1 & H2 & _).
  split; [exact H1 | exact H2].
Defined.

Lemma top_level_runs_driver_witness :
  fst (validate betaincinv_domain ex_bound_module ex_model_type 0 2 (1 # 100)
         0 (Some 5) 2 None ex_world) =
  fst (Driver_validate betaincinv_domain (ex_driver ex_model 2) (assign_K 5 ex_df)
         2 (1 # 100)).
Proof.
  exact (proj1 (proj2 (proj2
           (top_level_runs_driver betaincinv_domain ex_bound_module ex_model_type
              0 0 (Some 5) 2 None ex_world ex_world_grid 2 (1 # 100) (1 # 2)
              (ex_driver ex_model 2) (ex_driver_init ex_model 2 eq_refl eq_refl))))).
Defined.

Lemma empty_world_grid : (0 < length (heap empty_world))%nat.
Proof. simpl. lia. Qed.

Lemma empty_grid_raises_witness :
  fst (validate betaincinv_domain ex_bound_module ex_model_type 0 2 (1 # 100)
         0 (Some 5) 2 None empty_world) = Raise (ValueError NoObjectsToConcatenate).
Proof.
  exact (proj1 (empty_grid_raises betaincinv_domain ex_bound_module ex_model_type
                  0 0 (Some 5) 2 None empty_world empty_world_grid 2 (1 # 100) (1 # 2)
                  (ex_driver ex_model 2) eq_refl
                  (ex_driver_init ex_model 2 eq_refl eq_refl))).
Defined.

Lemma top_level_frame_witness :
  warnings (snd (validate betaincinv_domain ex_bound_module ex_model_type 0 2 (1 # 100)
                   0 None 2 None ex_world)) =
  ["Pruning inactive tiles before simulation. Mark these tiles as active if you want to simulate for them."%string].
Proof.
  exact (proj1 (proj2 (proj2 (proj2
           (top_level_frame betaincinv_domain ex_bound_module ex_model_type
              0 0 None 2 None ex_world ex_world_grid 2 (1 # 100) (1 # 2)))))).
Defined.

Lemma same_batches_simulated_witness :
  snd (Driver_validate betaincinv_domain (ex_driver ex_model 2) ex_df 2 (1 # 100)) =
  snd (Driver_calibrate (ex_driver ex_model 2) ex_df (1 # 2)).
Proof.
  assert (Hbs : (1 <= 2)%nat) by lia.
  exact (proj1 (same_batches_simulated betaincinv_domain ex_bound_module ex_model 2
                  (ex_driver ex_model 2) ex_df 2 (1 # 100) (1 # 2) 3 (1 # 10) (1 # 4)
                  ex_model_respects_shape (ex_driver_init ex_model 2 eq_refl eq_refl)
                  Hbs eq_refl ex_df_K_pos)).
Defined.

Lemma every_tile_simulated_once_witness :
  concat (map call_theta
            (snd (Driver_validate betaincinv_domain (ex_driver ex_model 1) ex_df
                    2 (1 # 100)))) =
  [3 # 2; 0%Q; 1 # 2; 5 # 2].
Proof.
  assert (Hbs : (1 <= 1)%nat) by lia.
  exact (proj1 (every_tile_simulated_once betaincinv_domain ex_bound_module ex_model 1
                  (ex_driver ex_model 1) ex_df 2 (1 # 100)
                  ex_model_respects_shape (ex_driver_init ex_model 1 eq_refl eq_refl)
                  Hbs eq_refl ex_df_K_pos)).
Defined.

Lemma tie_count_monotone_in_lam_witness :
  Forall2 Z.le [1; 0] [2; 1].
Proof.
  assert (Hle : ((1 # 1) <= (2 # 1))%Q) by discriminate.
  exact (proj1 (tie_count_monotone_in_lam betaincinv_domain (ex_driver ex_model 2)
                  (1 # 1) (2 # 1) (1 # 100) 3 [1 # 2; 3 # 2] [1 # 10; 1 # 10]
                  [true; true] _ _ _ _ _ _ _ _ Hle eq_refl eq_refl)).
Defined.

Lemma top_level_repeatable_witness :
  fst (validate betaincinv_domain ex_bound_module ex_model_type 0 2 (1 # 100)
         0 None 2 None
         (snd (validate betaincinv_domain ex_bound_module ex_model_type 0 2 (1 # 100)
                 0 None 2 None ex_world))) =
  fst (validate betaincinv_domain ex_bound_module ex_model_type 0 2 (1 # 100)
         0 None 2 None ex_world).
Proof.
  exact (proj1 (top_level_repeatable betaincinv_domain ex_bound_module ex_model_type
                  0 0 None 2 None ex_world 2 (1 # 100) (1 # 2) ex_world_grid)).
Defined.

Lemma no_simulation_after_mismatch_witness :
  snd (Driver_validate betaincinv_domain (ex_driver short_model 1) ex_df 2 (1 # 100)) =
    [mk_call 0 2 [3 # 2] [true]] /\
  exists e,
    fst (Driver_validate betaincinv_domain (ex_driver short_model 1) ex_df 2 (1 # 100))
    = Raise e /\ is_shape_mismatch e = true.
Proof.
  split; [reflexivity |].
  exact (proj2 (proj1 (proj2 (no_simulation_after_mismatch betaincinv_domain
                                (ex_driver short_model 1) ex_df 2 (1 # 100) (1 # 2)))
                  [] (mk_call 0 2 [3 # 2] [true]) [] eq_refl eq_refl)).
Defined.
